(** * SportsAnalytics: scraping scripts, CSV hand-off and checkpoints

    A shallow embedding of the scripts of the repository whose behaviour
    the specification describes:

    - [496_Project/Code/1_Rookie Contracts/year_to_year_download.py]
    - [496_Project/Code/1_Rookie Contracts/alltime_rookie_contracts.py]
    - [496_Project/Code/2_College Data/cbb_stat_scraper.py]
    - [496_Project/Code/2_College Data/nba_names.py]
    - [hw2-download.py]
    - [createCSV.py]

    The scripts are sequential Python programs with effects (HTTP GET,
    sleeping, console output, files).  Effects are modelled by a small
    state-and-exception monad that records the events a run performs; the
    Python standard [csv] module, which the scripts call to write their
    output, is modelled character by character for its default dialect. *)

From Stdlib Require Import ZArith Lia Bool Ascii String DecimalString.
From stdpp Require Import base option list strings gmap.

Local Open Scope Z_scope.

#[local] Arguments String.append !_ _ : simpl nomatch.

(* ===================================================================== *)
(** * Python strings

    A [str] is modelled by the string of its code points, one character
    for each: the model covers the text whose code points are all below
    256.  White space, letter case and decimal digits are those of Python
    on these code points. *)
(* ===================================================================== *)

Module Py.

Definition CR : ascii := ascii_of_nat 13.
Definition LF : ascii := ascii_of_nat 10.
Definition DQUOTE : ascii := ascii_of_nat 34.
Definition COMMA : ascii := ascii_of_nat 44.
Definition ESC : ascii := ascii_of_nat 27.

Definition is_empty (s : string) : bool :=
  match s with EmptyString => true | _ => false end.

(** [len(s)]. *)
Definition len (s : string) : N := N.of_nat (String.length s).

(** [c in s] for a one-character [c]. *)
Fixpoint char_in (c : ascii) (s : string) : bool :=
  match s with
  | EmptyString => false
  | String d s' => Ascii.eqb c d || char_in c s'
  end.

(** [s.startswith(p)]. *)
Fixpoint startswith (p s : string) : bool :=
  match p, s with
  | EmptyString, _ => true
  | String a p', String b s' => Ascii.eqb a b && startswith p' s'
  | String _ _, EmptyString => false
  end.

(** [sub in s]. *)
Fixpoint contains (sub s : string) : bool :=
  match s with
  | EmptyString => is_empty sub
  | String _ s' => startswith sub s || contains sub s'
  end.

(** [c.isspace()], the white space of [str.strip] and [str.split]: below
    256 these are the code points 9 to 13, 28 to 32, 133 (next line) and
    160 (no-break space). *)
Definition is_space (c : ascii) : bool :=
  let n := N_of_ascii c in
  ((9 <=? n) && (n <=? 13) || (28 <=? n) && (n <=? 32)
   || (n =? 133) || (n =? 160))%N.

Fixpoint lstrip (s : string) : string :=
  match s with
  | EmptyString => EmptyString
  | String c s' => if is_space c then lstrip s' else s
  end.

Fixpoint rstrip (s : string) : string :=
  match s with
  | EmptyString => EmptyString
  | String c s' =>
      match rstrip s' with
      | EmptyString => if is_space c then EmptyString else String c EmptyString
      | r => String c r
      end
  end.

(** [s.strip()]. *)
Definition strip (s : string) : string := lstrip (rstrip s).

(** [c.lower()]: below 256 the cased capitals are [A] to [Z] and the
    code points 192 to 222 without the multiplication sign 215; each has
    its small letter 32 places further. *)
Definition lower_char (c : ascii) : ascii :=
  let n := N_of_ascii c in
  if ((65 <=? n) && (n <=? 90)
      || (192 <=? n) && (n <=? 222) && negb (n =? 215))%N
  then ascii_of_N (n + 32) else c.

(** The capital of a small letter, where it lies below 256: [a] to [z]
    and the code points 224 to 254 without the division sign 247. *)
Definition upper_char (c : ascii) : ascii :=
  let n := N_of_ascii c in
  if ((97 <=? n) && (n <=? 122)
      || (224 <=? n) && (n <=? 254) && negb (n =? 247))%N
  then ascii_of_N (n - 32) else c.

(** [s.lower()]. *)
Fixpoint lower (s : string) : string :=
  match s with
  | EmptyString => EmptyString
  | String c s' => String (lower_char c) (lower s')
  end.

(** [s.capitalize()]: the first character in title case, the others in
    lower case.  The sharp s (223) becomes [Ss].  The capitals of the micro
    sign (181) and of the y with diaeresis (255) lie above 255: a text that
    begins with one of the two is outside what this function describes. *)
Definition capitalize (s : string) : string :=
  match s with
  | EmptyString => EmptyString
  | String c s' =>
      if (N_of_ascii c =? 223)%N then "Ss" +:+ lower s'
      else String (upper_char c) (lower s')
  end.

(** [s.replace(a, b)] for one-character [a] and [b]. *)
Fixpoint replace_char (a b : ascii) (s : string) : string :=
  match s with
  | EmptyString => EmptyString
  | String c s' =>
      String (if Ascii.eqb c a then b else c) (replace_char a b s')
  end.

(** [s.replace(a, '')] for a one-character [a]. *)
Fixpoint remove_char (a : ascii) (s : string) : string :=
  match s with
  | EmptyString => EmptyString
  | String c s' =>
      if Ascii.eqb c a then remove_char a s' else String c (remove_char a s')
  end.

(** [s.split(sep)[-1]] for a one-character [sep]. *)
Fixpoint last_segment_go (sep : ascii) (cur s : string) : string :=
  match s with
  | EmptyString => cur
  | String c s' =>
      if Ascii.eqb c sep then last_segment_go sep EmptyString s'
      else last_segment_go sep (cur +:+ String c EmptyString) s'
  end.
Definition last_segment (sep : ascii) (s : string) : string :=
  last_segment_go sep EmptyString s.

(** [str(n)] for an integer. *)
Definition str_int (n : Z) : string := NilZero.string_of_int (Z.to_int n).

Definition digit_val (c : ascii) : option Z :=
  let n := N_of_ascii c in
  if ((48 <=? n) && (n <=? 57))%N then Some (Z.of_N n - 48) else None.

(** The white space that [int] skips at both ends.  [int] first turns
    the white space above 127 into blanks and then skips what C's
    [isspace] accepts, so that the separators 28 to 31, which [str.strip]
    removes, are not skipped. *)
Definition is_int_space (c : ascii) : bool :=
  let n := N_of_ascii c in
  ((9 <=? n) && (n <=? 13) || (n =? 32) || (n =? 133) || (n =? 160))%N.

Fixpoint int_lstrip (s : string) : string :=
  match s with
  | EmptyString => EmptyString
  | String c s' => if is_int_space c then int_lstrip s' else s
  end.

Fixpoint int_rstrip (s : string) : string :=
  match s with
  | EmptyString => EmptyString
  | String c s' =>
      match int_rstrip s' with
      | EmptyString =>
          if is_int_space c then EmptyString else String c EmptyString
      | r => String c r
      end
  end.

(** The digits of a decimal literal, with their number: single
    underscores are allowed between digits.  Below 256 the decimal digits
    are [0] to [9]. *)
Fixpoint digits (acc : Z) (count : N) (after_digit : bool) (s : string)
    : option (Z * N) :=
  match s with
  | EmptyString => if after_digit then Some (acc, count) else None
  | String c s' =>
      if Ascii.eqb c "_"%char
      then if after_digit then digits acc count false s' else None
      else match digit_val c with
           | Some d => digits (10 * acc + d) (count + 1) true s'
           | None => None
           end
  end.

(** [sys.int_info.default_max_str_digits]. *)
Definition max_str_digits : N := 4300.

(** [int(s)]: surrounding white space, an optional sign, decimal digits;
    [None] stands for [ValueError], which is also what a literal of more
    than 4300 digits gets (the sign, the underscores and the white space
    do not count). *)
Definition int (s : string) : option Z :=
  let t := int_lstrip (int_rstrip s) in
  let parsed :=
    match t with
    | String "-"%char r => prod_map Z.opp id <$> digits 0 0 false r
    | String "+"%char r => digits 0 0 false r
    | r => digits 0 0 false r
    end in
  match parsed with
  | Some (n, count) => if (max_str_digits <? count)%N then None else Some n
  | None => None
  end.

End Py.

(* ===================================================================== *)
(** * The [csv] module, dialect [excel]

    [csv.writer(file)] and [csv.reader(file)] with no further argument use
    the dialect [excel]: delimiter [,], quotechar the double quote,
    [doublequote] on, no escapechar, [skipinitialspace] off, line
    terminator CR LF, [QUOTE_MINIMAL], not strict.  The definitions follow
    the writer ([join_append_data], [join_append], [csv_writerow]) and the
    reader ([parse_process_char], [Reader_iternext]) of CPython's [_csv]
    module, specialised to that dialect. *)
(* ===================================================================== *)

Module Csv.
Import Py.

Definition delimiter : ascii := COMMA.
Definition quotechar : ascii := DQUOTE.
Definition lineterminator : string := String CR (String LF EmptyString).

(** [csv.field_size_limit()]: the reader refuses to grow a field that
    already holds this many characters. *)
Definition field_limit : N := 131072%N.

(** ** Writer *)

(** The characters that make [join_append_data] quote a field. *)
Definition special (c : ascii) : bool :=
  Ascii.eqb c delimiter || Ascii.eqb c quotechar || char_in c lineterminator.

(** First pass of [join_append]: does the field have to be quoted? *)
Fixpoint join_scan (field : string) : bool :=
  match field with
  | EmptyString => false
  | String c s => special c || join_scan s
  end.

(** The copy loop of [join_append_data]: a quote character is doubled. *)
Fixpoint join_copy (field : string) : string :=
  match field with
  | EmptyString => EmptyString
  | String c s =>
      if Ascii.eqb c quotechar
      then String quotechar (String c (join_copy s))
      else String c (join_copy s)
  end.

Definition join_append_data (num_fields : nat) (field : string)
    (quoted : bool) : string :=
  (if (0 <? num_fields)%nat then String delimiter "" else "")
  +:+ (if quoted then String quotechar "" else "")
  +:+ join_copy field
  +:+ (if quoted then String quotechar "" else "").

(** The writer's record buffer and field counter. *)
Record WriterObj := { rec : string; num_fields : nat }.

Definition join_append (w : WriterObj) (field : string) (quoted : bool)
    : WriterObj :=
  let quoted := quoted || join_scan field in
  {| rec := rec w +:+ join_append_data (num_fields w) field quoted;
     num_fields := S (num_fields w) |}.

(** [csv_writerow]: the text handed to [file.write] for one row. *)
Definition writerow (row : list string) : string :=
  let w := fold_left (fun w f => join_append w f false) row
                     {| rec := ""; num_fields := 0 |} in
  let w :=
    if (0 <? num_fields w)%nat && (len (rec w) =? 0)%N
    then join_append {| rec := rec w; num_fields := num_fields w - 1 |} "" true
    else w in
  rec w +:+ lineterminator.

(** [csv_writerows]. *)
Fixpoint writerows (rows : list (list string)) : string :=
  match rows with
  | [] => ""
  | r :: rs => writerow r +:+ writerows rs
  end.

(** ** Text files opened with [newline=''] *)

Definition ends_line (c : ascii) (rest : string) : bool :=
  Ascii.eqb c LF
  || (Ascii.eqb c CR
      && match rest with
         | String d _ => negb (Ascii.eqb d LF)
         | EmptyString => true
         end).

(** Iterating over the file: lines end after LF, CR LF or a lone CR, and
    keep their terminators. *)
Fixpoint readlines (text : string) : list string :=
  match text with
  | EmptyString => []
  | String c t =>
      if ends_line c t then String c "" :: readlines t
      else match readlines t with
           | [] => [String c ""]
           | l :: ls => String c l :: ls
           end
  end.

(** ** Reader *)

Inductive ParserState :=
  | START_RECORD | START_FIELD | IN_FIELD | IN_QUOTED_FIELD
  | QUOTE_IN_QUOTED_FIELD | EAT_CRNL.

Record ReaderObj := {
  state : ParserState;
  field : string;
  fields : list string
}.

(** What [parse_process_char] is called with: a character of the line,
    or the end-of-line mark fed after the last one. *)
Inductive sym := Ch (c : ascii) | EOL.

Definition parse_reset : ReaderObj :=
  {| state := START_RECORD; field := ""; fields := [] |}.

Definition set_state (r : ReaderObj) (s : ParserState) : ReaderObj :=
  {| state := s; field := field r; fields := fields r |}.

Definition parse_save_field (r : ReaderObj) : ReaderObj :=
  {| state := state r; field := ""; fields := fields r ++ [field r] |}.

(** [None] stands for [_csv.Error]. *)
Definition parse_add_char (r : ReaderObj) (c : ascii) : option ReaderObj :=
  if (field_limit <=? len (field r))%N then None
  else Some {| state := state r;
               field := field r +:+ String c "";
               fields := fields r |}.

Definition is_nl (c : ascii) : bool := Ascii.eqb c LF || Ascii.eqb c CR.

Definition start_field (r : ReaderObj) (x : sym) : option ReaderObj :=
  match x with
  | EOL => Some (set_state (parse_save_field r) START_RECORD)
  | Ch c =>
      if is_nl c then Some (set_state (parse_save_field r) EAT_CRNL)
      else if Ascii.eqb c quotechar then Some (set_state r IN_QUOTED_FIELD)
      else if Ascii.eqb c delimiter then Some (parse_save_field r)
      else r' ← parse_add_char r c; Some (set_state r' IN_FIELD)
  end.

Definition parse_process_char (r : ReaderObj) (x : sym) : option ReaderObj :=
  match state r with
  | START_RECORD =>
      match x with
      | EOL => Some r
      | Ch c =>
          if is_nl c then Some (set_state r EAT_CRNL)
          else start_field (set_state r START_FIELD) x
      end
  | START_FIELD => start_field r x
  | IN_FIELD =>
      match x with
      | EOL => Some (set_state (parse_save_field r) START_RECORD)
      | Ch c =>
          if is_nl c then Some (set_state (parse_save_field r) EAT_CRNL)
          else if Ascii.eqb c delimiter
               then Some (set_state (parse_save_field r) START_FIELD)
          else parse_add_char r c
      end
  | IN_QUOTED_FIELD =>
      match x with
      | EOL => Some r
      | Ch c =>
          if Ascii.eqb c quotechar then Some (set_state r QUOTE_IN_QUOTED_FIELD)
          else parse_add_char r c
      end
  | QUOTE_IN_QUOTED_FIELD =>
      match x with
      | EOL => Some (set_state (parse_save_field r) START_RECORD)
      | Ch c =>
          if Ascii.eqb c quotechar
          then r' ← parse_add_char r c; Some (set_state r' IN_QUOTED_FIELD)
          else if Ascii.eqb c delimiter
               then Some (set_state (parse_save_field r) START_FIELD)
          else if is_nl c then Some (set_state (parse_save_field r) EAT_CRNL)
          else r' ← parse_add_char r c; Some (set_state r' IN_FIELD)
      end
  | EAT_CRNL =>
      match x with
      | EOL => Some (set_state r START_RECORD)
      | Ch c => if is_nl c then Some r else None
      end
  end.

(** The characters of one line, in order. *)
Fixpoint feed (r : ReaderObj) (line : string) : option ReaderObj :=
  match line with
  | EmptyString => Some r
  | String c l => r' ← parse_process_char r (Ch c); feed r' l
  end.

Definition state_eqb (a b : ParserState) : bool :=
  match a, b with
  | START_RECORD, START_RECORD | START_FIELD, START_FIELD
  | IN_FIELD, IN_FIELD | IN_QUOTED_FIELD, IN_QUOTED_FIELD
  | QUOTE_IN_QUOTED_FIELD, QUOTE_IN_QUOTED_FIELD | EAT_CRNL, EAT_CRNL => true
  | _, _ => false
  end.

(** [Reader_iternext], called until the lines are exhausted
    ([list(csv.reader(file))]): a record is complete when a line ends in
    state [START_RECORD]; when the input ends inside a record, the
    pending field is saved if it is not empty or a quote is open. *)
Definition end_of_input (r : ReaderObj) : option (list (list string)) :=
  if (0 <? len (field r))%N || state_eqb (state r) IN_QUOTED_FIELD
  then Some [fields (parse_save_field r)]
  else Some [].

Fixpoint reader_loop (r : ReaderObj) (lines : list string)
    : option (list (list string)) :=
  match lines with
  | [] => end_of_input r
  | line :: rest =>
      r1 ← feed r line;
      r2 ← parse_process_char r1 EOL;
      if state_eqb (state r2) START_RECORD
      then recs ← reader_loop parse_reset rest; Some (fields r2 :: recs)
      else reader_loop r2 rest
  end.

(** [list(csv.reader(open(path, newline='')))] on a file holding [text]. *)
Definition reader (text : string) : option (list (list string)) :=
  reader_loop parse_reset (readlines text).

(** The same reader as one pass over the text, the end-of-line mark
    being fed wherever [readlines] ends a line ([run_readlines] below
    relates the two). *)
Fixpoint run (r : ReaderObj) (text : string) : option (list (list string)) :=
  match text with
  | EmptyString => end_of_input r
  | String c t =>
      r1 ← parse_process_char r (Ch c);
      if ends_line c t || is_empty t
      then r2 ← parse_process_char r1 EOL;
           if state_eqb (state r2) START_RECORD
           then recs ← run parse_reset t; Some (fields r2 :: recs)
           else run r2 t
      else run r1 t
  end.

(** The text of one field and of one row, as [writerow] produces them. *)
Definition fmt (f : string) : string :=
  if join_scan f
  then String quotechar (join_copy f +:+ String quotechar "")
  else f.

Fixpoint tail_text (fs : list string) : string :=
  match fs with
  | [] => ""
  | f :: fs' => String delimiter (fmt f +:+ tail_text fs')
  end.

(** No field of the row is longer than the reader's field size limit. *)
Definition fields_fit (row : list string) : Prop :=
  Forall (λ f, (len f <= field_limit)%N) row.

Definition row_text (row : list string) : string :=
  match row with
  | [] => lineterminator
  | f :: more =>
      if is_empty (fmt f +:+ tail_text more)
      then String quotechar (String quotechar lineterminator)
      else fmt f +:+ tail_text more +:+ lineterminator
  end.

End Csv.

(* ===================================================================== *)
(** * Effects: requests, sleeping, console, files

    A run of a script is a function of the world it starts in: what the
    network answers to the n-th request, and the files on disk.  It yields
    the events it performed, in order, the world it leaves, and either a
    value or the Python exception that ended it. *)
(* ===================================================================== *)

Module Rt.

(** [time.sleep(n)], or [time.sleep(random.uniform(lo, hi))]. *)
Inductive delay := Seconds (n : Z) | Uniform (lo hi : Z).

(** [HTTPError] is a subclass of [RequestException]: a handler for the
    latter catches both. *)
Inductive exn :=
  | RequestException (e : string)
  | HTTPError (status : Z)
  | KeyError (k : string)
  | TypeError
  | AttributeError
  | FileNotFoundError (path : string)
  | EmptyDataError
  | IndexError
  | NameError
  | ValueError (e : string).

Inductive event :=
  | Get (url : string)                        (* [requests.get(url)] *)
  | Sleep (d : delay)
  | Print (s : string)                        (* [print(s)] *)
  | PrintExn (s : string) (e : exn)           (* [print(f"{s}{e}")] *)
  | Prompt (s : string)                       (* [input(s)] asks *)
  | PrintRow (color : string) (data : list string).
                                              (* [print(f"{color}{data}...")] *)

(** What [requests.get] meets: an exception of the [RequestException]
    family (no connection, time-out, ...), or a response with its status
    code and its document. *)
Inductive response (page : Type) :=
  | Unreachable (e : string)
  | Reply (status : Z) (body : page).
Arguments Unreachable {page} e.
Arguments Reply {page} status body.

Record world (page file : Type) := {
  net : nat → string → response page;   (* answer to the n-th request *)
  sent : nat;                           (* requests made so far *)
  files : gmap string file
}.
Arguments net {page file} w n url.
Arguments sent {page file} w.
Arguments files {page file} w.
Arguments Build_world {page file} net sent files.

Inductive outcome (A : Type) := Ret (a : A) | Raise (e : exn).
Arguments Ret {A} a.
Arguments Raise {A} e.

Record result (W A : Type) := {
  events : list event;
  final : W;
  out : outcome A
}.
Arguments events {W A} r.
Arguments final {W A} r.
Arguments out {W A} r.
Arguments Build_result {W A} events final out.

Section Monad.
Context {page file : Type}.
Abbreviation W := (world page file).

Definition M (A : Type) : Type := W → result W A.

Definition ret {A} (a : A) : M A :=
  λ w, {| events := []; final := w; out := Ret a |}.

Definition bind {A B} (m : M A) (k : A → M B) : M B :=
  λ w,
    let r := m w in
    match out r with
    | Ret a =>
        let r' := k a (final r) in
        {| events := events r ++ events r';
           final := final r'; out := out r' |}
    | Raise e => {| events := events r; final := final r; out := Raise e |}
    end.

Definition raise {A} (e : exn) : M A :=
  λ w, {| events := []; final := w; out := Raise e |}.

(** [try: m  except ...: h]: the handler says which exceptions it
    catches. *)
Definition try_except {A} (m : M A) (h : exn → option (M A)) : M A :=
  λ w,
    let r := m w in
    match out r with
    | Ret a => r
    | Raise e =>
        match h e with
        | Some k =>
            let r' := k (final r) in
            {| events := events r ++ events r';
               final := final r'; out := out r' |}
        | None => r
        end
    end.

Definition emit (e : event) : M unit :=
  λ w, {| events := [e]; final := w; out := Ret tt |}.

Definition print (s : string) : M unit := emit (Print s).

(** [input(prompt)], answered by [answer]. *)
Definition input (prompt answer : string) : M string :=
  bind (emit (Prompt prompt)) (λ _, ret answer).
Definition sleep (d : delay) : M unit := emit (Sleep d).

(** [requests.get(url)]. *)
Definition requests_get (url : string) : M (Z * page) :=
  λ w,
    let w' := {| net := net w; sent := S (sent w); files := files w |} in
    {| events := [Get url];
       final := w';
       out := match net w (sent w) url with
              | Unreachable e => Raise (RequestException e)
              | Reply st body => Ret (st, body)
              end |}.

(** [response.raise_for_status()]: an [HTTPError] for the codes 400 to
    599.  Its text, which [requests] makes of the code, the reason phrase
    and the address of the response, is not modelled: a message that shows
    the exception is recorded as [PrintExn]. *)
Definition raise_for_status (status : Z) : M unit :=
  if (400 <=? status) && (status <? 600)
  then raise (HTTPError status)
  else ret tt.

Definition path_exists (path : string) : M bool :=
  λ w, {| events := []; final := w;
          out := Ret (bool_decide (is_Some (files w !! path))) |}.

Definition read_file (path : string) : M (option file) :=
  λ w, {| events := []; final := w; out := Ret (files w !! path) |}.

Definition write_file (path : string) (content : file) : M unit :=
  λ w, {| events := [];
          final := {| net := net w; sent := sent w;
                      files := <[path := content]> (files w) |};
          out := Ret tt |}.

(** [for x in xs: body(x)], the loop variables being threaded through. *)
Fixpoint for_each {A S} (xs : list A) (body : A → S → M S) (s : S) : M S :=
  match xs with
  | [] => ret s
  | x :: xs' => bind (body x s) (for_each xs' body)
  end.

End Monad.

(** Does [requests.get] followed by [raise_for_status] raise on this
    answer? *)
Definition refused {page} (r : response page) : bool :=
  match r with
  | Unreachable _ => true
  | Reply status _ => (400 <=? status) && (status <? 600)
  end.

(** Counting the requests and the sleeps of a run. *)
Definition is_get (e : event) : bool :=
  match e with Get _ => true | _ => false end.
Definition is_sleep (e : event) : bool :=
  match e with Sleep _ => true | _ => false end.
Definition gets (t : list event) : nat := length (filter is_get t).
Definition sleeps (t : list event) : nat := length (filter is_sleep t).

(** The requests of a run, in order. *)
Definition urls (t : list event) : list string :=
  omap (λ e, match e with Get url => Some url | _ => None end) t.

(** Is every request of the run separated from the one before it by a
    sleep?  [pending] says that a request has been made since the last
    sleep. *)
Fixpoint separated (pending : bool) (t : list event) : bool :=
  match t with
  | [] => true
  | Get _ :: t' => negb pending && separated true t'
  | Sleep _ :: t' => separated false t'
  | _ :: t' => separated pending t'
  end.

(** At most [n] requests and no sleep. *)
Definition quiet (n : nat) (t : list event) : Prop :=
  (gets t ≤ n)%nat ∧ sleeps t = 0%nat.

(** A stretch of a run that leaves no request waiting for its sleep:
    whatever follows it is separated exactly when it is on its own. *)
Definition neutral (t : list event) : Prop :=
  ∀ rest, separated false (t ++ rest) = separated false rest.

(** The world after one request. *)
Definition asked {page file} (w : world page file) : world page file :=
  {| net := net w; sent := S (sent w); files := files w |}.

(** The network and the files are the same in both worlds. *)
Definition same_disk {page file} (w w' : world page file) : Prop :=
  net w' = net w ∧ files w' = files w.

#[global] Instance M_ret {page file} : MRet (@M page file) := @ret page file.
#[global] Instance M_bind {page file} : MBind (@M page file) :=
  λ A B k m, bind m k.

End Rt.

(* ===================================================================== *)
(** * Spotrac pages, as the rookie contract scripts query them *)
(* ===================================================================== *)

Module Spotrac.
Import Py Rt.

(** A [tr] of the listing table. *)
Record tr := {
  (** Text of [row.find('td', class_='contract-type')], if there is one. *)
  contract_type_cell : option string;
  (** [col.get_text(strip=True)] for [col] in [row.find_all('td')]. *)
  columns : list string;
  (** [row.find('a', class_='link')], and its [href] if it has one. *)
  player_link : option (option string)
}.

(** A [div] of class [col-md-12 text-white] of a player page. *)
Record div := {
  div_text : string;                 (* [div.get_text()] *)
  (** [get_text(strip=True)] of [div.find('span', class_='text-yellow')]. *)
  draft_span : option string
}.

(** A document, seen through the queries the scripts make. *)
Record page := {
  table : option (list tr);          (* [soup.find('table')] and its rows *)
  divs : list div
}.

(** The scripts write their CSV files as text. *)
Abbreviation M := (@Rt.M page string).

Definition headers : list string :=
  ["YR_1"; "Rank"; "Player"; "Pos"; "Team Signed With"; "Age At Signing";
   "Yrs"; "Value"; "AAV"; "Practical GTD"; "Type"].

Definition green : string := String ESC "[92m".
Definition yellow : string := String ESC "[93m".
Definition red : string := String ESC "[91m".

(** The loop of [scrape_draft_year_from_spotrac] over the [div]s. *)
Fixpoint find_draft_year (ds : list div) : option string :=
  match ds with
  | [] => None
  | d :: ds' =>
      if contains "Drafted:" (div_text d)
      then match draft_span d with
           | Some draft_info => Some (strip (last_segment COMMA draft_info))
           | None => find_draft_year ds'
           end
      else find_draft_year ds'
  end.

Definition scrape_draft_year_from_spotrac (player_url : string)
    : M (option string) :=
  try_except
    (player_response ← requests_get player_url;
     raise_for_status player_response.1;;
     ret (find_draft_year (divs player_response.2)))
    (λ e, match e with
          | RequestException _ | HTTPError _ =>
              Some (emit (PrintExn "Error fetching player data from URL: " e);;
                    ret None)
          | _ => None
          end).

Definition print_contract_with_color (data : list string)
    (contract_type : string) : M unit :=
  if contains "rookie maximum extension" (replace_char "-" " " contract_type)
  then emit (PrintRow green data)
  else if contains "designated rookie extension" contract_type
  then emit (PrintRow yellow data)
  else if contains "rookie extension" contract_type
  then emit (PrintRow red data)
  else emit (PrintRow "" data).

(** Is the row a rookie contract?  Gives the text of its type cell. *)
Definition rookie_row (row : tr) : option string :=
  match contract_type_cell row with
  | Some text => if contains "rookie" (lower text) then Some text else None
  | None => None
  end.

(** The row's data: its cells, with the draft year in front when the row
    links to a player. *)
Definition row_data (row : tr) : M (list string) :=
  match player_link row with
  | Some (Some player_url) =>
      let full_player_url :=
        if startswith "/" player_url
        then "https://www.spotrac.com" +:+ player_url
        else player_url in
      draft_year ← scrape_draft_year_from_spotrac full_player_url;
      ret (match draft_year with
           | Some y => if is_empty y then "N/A" else y
           | None => "N/A"
           end :: columns row)
  | Some None => raise (KeyError "href")
  | None => ret (columns row)
  end.

Definition rows_of (p : page) : list tr :=
  match table p with Some rows => rows | None => [] end.

(** The record a rookie row gives: its cells, after a draft year (or
    [N/A]) when the row links to a player. *)
Definition record_of (row : tr) (data : list string) : Prop :=
  is_Some (rookie_row row)
  ∧ match player_link row with
    | None => data = columns row
    | Some _ => ∃ y, y ≠ "" ∧ data = y :: columns row
    end.


(** The row is in a table of a document the network serves. *)
Definition served (w : Rt.world page string) (row : tr) : Prop :=
  ∃ n url st body, net w n url = Reply st body ∧ row ∈ rows_of body.

(** [csv.writer(file)], [writerow(headers)], [writerows(data)] on a file
    opened with [mode='w', newline='']. *)
Definition write_csv (filename : string) (data : list (list string)) : M unit :=
  write_file filename (Csv.writerow headers +:+ Csv.writerows data).

End Spotrac.

(* ===================================================================== *)
(** * [year_to_year_download.py] *)
(* ===================================================================== *)

Module YearToYear.
Import Py Rt Spotrac.

Definition listing_url (year : Z) : string :=
  "https://www.spotrac.com/nba/contracts/extensions/_/year/"
  +:+ str_int year +:+ "/sort/value".

Definition season (year : Z) : string :=
  str_int year +:+ "-" +:+ str_int (year + 1).

(** The body of the loop over the rows. *)
Definition process_row (row : tr) (contract_data : list (list string))
    : M (list (list string)) :=
  match rookie_row row with
  | Some text =>
      data ← row_data row;
      print_contract_with_color data (lower (strip text));;
      ret (contract_data ++ [data])
  | None => ret contract_data
  end.

(** [fetch_extension_data(year, delay)].  The only statements of the
    [try] block that raise a [RequestException] are its first two, so the
    handler always finds [contract_data] empty. *)
Definition fetch_extension_data (year : Z) (delay : Z)
    : M (list (list string)) :=
  try_except
    (response ← requests_get (listing_url year);
     raise_for_status response.1;;
     let rows := rows_of response.2 in
     print ("--- Rookie Contract Extensions for " +:+ season year
            +:+ " Season ---");;
     emit (PrintRow "" headers);;
     contract_data ←
       match rows with
       | [] =>
           print ("No rookie contract extensions for " +:+ season year
                  +:+ " season.");;
           ret []
       | _ => for_each rows process_row []
       end;
     print "";;
     sleep (Seconds delay);;
     ret contract_data)
    (λ e, match e with
          | RequestException _ | HTTPError _ =>
              Some (emit (PrintExn "Error fetching data from URL: " e);;
                    ret [])
          | _ => None
          end).

(** The name of the output file. *)
Definition csv_name (start_year end_year : Z) : string :=
  "rooks" +:+ str_int start_year +:+ "-" +:+ str_int end_year +:+ ".csv".

Definition create_csv (data : list (list string)) (start_year end_year : Z)
    : M unit :=
  let filename := csv_name start_year end_year in
  write_csv filename data;;
  print ("Data has been written to " +:+ filename).

(** The loop of [main] over the years. *)
Definition fetch_year (year : Z) (all_data : list (list string))
    : M (list (list string)) :=
  year_data ← fetch_extension_data year 2;
  ret (match year_data with [] => all_data | _ => all_data ++ year_data end).

(** The events of one year of a run that goes on: the request for the
    listing, then either the report of its failure, or the year's other
    requests and messages and, last, the only sleep of the year. *)
Definition year_segment (year : Z) (seg : list event) : Prop :=
  ∃ rest,
    seg = Get (listing_url year) :: rest
    ∧ ((∃ e, rest = [PrintExn "Error fetching data from URL: " e])
       ∨ (∃ pre, rest = pre ++ [Sleep (Seconds 2)] ∧ sleeps pre = 0%nat)).

(** [main()], the two arguments being what the user types at the two
    prompts (the second prompt is only reached when the first answer is
    an integer). *)
Definition main (answer1 answer2 : string) : M unit :=
  a1 ← input "Enter the start year (e.g., 2013): " answer1;
  match int a1 with
  | None => print "Please enter valid years."
  | Some start_year =>
      a2 ← input "Enter the end year (e.g., 2023): " answer2;
      match int a2 with
      | None => print "Please enter valid years."
      | Some end_year =>
          if start_year >? end_year
          then print "Start year cannot be greater than end year. Please try again."
          else
            print "";;
            all_data ← for_each (seqZ start_year (end_year + 1 - start_year))
                                fetch_year [];
            create_csv all_data start_year end_year
      end
  end.

End YearToYear.

(* ===================================================================== *)
(** * [alltime_rookie_contracts.py] *)
(* ===================================================================== *)

Module AllTime.
Import Py Rt Spotrac.

Definition url : string :=
  "https://www.spotrac.com/nba/contracts/extensions/_/year/all-time/sort/type".

Definition process_row (delay : Z) (row : tr)
    (contract_data : list (list string)) : M (list (list string)) :=
  match rookie_row row with
  | Some text =>
      data ← row_data row;
      print_contract_with_color data (lower (strip text));;
      sleep (Seconds delay);;
      ret (contract_data ++ [data])
  | None => ret contract_data
  end.

Definition fetch_all_time_extension_data (delay : Z)
    : M (list (list string)) :=
  try_except
    (response ← requests_get url;
     raise_for_status response.1;;
     let rows := rows_of response.2 in
     print ("--- All-Time Rookie Contract Extensions ---" +:+ String LF "");;
     emit (PrintRow "" headers);;
     print "";;
     contract_data ← for_each rows (process_row delay) [];
     match contract_data with
     | [] => print "No rookie contract extensions found for the all-time period."
     | _ => ret tt
     end;;
     ret contract_data)
    (λ e, match e with
          | RequestException _ | HTTPError _ =>
              Some (emit (PrintExn "Error fetching data from URL: " e);;
                    ret [])
          | _ => None
          end).

Definition create_csv (data : list (list string)) (filename : string)
    : M unit :=
  write_csv filename data;;
  print ("Data has been written to " +:+ filename).

Definition main : M unit :=
  all_data ← fetch_all_time_extension_data 2;
  create_csv all_data "rooks_all_time.csv".

End AllTime.

(* ===================================================================== *)
(** * [hw2-download.py] *)
(* ===================================================================== *)

Module Hw2.
Import Py Rt.

(** A [tr] of the play-by-play table. *)
Record tr := {
  (** [text] of [row.find('th', {'data-stat': 'inning'})]. *)
  inning_cell : option string;
  (** [td.text.strip()] for [td] in [row.find_all('td')]. *)
  tds : list string
}.

Record page := {
  (** [a['href']] for the links whose string is [Boxscore]. *)
  boxscore_links : list string;
  (** The first table with [play_by_play] in its id, in the first comment
      that has one. *)
  play_by_play : option (list tr)
}.

Abbreviation M := (@Rt.M page string).

Definition base_url : string := "https://www.baseball-reference.com".
Definition league_schedule_url : string :=
  "https://www.baseball-reference.com/leagues/majors/2023-schedule.shtml".
Definition processed_file : string := "processed_games.txt".

Definition get_game_urls (url : string) : M (list string) :=
  response ← requests_get url;
  ret ((λ href, base_url +:+ href) <$> boxscore_links response.2).

Definition scrape_single_game (url : string) : M (option (list tr)) :=
  response ← requests_get url;
  ret (play_by_play response.2).

(** [re.sub] of a closing parenthesis and whatever follows it on its
    line by a closing parenthesis alone: on every line, what follows the
    first closing parenthesis is dropped. *)
Fixpoint clean_pitch_code_go (dropping : bool) (s : string) : string :=
  match s with
  | EmptyString => EmptyString
  | String c s' =>
      if Ascii.eqb c LF then String c (clean_pitch_code_go false s')
      else if dropping then clean_pitch_code_go true s'
      else String c (clean_pitch_code_go (Ascii.eqb c ")"%char) s')
  end.
Definition clean_pitch_code (pitch_code : string) : string :=
  clean_pitch_code_go false pitch_code.

(** [re.sub] of every run of characters above 127 by nothing. *)
Fixpoint ascii_only (s : string) : string :=
  match s with
  | EmptyString => EmptyString
  | String c s' =>
      if (N_of_ascii c <=? 127)%N then String c (ascii_only s')
      else ascii_only s'
  end.

Definition col (cols : list string) (i : nat) : string := cols !!! i.

(** A play, as the dict [extract_inning_info] builds. *)
Abbreviation play := (gmap string string).

Definition make_play (inning : string) (cleaned_cols : list string) : play :=
  list_to_map
    [("Inning", inning);
     ("Score", col cleaned_cols 0);
     ("Outs", col cleaned_cols 1);
     ("Runners", col cleaned_cols 2);
     ("Pitch Code", clean_pitch_code (col cleaned_cols 3));
     ("Runs Scored", col cleaned_cols 4);
     ("Team", col cleaned_cols 5);
     ("Batter", col cleaned_cols 6);
     ("Pitcher", col cleaned_cols 7);
     ("Change WP", col cleaned_cols 8);
     ("Current WP", col cleaned_cols 9);
     ("Description",
      if (10 <? length cleaned_cols)%nat then col cleaned_cols 10 else "")].

Fixpoint extract_inning_info_go (inning : string) (rows : list tr)
    : list play :=
  match rows with
  | [] => []
  | row :: rows' =>
      let inning :=
        match inning_cell row with
        | Some text => strip text
        | None => inning
        end in
      if (10 <=? length (tds row))%nat
      then make_play inning (ascii_only <$> tds row)
           :: extract_inning_info_go inning rows'
      else extract_inning_info_go inning rows'
  end.
Definition extract_inning_info (table : list tr) : list play :=
  extract_inning_info_go "" table.

Definition headers : list string :=
  ["Index"; "Inning"; "Score"; "Outs"; "Runners"; "Pitch Code";
   "Runs Scored"; "Team"; "Batter"; "Pitcher"; "Change WP"; "Current WP";
   "Description"].

(** [DictWriter._dict_to_list] with [extrasaction='raise'] and
    [restval='']. *)
Definition dict_to_list (rowdict : play) : option (list string) :=
  if forallb (λ k, bool_decide (k ∈ headers)) (map_to_list rowdict).*1
  then Some ((λ key, default "" (rowdict !! key)) <$> headers)
  else None.

(** [{"Index": idx, **row}]: a key [Index] of [row] wins. *)
Definition row_with_index (idx : Z) (row : play) : play :=
  row ∪ {[ "Index" := str_int idx ]}.

Definition append_file (path : string) (text : string) : M unit :=
  old ← read_file path;
  write_file path (default "" old +:+ text).

Fixpoint write_rows (filename : string) (idx : Z) (data : list play)
    : M unit :=
  match data with
  | [] => ret tt
  | row :: data' =>
      match dict_to_list (row_with_index idx row) with
      | Some fields =>
          append_file filename (Csv.writerow fields);;
          write_rows filename (idx + 1) data'
      | None => raise (ValueError "dict contains fields not in fieldnames")
      end
  end.

(** [write_to_csv(data, filename)]: the file is opened with [mode='w',
    newline='']. *)
Definition write_to_csv (data : list play) (filename : string) : M unit :=
  write_file filename (Csv.writerow headers);;
  write_rows filename 1 data.

(** [str.splitlines()], on a text read with universal newlines (CR LF
    and CR arrive as LF). *)
Definition is_linebreak (c : ascii) : bool :=
  let n := N_of_ascii c in
  ((10 <=? n) && (n <=? 13) || (28 <=? n) && (n <=? 30) || (n =? 133))%N.

Fixpoint translate (after_cr : bool) (s : string) : string :=
  match s with
  | EmptyString => EmptyString
  | String c s' =>
      if Ascii.eqb c CR then String LF (translate true s')
      else if Ascii.eqb c LF && after_cr then translate false s'
      else String c (translate false s')
  end.
Definition universal_newlines (s : string) : string := translate false s.

Fixpoint splitlines_go (cur : string) (s : string) : list string :=
  match s with
  | EmptyString => if is_empty cur then [] else [cur]
  | String c s' =>
      if is_linebreak c then cur :: splitlines_go "" s'
      else splitlines_go (cur +:+ String c "") s'
  end.
Definition splitlines (s : string) : list string := splitlines_go "" s.

Definition is_url_processed (url : string) : M bool :=
  content ← read_file processed_file;
  match content with
  | Some text =>
      ret (bool_decide (url ∈ splitlines (universal_newlines text)))
  | None => ret false                      (* [FileNotFoundError] *)
  end.

Definition mark_url_as_processed (url : string) : M unit :=
  append_file processed_file (url +:+ String LF "").

(** The body of the loop of [scrape_all_games]. *)
Definition scrape_game (game : Z * string) (all_play_data : list play)
    : M (list play) :=
  let i := game.1 in
  let game_url := game.2 in
  processed ← is_url_processed game_url;
  if processed : bool
  then print ("Skipping already processed game: " +:+ game_url);;
       ret all_play_data
  else
    print (str_int i +:+ ". Scraping play-by-play data from " +:+ game_url);;
    table ← scrape_single_game game_url;
    all_play_data ←
      match table with
      | Some t =>
          match extract_inning_info t with
          | [] =>
              print ("No play-by-play data found for " +:+ game_url);;
              ret all_play_data
          | play_data =>
              mark_url_as_processed game_url;;
              ret (all_play_data ++ play_data)
          end
      | None =>
          print ("No play-by-play data found for " +:+ game_url);;
          ret all_play_data
      end;
    sleep (Seconds 5);;
    ret all_play_data.

Definition enumerate {A} (start : Z) (xs : list A) : list (Z * A) :=
  zip (seqZ start (Z.of_nat (length xs))) xs.

Definition scrape_all_games (league_schedule_url : string) : M unit :=
  game_urls ← get_game_urls league_schedule_url;
  all_play_data ← for_each (enumerate 1 game_urls) scrape_game [];
  match all_play_data with
  | [] => print "No play-by-play data to write."
  | _ => write_to_csv all_play_data "play_by_play.csv"
  end.

(** The script. *)
Definition main : M unit := scrape_all_games league_schedule_url.

(** A checkpoint file as the script itself leaves it: empty, or ending
    with a line feed; and a URL without a line break in it. *)
Definition terminated (text : string) : Prop :=
  text = "" ∨ ∃ t, text = t +:+ String LF "".

Fixpoint one_line (url : string) : bool :=
  match url with
  | EmptyString => true
  | String c url' => negb (is_linebreak c) && one_line url'
  end.

(** The values of a play under the twelve columns that follow [Index], and
    the records [write_to_csv] is expected to leave in the file for a list
    of plays: each play's values, preceded by its number. *)
Definition values (p : play) : list string :=
  (λ key, default "" (p !! key)) <$> tail headers.

Definition numbered (start : Z) (data : list play) : list (list string) :=
  (λ ip, str_int ip.1 :: values ip.2) <$> enumerate start data.

End Hw2.

(* ===================================================================== *)
(** * pandas, at the level of records

    The scripts that use pandas read and write whole CSV files with
    [pd.read_csv] and [DataFrame.to_csv].  Such a file is modelled by the
    records it holds, header first; the text pandas writes for a record is
    taken to be read back as the same record. *)
(* ===================================================================== *)

Module Pandas.
Import Py.

Abbreviation table := (list (list string)).

(** The texts [pd.read_csv] reads as missing values. *)
Definition na_values : list string :=
  [""; "#N/A"; "#N/A N/A"; "#NA"; "-1.#IND"; "-1.#QNAN"; "-NaN"; "-nan";
   "1.#IND"; "1.#QNAN"; "<NA>"; "N/A"; "NA"; "NULL"; "NaN"; "None"; "n/a";
   "nan"; "null"].

Definition is_na (s : string) : bool := bool_decide (s ∈ na_values).

(** A value of a data frame read from a file: a text, a missing value, or
    the number or truth value a text was turned into. *)
Inductive cell := Text (s : string) | NaN | Scalar (s : string).

(** pandas' type inference, which the model does not fix: which texts
    it takes for numbers or truth values, and what [str] of the value it
    makes of them is.  A column becomes a column of such values when
    every text in it that is not missing is one of them. *)
Record inference := {
  scalar_like : string → bool;
  scalar_str : string → string
}.

Record DataFrame := { columns : list string; data : list (list string) }.

(** [pd.read_csv(path)] on the records of the file; [None] stands for
    [EmptyDataError]. *)
Definition read_csv (t : table) : option DataFrame :=
  match t with
  | [] => None
  | header :: records => Some {| columns := header; data := records |}
  end.

Fixpoint index_of (name : string) (names : list string) : option nat :=
  match names with
  | [] => None
  | n :: names' =>
      if String.eqb n name then Some 0%nat else S <$> index_of name names'
  end.

Definition infer_column (inf : inference) (raw : list string) : list cell :=
  if forallb (λ s, is_na s || scalar_like inf s) raw
  then (λ s, if is_na s then NaN else Scalar s) <$> raw
  else (λ s, if is_na s then NaN else Text s) <$> raw.

(** [df[name].values]; [None] stands for [KeyError]. *)
Definition column (inf : inference) (df : DataFrame) (name : string)
    : option (list cell) :=
  i ← index_of name (columns df);
  Some (infer_column inf ((λ r, default "" (r !! i)) <$> data df)).

(** [f"{value}"]. *)
Definition str (inf : inference) (c : cell) : string :=
  match c with
  | Text s => s
  | NaN => "nan"
  | Scalar s => scalar_str inf s
  end.

Definition cell_is (name : string) (c : cell) : bool :=
  match c with
  | Text s => String.eqb s name
  | _ => false
  end.

(** [name in values]. *)
Definition isin (name : string) (values : list cell) : bool :=
  existsb (cell_is name) values.

End Pandas.

(* ===================================================================== *)
(** * [cbb_stat_scraper.py] *)
(* ===================================================================== *)

Module Cbb.
Import Py Rt Pandas.

Record anchor := {
  href : option string;              (* [link.get('href')] *)
  text : string                      (* [link.get_text()] *)
}.

(** [table#players_per_game]. *)
Record stats_table := {
  (** [th.get('data-stat')] for the cells of its [thead], if it has one. *)
  thead : option (list (option string));
  (** [td.get_text()] for the cells of the row [players_per_game.Career]. *)
  career_row : option (list string)
}.

Record page := {
  anchors : list anchor;             (* [soup.find_all('a')] *)
  (** [div#all_players_per_game]: for each of its season rows, the text
      of the cell [pos], if the row has one. *)
  players_per_game_div : option (list (option string));
  players_per_game : option stats_table
}.

Abbreviation M := (@Rt.M page table).

Definition input_csv : string := "player_names_sorted.csv".
Definition output_csv : string := "player_stats.csv".
Definition processed_players_csv : string := "processed_players.csv".

Definition green (s : string) : string :=
  String ESC "[92m" +:+ s +:+ String ESC "[0m".
Definition red (s : string) : string :=
  String ESC "[91m" +:+ s +:+ String ESC "[0m".

Definition name_key (s : string) : string :=
  strip (remove_char "." (lower s)).

Fixpoint find_profile (first_name last_name : string) (links : list anchor)
    : option string :=
  match links with
  | [] => None
  | link :: links' =>
      let h := lower (default "" (href link)) in
      let t := strip (remove_char "." (lower (text link))) in
      if (contains last_name h && contains first_name h)
         || (contains last_name t && contains first_name t)
      then Some ("https://www.sports-reference.com"
                 +:+ default "None" (href link))
      else find_profile first_name last_name links'
  end.

Definition search_player_profile (soup : page) (first_name last_name : string)
    : M (option string) :=
  let first_name := name_key first_name in
  let last_name := name_key last_name in
  match find_profile first_name last_name (anchors soup) with
  | Some profile_url =>
      print (green ("Found profile for " +:+ capitalize first_name +:+ " "
                    +:+ capitalize last_name +:+ ": " +:+ profile_url));;
      ret (Some profile_url)
  | None =>
      print (red ("Profile for " +:+ capitalize first_name +:+ " "
                  +:+ capitalize last_name +:+ " not found."));;
      ret None
  end.

Definition extract_position_and_seasons (soup : page) : M (string * Z) :=
  match players_per_game_div soup with
  | None => print "Player stats div not found.";; ret ("Unknown", 0)
  | Some [] => print "No rows found for player stats.";; ret ("Unknown", 0)
  | Some (row0 :: rows) =>
      ret (default "Unknown" row0, Z.of_nat (length (row0 :: rows)))
  end.

(** [l.insert(i, x)]. *)
Definition list_insert_at {A} (i : nat) (x : A) (l : list A) : list A :=
  take i l ++ x :: drop i l.

Definition extract_career_stats (soup : page) : M (option (list string)) :=
  match players_per_game soup with
  | None => print "Per-game stats table not found.";; ret None
  | Some table =>
      match thead table with
      | None => raise AttributeError
      | Some headers =>
          let has_3p_pct := bool_decide (Some "fg3_pct" ∈ headers) in
          match career_row table with
          | None => print "Career row not found in the table.";; ret None
          | Some career_stats =>
              let career_stats :=
                if has_3p_pct then career_stats
                else list_insert_at 9 "NaN" career_stats in
              ret (Some ((λ stat, if is_empty (strip stat) then "N/A" else stat)
                         <$> career_stats))
          end
      end
  end.

Definition headers : list string :=
  ["Player"; "Seasons Played"; "Position"; "G"; "GS"; "MP"; "FG"; "FGA";
   "FG%"; "3P"; "3PA"; "3P%"; "2P"; "2PA"; "2P%"; "eFG%"; "FT"; "FTA";
   "FT%"; "ORB"; "DRB"; "TRB"; "AST"; "STL"; "BLK"; "TOV"; "PF"; "PTS"].

(** [DataFrame([record]).to_csv(f, header=False, index=False)] on a file
    opened with [open(path, 'a')]. *)
Definition append_record (path : string) (record : list string) : M unit :=
  old ← read_file path;
  write_file path (default [] old ++ [record]).

(** The row [save_player_data] builds. *)
Definition player_data (player_name : string) (seasons_played : Z)
    (position : string) (career_stats : list string) : list string :=
  let position := if is_empty (strip position) then "Unknown" else position in
  [player_name; str_int seasons_played; position]
  ++ filter (λ stat, stat ≠ "N/A") career_stats.

Definition save_player_data (player_name : string) (seasons_played : Z)
    (position : string) (career_stats : list string) (output_csv : string)
    (first_player : bool) : M unit :=
  (if first_player then write_file output_csv [headers] else ret tt);;
  append_record output_csv
    (player_data player_name seasons_played position career_stats).

Section Inference.
Context (inf : inference).

Definition is_player_processed (player_name processed_players_csv : string)
    : M bool :=
  content ← read_file processed_players_csv;
  match content with
  | Some t =>
      match read_csv t with
      | None => raise EmptyDataError
      | Some df =>
          match column inf df "Player" with
          | Some values => ret (isin player_name values)
          | None =>
              write_file processed_players_csv [["Player"]];;
              ret false
          end
      end
  | None => ret false
  end.

Definition mark_player_processed (player_name processed_players_csv : string)
    : M unit :=
  present ← path_exists processed_players_csv;
  (if present : bool then ret tt
   else write_file processed_players_csv [["Player"]]);;
  append_record processed_players_csv [player_name].

(** The variables the loop of [main] updates. *)
Record vars := {
  first_player : bool;
  current_letter : string;
  soup : option page
}.

Definition set_first_player (v : vars) (b : bool) : vars :=
  {| first_player := b; current_letter := current_letter v; soup := soup v |}.

(** What [main] does with a profile URL, in the special case and in the
    general one: the two blocks differ in the text of one message. *)
Definition scrape_profile (player_name profile_url no_stats : string)
    (v : vars) : M vars :=
  profile_response ← requests_get profile_url;
  if profile_response.1 =? 200
  then
    let profile_soup := profile_response.2 in
    ps ← extract_position_and_seasons profile_soup;
    career_stats ← extract_career_stats profile_soup;
    match career_stats with
    | Some stats =>
        save_player_data player_name ps.2 ps.1 stats output_csv
                         (first_player v);;
        mark_player_processed player_name processed_players_csv;;
        ret (set_first_player v false)
    | None => print no_stats;; ret v
    end
  else
    print ("Failed to retrieve profile page for " +:+ player_name
           +:+ ". Status code: " +:+ str_int profile_response.1);;
    ret v.

Definition larry_nance_url : string :=
  "https://www.sports-reference.com/cbb/players/larry-nance-2.html".

(** [row[name]] for the row [i] of the input. *)
Definition row_value (df : DataFrame) (name : string) (i : nat) : M cell :=
  match column inf df name with
  | Some values => ret (default NaN (values !! i))
  | None => raise (KeyError name)
  end.

(** The index page of a letter, when it is not the one at hand:
    [None] stands for the [continue] after a failed request. *)
Definition open_index (first_letter : string) (v : vars) : M (option vars) :=
  if String.eqb first_letter (current_letter v) then ret (Some v)
  else
    let url := "https://www.sports-reference.com/cbb/players/"
               +:+ first_letter +:+ "-index.html" in
    response ← requests_get url;
    if response.1 =? 200
    then print ("Successfully navigated to " +:+ url);;
         ret (Some {| first_player := first_player v;
                      current_letter := first_letter;
                      soup := Some response.2 |})
    else print ("Failed to navigate to " +:+ url +:+ ". Status code: "
                +:+ str_int response.1);;
         ret None.

(** The body of the loop of [main]. *)
Definition process_row (df : DataFrame) (i : nat) (v : vars) : M vars :=
  first_name ← row_value df "First Name" i;
  last_name ← row_value df "Last Name" i;
  let player_name := str inf first_name +:+ " " +:+ str inf last_name in
  if String.eqb player_name "Larry Nance"
  then
    print (green ("Found special case for Larry Nance: " +:+ larry_nance_url));;
    scrape_profile player_name larry_nance_url
                   "Could not extract career stats for Larry Nance." v
  else
    processed ← is_player_processed player_name processed_players_csv;
    if processed : bool
    then print ("Skipping " +:+ player_name +:+ ", already processed.");;
         ret v
    else
      match last_name with
      | Text (String c _) =>
          opened ← open_index (String (lower_char c) "") v;
          match opened with
          | None => ret v
          | Some v =>
              match soup v, first_name with
              | Some index_soup, Text first =>
                  let last := str inf last_name in
                  profile_url ← search_player_profile index_soup first last;
                  v ← match profile_url with
                      | Some url =>
                          scrape_profile player_name url
                            ("Could not extract career stats for "
                             +:+ player_name) v
                      | None =>
                          print (red ("Profile for " +:+ player_name
                                      +:+ " not found."));;
                          ret v
                      end;
                  sleep (Uniform 5 10);;
                  ret v
              | None, _ => raise NameError
              | Some _, _ => raise AttributeError
              end
          end
      | Text EmptyString => raise IndexError
      | _ => raise TypeError
      end.

(** The events of one row of the input, in a run that goes on: either the
    row's requests (the index page of the letter, the profile) and
    messages and, last, the only sleep of the row; or, when the row ends
    early, at most one request and no sleep. *)
Definition row_segment (seg : list event) : Prop :=
  (∃ pre, seg = pre ++ [Sleep (Uniform 5 10)] ∧ quiet 2 pre) ∨ quiet 1 seg.

Definition main : M unit :=
  present ← path_exists input_csv;
  if present : bool
  then
    content ← read_file input_csv;
    match read_csv (default [] content) with
    | None => raise EmptyDataError
    | Some df =>
        out_present ← path_exists output_csv;
        for_each (seq 0 (length (data df))) (process_row df)
          {| first_player := negb out_present;
             current_letter := "";
             soup := None |};;
        ret tt
    end
  else
    print ("Error: The input CSV file '" +:+ input_csv
           +:+ "' was not found.").

End Inference.

End Cbb.

(* ===================================================================== *)
(** * [nba_names.py] *)
(* ===================================================================== *)

Module NbaNames.
Import Py Rt Pandas.

(** The script makes no request. *)
Abbreviation M := (@Rt.M unit table).

(** [s.split(' ', 1)]: the text before the first blank, and the text
    after it if there is a blank. *)
Fixpoint split_name (s : string) : string * option string :=
  match s with
  | EmptyString => (EmptyString, None)
  | String c s' =>
      if Ascii.eqb c " "%char then (EmptyString, Some s')
      else let '(a, b) := split_name s' in (String c a, b)
  end.

(** A row of [names_split]: [None] is a missing value. *)
Definition name_row : Type := option string * option string.

Definition split_cell (c : cell) : name_row :=
  match c with
  | Text s => let '(a, b) := split_name s in (Some a, b)
  | _ => (None, None)
  end.

(** [sort_values(by='Last Name')]: ascending, missing values last.  The
    order pandas leaves equal keys in is not specified; the model keeps
    them in their order. *)
Definition last_le (a b : name_row) : bool :=
  match a.2, b.2 with
  | Some x, Some y => String.leb x y
  | Some _, None => true
  | None, Some _ => false
  | None, None => true
  end.

Fixpoint insert_row (r : name_row) (sorted : list name_row) : list name_row :=
  match sorted with
  | [] => [r]
  | r' :: rest =>
      if last_le r' r then r' :: insert_row r rest else r :: r' :: rest
  end.

Definition sort_rows (rows : list name_row) : list name_row :=
  foldr insert_row [] (reverse rows).

Definition is_text (c : cell) : bool :=
  match c with Text _ => true | _ => false end.

Definition extract_player_names (inf : inference)
    (input_csv output_csv : string) : M unit :=
  content ← read_file input_csv;
  match content with
  | None => raise (FileNotFoundError input_csv)
  | Some t =>
      match read_csv t with
      | None => raise EmptyDataError
      | Some df =>
          match column inf df "Player" with
          | None => print ("Error: 'Player' column not found in " +:+ input_csv)
          | Some values =>
              (* the accessor [.str] wants a column of texts *)
              if match values with [] => true | _ => existsb is_text values end
              then
                let names_split := split_cell <$> values in
                (* [expand=True] makes as many columns as the longest
                   split has parts; two names are then given to them *)
                if existsb (λ r, bool_decide (is_Some r.2)) names_split
                then
                  let df_sorted := sort_rows names_split in
                  write_file output_csv
                    (["First Name"; "Last Name"]
                     :: ((λ r, [default "" r.1; default "" r.2]) <$> df_sorted));;
                  print ("First and last names have been extracted, sorted, and saved to "
                         +:+ output_csv)
                else raise (ValueError "Length mismatch")
              else raise AttributeError
          end
      end
  end.

Definition main (inf : inference) : M unit :=
  extract_player_names inf
    "/Users/christopherreid/My Drive (christopherreid@arizona.edu)/Classes/10. Fall 2024/496 Sports Analytics/496_Project/Code/Phase_1: Rookie Contracts/rooks_all_time.csv"
    "player_names_sorted.csv".

End NbaNames.

(* ===================================================================== *)
(** * [createCSV.py] *)
(* ===================================================================== *)

Module CreateCSV.
Import Py.

(** A score: a number, or [None] for a missing value (NaN).  The scores
    and play numbers of the data are whole numbers. *)
Definition num := option Z.

(** A row of the play-by-play data. *)
Record play := {
  game_id : string;
  play_id : Z;
  wp : string;
  posteam : string;
  defteam : string;
  posteam_score : num;
  defteam_score : num;
  (** The columns the script does not require: [None] everywhere when
      the data has no such column. *)
  score_differential_post : option string;
  home_team : option string;
  away_team : option string
}.

(** A row of a game file. *)
Record out_row := {
  o_wp : string;
  o_posteam : string;
  o_defteam : string;
  o_posteam_score : num;
  o_defteam_score : num;
  o_score_differential_post : string;
  winner : Z
}.

(** [a > b] on floats: false when either is NaN. *)
Definition gt (a b : num) : bool :=
  match a, b with
  | Some x, Some y => y <? x
  | _, _ => false
  end.

(** [sort_values(by='play_id')]; plays with the same number stay in
    their order. *)
Fixpoint insert_play (p : play) (sorted : list play) : list play :=
  match sorted with
  | [] => [p]
  | q :: rest =>
      if play_id q <=? play_id p then q :: insert_play p rest
      else p :: q :: rest
  end.

Definition sort_values (game_data : list play) : list play :=
  foldr insert_play [] (reverse game_data).

Definition winner_value (last_play : play) : Z :=
  if gt (posteam_score last_play) (defteam_score last_play) then 1 else 0.

Definition select (winner_value : Z) (p : play) : option out_row :=
  sdp ← score_differential_post p;
  Some {| o_wp := wp p; o_posteam := posteam p; o_defteam := defteam p;
          o_posteam_score := posteam_score p;
          o_defteam_score := defteam_score p;
          o_score_differential_post := sdp;
          winner := winner_value |}.

(** The body of the loop over the games: the name and the rows of the
    file it writes, or [None] when an exception is caught ([KeyError] for
    a missing column) and nothing is written. *)
Definition game_file (game : string) (game_data : list play)
    : option (string * list out_row) :=
  let game_data := sort_values game_data in
  last_play ← last game_data;
  let winner_value := winner_value last_play in
  rows ← mapM (select winner_value) game_data;
  first_row ← head rows;
  let season := o_posteam first_row in
  let home := default "UNK" (home_team last_play) in
  let away := default "UNK" (away_team last_play) in
  Some (season +:+ "_" +:+ game +:+ "_" +:+ away +:+ "_" +:+ home +:+ ".csv",
        rows).

(** [pbp_data.groupby('game_id')]: the games in the order of their
    identifiers, each with its plays in the order of the data. *)
Fixpoint insert_key (k : string) (sorted : list string) : list string :=
  match sorted with
  | [] => [k]
  | k' :: rest =>
      if String.eqb k k' then sorted
      else if String.leb k' k then k' :: insert_key k rest
      else k :: sorted
  end.

Definition game_ids (pbp_data : list play) : list string :=
  foldr insert_key [] (game_id <$> pbp_data).

Definition plays_of (game : string) (pbp_data : list play) : list play :=
  filter (λ p, game_id p = game) pbp_data.

Definition groupby (pbp_data : list play) : list (string * list play) :=
  (λ g, (g, plays_of g pbp_data)) <$> game_ids pbp_data.

(** The files [create_csv_files] writes in [output_dir], in order. *)
Definition create_csv_files (pbp_data : list play)
    : list (string * list out_row) :=
  omap (λ g, game_file g.1 g.2) (groupby pbp_data).

End CreateCSV.

(* ===================================================================== *)
(** * Facts about strings *)
(* ===================================================================== *)

Module PyFacts.
Import Py.

Lemma app_nil_r (s : string) : s +:+ "" = s.
Proof. induction s as [|c s IH]; simpl; [done | by rewrite IH]. Qed.

Lemma app_assoc (a b c : string) : (a +:+ b) +:+ c = a +:+ (b +:+ c).
Proof. induction a as [|x a IH]; simpl; [done | by rewrite IH]. Qed.

Lemma length_app (a b : string) :
  String.length (a +:+ b) = (String.length a + String.length b)%nat.
Proof. induction a as [|x a IH]; simpl; [done | by rewrite IH]. Qed.

Lemma len_app (a b : string) : len (a +:+ b) = (len a + len b)%N.
Proof. unfold len. rewrite length_app. lia. Qed.

Lemma len_cons (c : ascii) (s : string) : len (String c s) = (1 + len s)%N.
Proof. unfold len. simpl. lia. Qed.

Lemma len_nil : len "" = 0%N.
Proof. done. Qed.

End PyFacts.

(* ===================================================================== *)
(** * The csv writer and reader are inverse *)
(* ===================================================================== *)

Module CsvFacts.
Import Py PyFacts Csv.

(** ** The writer, in closed form *)

Lemma join_copy_plain (f : string) : join_scan f = false → join_copy f = f.
Proof.
  induction f as [|c f IH]; simpl; [done|].
  intros [Hc Hf]%orb_false_iff. unfold special in Hc.
  apply orb_false_iff in Hc as [[_ Hq]%orb_false_iff _].
  rewrite Hq, IH; done.
Qed.

Lemma join_append_data_fmt (n : nat) (f : string) :
  join_append_data n f (join_scan f)
  = (if (0 <? n)%nat then String delimiter "" else "") +:+ fmt f.
Proof.
  unfold join_append_data, fmt. destruct (join_scan f) eqn:Hs.
  - destruct (0 <? n)%nat; simpl; done.
  - rewrite (join_copy_plain f Hs), app_nil_r. destruct (0 <? n)%nat; done.
Qed.

Lemma fold_join_append (more : list string) (w : WriterObj) :
  (0 < num_fields w)%nat →
  fold_left (fun w f => join_append w f false) more w
  = {| rec := rec w +:+ tail_text more;
       num_fields := num_fields w + length more |}.
Proof.
  revert w. induction more as [|f more IH]; intros [r n] Hn; simpl in *.
  - rewrite app_nil_r. f_equal. lia.
  - rewrite IH by (simpl; lia). simpl. f_equal; [|lia].
    rewrite join_append_data_fmt.
    destruct n; [lia|]. simpl. by rewrite !app_assoc.
Qed.

Lemma writerow_row_text (row : list string) : writerow row = row_text row.
Proof.
  destruct row as [|f more]; [done|].
  unfold writerow. simpl fold_left.
  rewrite fold_join_append by (simpl; lia). simpl rec. simpl num_fields.
  rewrite join_append_data_fmt. simpl.
  destruct (fmt f +:+ tail_text more) eqn:E; simpl.
  - destruct more as [|g more]; [done|].
    destruct (fmt f); discriminate E.
  - by rewrite <- app_assoc, E.
Qed.

(** ** The reader, as one pass over the text *)

Lemma readlines_nil (text : string) : readlines text = [] → text = "".
Proof.
  destruct text as [|c t]; simpl; [done|].
  destruct (ends_line c t); [done|]. by destruct (readlines t).
Qed.

Lemma reader_loop_cons (r : ReaderObj) (c : ascii) (l : string)
    (ls : list string) :
  reader_loop r (String c l :: ls)
  = parse_process_char r (Ch c) ≫= λ r1, reader_loop r1 (l :: ls).
Proof. simpl. by destruct (parse_process_char r (Ch c)). Qed.

Lemma run_readlines (text : string) :
  ∀ r, reader_loop r (readlines text) = run r text.
Proof.
  induction text as [|c t IH]; intros r; [done|].
  cbn [readlines run].
  destruct (ends_line c t) eqn:El.
  - rewrite reader_loop_cons.
    destruct (parse_process_char r (Ch c)) as [r1|]; [|done].
    cbn. destruct (parse_process_char r1 EOL) as [r2|]; [|done].
    cbn. rewrite !IH. done.
  - destruct (readlines t) as [|l ls] eqn:Hl.
    + apply readlines_nil in Hl as ->. cbn.
      destruct (parse_process_char r (Ch c)) as [r1|]; done.
    + rewrite reader_loop_cons.
      destruct t as [|d t']; [done|].
      destruct (parse_process_char r (Ch c)) as [r1|]; [|done].
      cbn [mbind option_bind orb is_empty]. apply IH.
Qed.

(** ** Single steps of the one-pass reader *)

Abbreviation R := Build_ReaderObj.

(** A character inside a record, not the last of the text: the reader
    moves on, whether or not a line ends there (an end of line inside an
    open quote changes nothing). *)
Lemma run_step (r r1 : ReaderObj) (c : ascii) (t : string) :
  parse_process_char r (Ch c) = Some r1 →
  t ≠ "" →
  state r1 = IN_QUOTED_FIELD ∨ ends_line c t = false →
  run r (String c t) = run r1 t.
Proof.
  intros E Ht Hs. cbn [run]. rewrite E. cbn [mbind option_bind].
  destruct t as [|d t]; [done|]. cbn [is_empty]. rewrite orb_false_r.
  destruct (ends_line c (String d t)) eqn:El; [|done].
  destruct Hs as [Hs|Hs]; [|done].
  unfold parse_process_char. rewrite Hs. cbn. by rewrite Hs.
Qed.

Lemma ends_line_not_nl (c : ascii) (t : string) :
  is_nl c = false → ends_line c t = false.
Proof.
  unfold ends_line, is_nl. intros [H1 H2]%orb_false_iff. by rewrite H1, H2.
Qed.

(** The line terminator that closes a record. *)
Lemma run_crlf (r : ReaderObj) (t : string) :
  state r = EAT_CRNL →
  run r (String LF t) = run parse_reset t ≫= λ recs, Some (fields r :: recs).
Proof.
  destruct r as [s b fs]. cbn. by intros ->.
Qed.

Definition field_ended (s : ParserState) : Prop :=
  s = START_FIELD ∨ s = IN_FIELD ∨ s = QUOTE_IN_QUOTED_FIELD.

Lemma run_end_of_row (s : ParserState) (buf : string) (fs : list string)
    (t : string) :
  field_ended s →
  run (R s buf fs) (lineterminator +:+ t)
  = run parse_reset t ≫= λ recs, Some ((fs ++ [buf]) :: recs).
Proof.
  intros Hs. unfold lineterminator. cbn [String.append].
  rewrite (run_step _ (R EAT_CRNL "" (fs ++ [buf]))); [| |done|by right].
  - by rewrite run_crlf.
  - destruct Hs as [->|[->| ->]]; done.
Qed.

Lemma run_delimiter (s : ParserState) (buf : string) (fs : list string)
    (t : string) :
  field_ended s ∨ s = START_RECORD →
  t ≠ "" →
  run (R s buf fs) (String delimiter t) = run (R START_FIELD "" (fs ++ [buf])) t.
Proof.
  intros Hs Ht. apply run_step; [|done|by right].
  destruct Hs as [[->|[->| ->]]| ->]; done.
Qed.

(** ** Fields *)

Lemma parse_add_char_ok (s : ParserState) (buf : string) (fs : list string)
    (c : ascii) :
  (len buf < field_limit)%N →
  parse_add_char (R s buf fs) c = Some (R s (buf +:+ String c "") fs).
Proof.
  intros H. unfold parse_add_char. cbn [field state fields].
  destruct (N.leb_spec field_limit (len buf)); [lia|done].
Qed.

Lemma app_snoc (buf : string) (c : ascii) (f : string) :
  (buf +:+ String c "") +:+ f = buf +:+ String c f.
Proof. by rewrite app_assoc. Qed.

(** The body of a quoted field, up to and including the closing quote. *)
Lemma run_quoted_body (f : string) :
  ∀ (buf : string) (fs : list string) (t : string),
    t ≠ "" →
    (len buf + len f <= field_limit)%N →
    run (R IN_QUOTED_FIELD buf fs) (join_copy f +:+ String quotechar t)
    = run (R QUOTE_IN_QUOTED_FIELD (buf +:+ f) fs) t.
Proof.
  induction f as [|c f IH]; intros buf fs t Ht Hlen.
  - rewrite app_nil_r. cbn [join_copy String.append].
    apply run_step; [done|done|by right].
  - rewrite len_cons in Hlen. cbn [join_copy].
    assert (Hne : join_copy f +:+ String quotechar t ≠ "")
      by (destruct (join_copy f); done).
    destruct (Ascii.eqb_spec c quotechar) as [->|Hc].
    + cbn [String.append].
      rewrite (run_step _ (R QUOTE_IN_QUOTED_FIELD buf fs)); [|done|done|by right].
      rewrite (run_step _ (R IN_QUOTED_FIELD (buf +:+ String quotechar "") fs));
        [| |done|by left].
      * rewrite IH, app_snoc; [done|done|]. rewrite len_app, len_cons, len_nil. lia.
      * unfold parse_process_char. cbn [state].
        rewrite Ascii.eqb_refl, parse_add_char_ok by lia. done.
    + cbn [String.append].
      rewrite (run_step _ (R IN_QUOTED_FIELD (buf +:+ String c "") fs));
        [| |done|by left].
      * rewrite IH, app_snoc; [done|done|]. rewrite len_app, len_cons, len_nil. lia.
      * unfold parse_process_char. cbn [state].
        apply Ascii.eqb_neq in Hc. rewrite Hc. apply parse_add_char_ok. lia.
Qed.

Lemma special_false (c : ascii) :
  special c = false →
  Ascii.eqb c delimiter = false ∧ Ascii.eqb c quotechar = false
  ∧ is_nl c = false.
Proof.
  unfold special, is_nl. cbn [char_in lineterminator].
  intros [[H1 H2]%orb_false_iff [H3 [H4 _]%orb_false_iff]%orb_false_iff]%orb_false_iff.
  by rewrite H1, H2, H3, H4.
Qed.

(** The rest of an unquoted field. *)
Lemma run_plain_body (f : string) :
  ∀ (buf : string) (fs : list string) (t : string),
    join_scan f = false →
    t ≠ "" →
    (len buf + len f <= field_limit)%N →
    run (R IN_FIELD buf fs) (f +:+ t) = run (R IN_FIELD (buf +:+ f) fs) t.
Proof.
  induction f as [|c f IH]; intros buf fs t Hs Ht Hlen.
  - by rewrite app_nil_r.
  - rewrite len_cons in Hlen. cbn [join_scan] in Hs.
    apply orb_false_iff in Hs as [Hc Hs].
    apply special_false in Hc as (Hd & Hq & Hn).
    cbn [String.append].
    rewrite (run_step _ (R IN_FIELD (buf +:+ String c "") fs)).
    + rewrite IH, app_snoc; [done..|]. rewrite len_app, len_cons, len_nil. lia.
    + unfold parse_process_char. cbn [state]. rewrite Hn, Hd.
      apply parse_add_char_ok. lia.
    + by destruct f.
    + right. by apply ends_line_not_nl.
Qed.

(** One field, read from the start of a record or after a delimiter. *)
Lemma run_field (s : ParserState) (f : string) (fs : list string) (t : string) :
  s = START_FIELD ∨ s = START_RECORD →
  t ≠ "" →
  (len f <= field_limit)%N →
  ∃ s', (field_ended s' ∨ (s' = START_RECORD ∧ s = START_RECORD ∧ fmt f = ""))
        ∧ run (R s "" fs) (fmt f +:+ t) = run (R s' f fs) t.
Proof.
  intros Hs Ht Hlen. unfold fmt. destruct (join_scan f) eqn:Hq.
  - exists QUOTE_IN_QUOTED_FIELD. split; [left; right; by right|].
    cbn [String.append]. rewrite app_assoc. cbn [String.append].
    rewrite (run_step _ (R IN_QUOTED_FIELD "" fs)); [| |by destruct (join_copy f)|by left].
    + by rewrite run_quoted_body.
    + destruct Hs as [-> | ->]; done.
  - destruct f as [|c f].
    + exists s. split; [|done]. destruct Hs as [-> | ->]; [left; by left|by right].
    + exists IN_FIELD. split; [left; right; by left|].
      cbn [join_scan] in Hq. apply orb_false_iff in Hq as [Hc Hq].
      apply special_false in Hc as (Hd & Hq' & Hn).
      rewrite len_cons in Hlen. cbn [String.append].
      rewrite (run_step _ (R IN_FIELD (String c "") fs)).
      * rewrite run_plain_body; [done..|]. rewrite len_cons, len_nil. lia.
      * assert (Hl : (len "" < field_limit)%N) by done.
        destruct Hs as [-> | ->]; unfold parse_process_char, start_field;
          cbn [state set_state]; rewrite Hn, ?Hq', ?Hd.
        -- by rewrite (parse_add_char_ok _ _ _ _ Hl).
        -- unfold set_state. cbn [field fields state].
           by rewrite (parse_add_char_ok _ _ _ _ Hl).
      * by destruct f.
      * right. by apply ends_line_not_nl.
Qed.

(** ** Rows *)

Lemma fmt_nil (f : string) : fmt f = "" → f = "".
Proof. unfold fmt. by destruct (join_scan f). Qed.

Lemma tail_text_nil (more : list string) : tail_text more = "" → more = [].
Proof. by destruct more. Qed.

Lemma run_tail (more : list string) :
  ∀ (s : ParserState) (buf : string) (fs : list string) (t : string),
    field_ended s ∨ (s = START_RECORD ∧ more ≠ []) →
    fields_fit more →
    run (R s buf fs) (tail_text more +:+ lineterminator +:+ t)
    = run parse_reset t ≫= λ recs, Some ((fs ++ buf :: more) :: recs).
Proof.
  induction more as [|f more IH]; intros s buf fs t Hs Hfit.
  - destruct Hs as [Hs|[_ ?]]; [|done]. cbn [tail_text String.append].
    by apply run_end_of_row.
  - apply Forall_cons in Hfit as [Hf Hfit].
    cbn [tail_text String.append]. rewrite app_assoc.
    rewrite run_delimiter.
    + destruct (run_field START_FIELD f (fs ++ [buf])
                  (tail_text more +:+ lineterminator +:+ t))
        as (s' & Hs' & ->); [by left|by destruct (tail_text more)|done|].
      destruct Hs' as [Hs'|(_ & ? & _)]; [|done].
      rewrite IH by (done || by left). by rewrite <- (assoc_L (++)).
    + destruct Hs as [Hs|[-> _]]; [by left|by right].
    + destruct (fmt f); [by destruct (tail_text more)|done].
Qed.

Lemma run_row (row : list string) (t : string) :
  fields_fit row →
  run parse_reset (row_text row +:+ t)
  = run parse_reset t ≫= λ recs, Some (row :: recs).
Proof.
  intros Hfit. destruct row as [|f more].
  - unfold row_text, lineterminator. cbn [String.append].
    rewrite (run_step _ (R EAT_CRNL "" [])); [|done|done|by right].
    by rewrite run_crlf.
  - apply Forall_cons in Hfit as [Hf Hfit]. unfold row_text, parse_reset.
    destruct (is_empty (fmt f +:+ tail_text more)) eqn:He.
    + assert (fmt f = "" ∧ tail_text more = "") as [Hf0 Hm0].
      { destruct (fmt f); [|done]. by destruct (tail_text more). }
      apply fmt_nil in Hf0 as ->. apply tail_text_nil in Hm0 as ->.
      cbn [String.append].
      rewrite (run_step _ (R IN_QUOTED_FIELD "" []));
        [|done|done|by left].
      pose proof (run_quoted_body "" "" [] (lineterminator +:+ t)) as Hq.
      cbn [join_copy String.append] in Hq. rewrite Hq; [|done|done].
      by rewrite run_end_of_row by (right; by right).
    + rewrite !app_assoc.
      destruct (run_field START_RECORD f []
                  (tail_text more +:+ lineterminator +:+ t))
        as (s' & Hs' & ->); [by right|by destruct (tail_text more)|done|].
      apply run_tail; [|done].
      destruct Hs' as [Hs'|(-> & _ & Hf0)]; [by left|right].
      split; [done|]. intros ->. by rewrite Hf0 in He.
Qed.

Lemma run_writerows (rows : list (list string)) :
  Forall fields_fit rows →
  run parse_reset (writerows rows) = Some rows.
Proof.
  induction rows as [|row rows IH]; intros Hfit; [done|].
  apply Forall_cons in Hfit as [Hrow Hfit].
  cbn [writerows]. rewrite writerow_row_text, run_row, IH; done.
Qed.

(** Reading back what the writer wrote gives the rows that were written,
    as long as no field is longer than the reader's field size limit. *)
Lemma reader_writerows (rows : list (list string)) :
  Forall fields_fit rows →
  reader (writerows rows) = Some rows.
Proof. intros H. unfold reader. by rewrite run_readlines, run_writerows. Qed.

End CsvFacts.

(* ===================================================================== *)
(** * Reasoning about runs *)
(* ===================================================================== *)

Module RtFacts.
Import Rt.

Section Sat.
Context {page file : Type}.
Abbreviation W := (world page file).
Abbreviation M := (@Rt.M page file).

(** [sat m w Q]: the run of [m] from [w] satisfies [Q]. *)
Definition sat {A} (m : M A) (w : W)
    (Q : list event → W → outcome A → Prop) : Prop :=
  Q (events (m w)) (final (m w)) (out (m w)).

Lemma sat_ret {A} (a : A) (w : W) Q : Q [] w (Ret a) → sat (ret a) w Q.
Proof. done. Qed.

Lemma sat_raise {A} (e : exn) (w : W) (Q : list event → W → outcome A → Prop) :
  Q [] w (Raise e) → sat (raise e) w Q.
Proof. done. Qed.

Lemma sat_emit (e : event) (w : W) Q : Q [e] w (Ret tt) → sat (emit e) w Q.
Proof. done. Qed.

Lemma sat_bind {A B} (m : M A) (k : A → M B) (w : W)
    (Q : list event → W → outcome B → Prop) :
  sat m w (λ t w' o,
    match o with
    | Ret a => sat (k a) w' (λ t' w'' o', Q (t ++ t') w'' o')
    | Raise e => Q t w' (Raise e)
    end) →
  sat (bind m k) w Q.
Proof. unfold sat, bind. by destruct (out (m w)). Qed.

Lemma sat_mbind {A B} (m : M A) (k : A → M B) (w : W)
    (Q : list event → W → outcome B → Prop) :
  sat m w (λ t w' o,
    match o with
    | Ret a => sat (k a) w' (λ t' w'' o', Q (t ++ t') w'' o')
    | Raise e => Q t w' (Raise e)
    end) →
  sat (m ≫= k) w Q.
Proof. apply sat_bind. Qed.

Lemma sat_try_except {A} (m : M A) (h : exn → option (M A)) (w : W)
    (Q : list event → W → outcome A → Prop) :
  sat m w (λ t w' o,
    match o with
    | Ret a => Q t w' (Ret a)
    | Raise e =>
        match h e with
        | Some k => sat k w' (λ t' w'' o', Q (t ++ t') w'' o')
        | None => Q t w' (Raise e)
        end
    end) →
  sat (try_except m h) w Q.
Proof.
  unfold sat, try_except. destruct (out (m w)) as [a|e] eqn:E.
  - intros H. by destruct (m w); simpl in *; subst.
  - destruct (h e); [done|]. intros H. by destruct (m w); simpl in *; subst.
Qed.

Lemma sat_mono {A} (m : M A) (w : W)
    (Q Q' : list event → W → outcome A → Prop) :
  sat m w Q → (∀ t w' o, Q t w' o → Q' t w' o) → sat m w Q'.
Proof. unfold sat. auto. Qed.

Lemma sat_requests_get (url : string) (w : W) Q :
  Q [Get url]
    {| net := net w; sent := S (sent w); files := files w |}
    (match net w (sent w) url with
     | Unreachable e => Raise (RequestException e)
     | Reply st body => Ret (st, body)
     end) →
  sat (requests_get url) w Q.
Proof. done. Qed.

Lemma sat_read_file (path : string) (w : W) Q :
  Q [] w (Ret (files w !! path)) → sat (read_file path) w Q.
Proof. done. Qed.

Lemma sat_write_file (path : string) (content : file) (w : W) Q :
  Q [] {| net := net w; sent := sent w;
          files := <[path := content]> (files w) |} (Ret tt) →
  sat (write_file path content) w Q.
Proof. done. Qed.

(** A loop keeps an invariant of the items done, the events so far, the
    world and the loop variables; [E] is what holds when an iteration
    raises. *)
Lemma sat_for_each {A S} (body : A → S → M S)
    (I : list A → list event → W → S → Prop)
    (E : list event → W → exn → Prop) (xs : list A) :
  (∀ done x rest s t w,
      xs = done ++ x :: rest → I done t w s →
      sat (body x s) w (λ t' w' o,
        match o with
        | Ret s' => I (done ++ [x]) (t ++ t') w' s'
        | Raise e => E (t ++ t') w' e
        end)) →
  ∀ s t w,
    I [] t w s →
    sat (for_each xs body s) w (λ t' w' o,
      match o with
      | Ret s' => I xs (t ++ t') w' s'
      | Raise e => E (t ++ t') w' e
      end).
Proof.
  intros Hbody.
  assert (∀ rest done s t w,
             xs = done ++ rest → I done t w s →
             sat (for_each rest body s) w (λ t' w' o,
               match o with
               | Ret s' => I xs (t ++ t') w' s'
               | Raise e => E (t ++ t') w' e
               end)) as Hgen.
  { induction rest as [|x rest IH]; intros done s t w Hxs HI.
    - apply sat_ret. rewrite app_nil_r in *. by subst.
    - cbn [for_each]. apply sat_bind.
      eapply sat_mono; [by eapply Hbody|].
      intros t' w' [s'|e] H; [|done].
      eapply sat_mono.
      + apply (IH (done ++ [x])); [by rewrite <- (assoc_L (++))|done].
      + intros t'' w'' [s''|e] H'; by rewrite (assoc_L (++)). }
  intros s t w HI. by apply (Hgen xs []).
Qed.

End Sat.

End RtFacts.

(* ===================================================================== *)
(** * [hw2-download.py]: the CSV file and the checkpoint file *)
(* ===================================================================== *)

Module Hw2Facts.
Import Py PyFacts Rt Csv CsvFacts Hw2.

Definition payload_keys (p : play) : Prop :=
  ∀ k, is_Some (p !! k) → k ∈ tail headers.

Lemma dict_to_list_numbered (idx : Z) (p : play) :
  payload_keys p →
  dict_to_list (row_with_index idx p) = Some (str_int idx :: values p).
Proof.
  intros Hp. unfold dict_to_list, row_with_index.
  assert (Hnone : p !! "Index" = None).
  { destruct (p !! "Index") eqn:E; [|done].
    assert (Hin : "Index" ∈ tail headers) by (apply Hp; by rewrite E).
    by vm_compute in Hin; repeat (apply elem_of_cons in Hin as [?|Hin]; [done|]);
       apply elem_of_nil in Hin. }
  assert (Hall : forallb (λ k, bool_decide (k ∈ headers))
                    (map_to_list (p ∪ {[ "Index" := str_int idx ]})).*1 = true).
  { apply forallb_forall. intros k Hin. apply list_elem_of_In in Hin.
    apply list_elem_of_fmap in Hin as [[k' v] [-> Hkv]].
    apply elem_of_map_to_list in Hkv. cbn. apply bool_decide_eq_true.
    apply lookup_union_Some_raw in Hkv as [Hk|[_ Hk]].
    + unfold headers. right. apply Hp. by exists v.
    + apply lookup_singleton_Some in Hk as [<- _]. unfold headers. left. }
  rewrite Hall. f_equal. unfold headers at 1. cbn [fmap list_fmap]. f_equal.
  - by rewrite lookup_union_r, lookup_singleton_eq.
  - unfold values, headers. cbn [tail fmap list_fmap].
    by rewrite !lookup_union_l by (by apply lookup_singleton_ne).
Qed.

(** The plays [extract_inning_info] builds have the twelve keys. *)
Lemma make_play_keys (inning : string) (cleaned_cols : list string) :
  payload_keys (make_play inning cleaned_cols).
Proof.
  intros k [v Hk]. apply elem_of_list_to_map_2 in Hk.
  unfold headers. cbn [tail].
  repeat (apply elem_of_cons in Hk as [Hk|Hk];
          [injection Hk as -> _; set_solver|]).
  by apply elem_of_nil in Hk.
Qed.

Lemma extract_inning_info_keys (rows : list tr) :
  ∀ inning, Forall payload_keys (extract_inning_info_go inning rows).
Proof.
  induction rows as [|row rows IH]; intros inning;
    cbn [extract_inning_info_go]; [by constructor|].
  destruct (10 <=? length (tds row))%nat; [|apply IH].
  constructor; [apply make_play_keys|apply IH].
Qed.

Lemma enumerate_cons {A} (start : Z) (x : A) (xs : list A) :
  enumerate start (x :: xs) = (start, x) :: enumerate (start + 1) xs.
Proof.
  unfold enumerate. cbn [length]. rewrite Nat2Z.inj_succ, seqZ_cons by lia.
  cbn [zip zip_with]. do 3 f_equal; lia.
Qed.

Lemma numbered_cons (start : Z) (p : play) (data : list play) :
  numbered start (p :: data)
  = (str_int start :: values p) :: numbered (start + 1) data.
Proof. unfold numbered. by rewrite enumerate_cons. Qed.

(** [write_rows] appends the numbered records to the file, and does
    nothing else. *)
Lemma write_rows_spec (filename : string) (data : list play) :
  ∀ (idx : Z) (content : string) (w : world page string),
    files w !! filename = Some content →
    Forall payload_keys data →
    write_rows filename idx data w
    = {| events := [];
         final := {| net := net w; sent := sent w;
                     files := <[filename :=
                                  content +:+ writerows (numbered idx data)]>
                                (files w) |};
         out := Ret tt |}.
Proof.
  induction data as [|p data IH]; intros idx content w Hw Hdata.
  - cbn. rewrite app_nil_r, insert_id by done. by destruct w.
  - apply Forall_cons in Hdata as [Hp Hdata].
    cbn [write_rows]. rewrite dict_to_list_numbered by done.
    cbv [mbind M_bind bind append_file read_file write_file out final events].
    rewrite Hw. cbn [default].
    rewrite (IH (idx + 1) (content +:+ writerow (str_int idx :: values p)));
      [|cbn [files]; by rewrite lookup_insert_eq|done].
    cbn [net sent files final events out app].
    by rewrite insert_insert_eq, numbered_cons, app_assoc.
Qed.

End Hw2Facts.

(* ===================================================================== *)
(** * The CSV files read back *)
(* ===================================================================== *)

Module RoundTrip.
Import Py PyFacts Rt Csv CsvFacts.

Lemma headers_fit : fields_fit Spotrac.headers.
Proof. unfold fields_fit, Spotrac.headers. repeat constructor; by vm_compute. Qed.

Lemma hw2_headers_fit : fields_fit Hw2.headers.
Proof. unfold fields_fit, Hw2.headers. repeat constructor; by vm_compute. Qed.

(** What [Spotrac.write_csv] leaves in the file reads back as the header
    followed by the data. *)
Lemma write_csv_reads_back (filename : string) (data : list (list string))
    (w : world Spotrac.page string) :
  Forall fields_fit data →
  reader <$> files (final (Spotrac.write_csv filename data w)) !! filename
  = Some (Some (Spotrac.headers :: data)).
Proof.
  intros Hfit. cbn. rewrite lookup_insert_eq. cbn. f_equal.
  apply (reader_writerows (Spotrac.headers :: data)).
  constructor; [apply headers_fit|done].
Qed.

(** A play of one game, as [extract_inning_info] builds it. *)
Definition sample_play : Hw2.play :=
  Hw2.make_play "t1"
    ["0-0"; "0"; "---"; "3,(1-1) CBX"; ""; "NYY"; "A. Judge"; "C. Sale";
     "-2%"; "52%"; "Groundout: SS-1B"].

Definition no_files : world Hw2.page string :=
  {| net := λ _ _, Unreachable "offline"; sent := 0; files := ∅ |}.

End RoundTrip.

(** C3, as stated, fails for [write_to_csv] of [hw2-download.py]: the
    record read back for a play is not the play's row of values, it has a
    thirteenth field in front, the play's number. *)
Lemma write_to_csv_adds_index :
  Csv.reader
    <$> Rt.files (Rt.final (Hw2.write_to_csv [RoundTrip.sample_play]
                              "play_by_play.csv" RoundTrip.no_files))
        !! "play_by_play.csv"
  = Some (Some [Hw2.headers; "1" :: Hw2.values RoundTrip.sample_play])
  ∧ "1" :: Hw2.values RoundTrip.sample_play ≠ Hw2.values RoundTrip.sample_play
  ∧ length (Hw2.values RoundTrip.sample_play) = 12%nat.
Proof. split; [by vm_compute|split; [by vm_compute|by vm_compute]]. Qed.

(** C3 (amended): for all rows of strings none of which exceeds the
    reader's field size limit, the file [create_csv] writes (in
    [year_to_year_download.py] and in [alltime_rookie_contracts.py]) reads
    back, with [csv.reader] on the file opened with [newline=''], as the
    header row followed by the same rows, field for field and in order; the
    file [write_to_csv] of [hw2-download.py] writes for a list of plays
    reads back as its thirteen-column header followed, for each play in
    order, by the play's number (from 1) and its twelve values. *)
Theorem csv_round_trip (data : list (list string)) (plays : list Hw2.play)
    (start_year end_year : Z) (filename : string)
    (w : Rt.world Spotrac.page string) (w' : Rt.world Hw2.page string) :
  Forall Csv.fields_fit data →
  Forall Hw2Facts.payload_keys plays →
  Forall Csv.fields_fit (Hw2.numbered 1 plays) →
  Csv.reader
    <$> Rt.files (Rt.final (YearToYear.create_csv data start_year end_year w))
        !! YearToYear.csv_name start_year end_year
  = Some (Some (Spotrac.headers :: data))
  ∧ Csv.reader
      <$> Rt.files (Rt.final (AllTime.create_csv data filename w)) !! filename
    = Some (Some (Spotrac.headers :: data))
  ∧ Rt.out (Hw2.write_to_csv plays filename w') = Rt.Ret tt
  ∧ Csv.reader
      <$> Rt.files (Rt.final (Hw2.write_to_csv plays filename w')) !! filename
    = Some (Some (Hw2.headers :: Hw2.numbered 1 plays)).
Proof.
  intros Hdata Hkeys Hfit. split; [|split].
  - apply (RoundTrip.write_csv_reads_back _ data w Hdata).
  - apply (RoundTrip.write_csv_reads_back filename data w Hdata).
  - unfold Hw2.write_to_csv.
    cbv [mbind Rt.M_bind Rt.bind Rt.write_file Rt.out Rt.final Rt.events].
    rewrite (Hw2Facts.write_rows_spec filename plays 1
               (Csv.writerow Hw2.headers));
      [|cbn [Rt.files]; by rewrite lookup_insert_eq|done].
    cbn [Rt.out Rt.final Rt.files]. split; [done|].
    rewrite lookup_insert_eq. cbn. f_equal.
    apply (CsvFacts.reader_writerows (Hw2.headers :: Hw2.numbered 1 plays)).
    constructor; [apply RoundTrip.hw2_headers_fit|done].
Qed.

Lemma csv_round_trip_witness :
  Csv.reader
    <$> Rt.files (Rt.final (Hw2.write_to_csv [RoundTrip.sample_play]
                              "play_by_play.csv" RoundTrip.no_files))
        !! "play_by_play.csv"
  = Some (Some (Hw2.headers :: Hw2.numbered 1 [RoundTrip.sample_play])).
Proof.
  refine (proj2 (proj2 (proj2
    (csv_round_trip [["2018"; "LeBron, James"]] [RoundTrip.sample_play]
       2020 2021 "play_by_play.csv"
       {| Rt.net := λ _ _, Rt.Unreachable "offline"; Rt.sent := 0;
          Rt.files := ∅ |}
       RoundTrip.no_files _ _ _)))).
  - repeat constructor; by vm_compute.
  - constructor; [apply Hw2Facts.make_play_keys|constructor].
  - repeat constructor; by vm_compute.
Defined.

(* ===================================================================== *)
(** * [year_to_year_download.py]: the prompts *)
(* ===================================================================== *)

Module Samples.
Import Py Rt Spotrac.



Definition listing (rows : list tr) : page :=
  {| table := Some rows; divs := [] |}.

Definition profile : page :=
  {| table := None;
     divs := [ {| div_text := "Drafted: Round 1 (#3 overall), 2018";
                  draft_span := Some "Round 1 (#3 overall), 2018" |} ] |}.

(** A network that serves the listing of 2021 with the given rows and
    the player's page, and answers 404 to everything else. *)
Definition web (rows : list tr) (n : nat) (url : string) : response page :=
  if String.eqb url (YearToYear.listing_url 2021) then Reply 200 (listing rows)
  else if String.eqb url
            "https://www.spotrac.com/nba/player/_/id/27834/luka-doncic"
       then Reply 200 profile
  else Reply 404 (listing []).

Definition world_of (rows : list tr) : world page string :=
  {| net := web rows; sent := 0; files := ∅ |}.

End Samples.

(** An event that is none of a few given events. *)
Ltac not_among :=
  let H := fresh "H" in
  intros H;
  repeat (apply elem_of_cons in H as [H|H]; [discriminate H|]);
  by apply elem_of_nil in H.

(** C8: when what is typed at the two prompts of [main] is not a pair of
    integers, or the start year is greater than the end year, [main]
    prints a message and returns; it makes no request and leaves every file
    as it was (the world is unchanged: no request counted, no file
    written). *)
Theorem invalid_years_end_main (answer1 answer2 : string)
    (w : Rt.world Spotrac.page string) :
  Py.int answer1 = None ∨ Py.int answer2 = None
  ∨ (∃ start_year end_year,
        Py.int answer1 = Some start_year ∧ Py.int answer2 = Some end_year
        ∧ start_year > end_year) →
  let r := YearToYear.main answer1 answer2 w in
  Rt.out r = Rt.Ret tt
  ∧ Rt.final r = w
  ∧ (∀ url, Rt.Get url ∉ Rt.events r)
  ∧ (last (Rt.events r) = Some (Rt.Print "Please enter valid years.")
     ∨ last (Rt.events r)
       = Some (Rt.Print
                 "Start year cannot be greater than end year. Please try again.")).
Proof.
  intros H r. subst r. unfold YearToYear.main.
  cbv [mbind Rt.M_bind Rt.bind Rt.input Rt.emit Rt.ret Rt.print
       Rt.out Rt.final Rt.events].
  destruct (Py.int answer1) as [start_year|] eqn:E1.
  - destruct (Py.int answer2) as [end_year|] eqn:E2.
    + destruct H as [H|[H|(s & e & Hs & He & Hgt)]]; [done..|].
      simplify_eq. rewrite (proj2 (Z.gtb_gt s e)) by lia.
      cbn. repeat split; [intros url; not_among|by right].
    + cbn. repeat split; [intros url; not_among|by left].
  - cbn. repeat split; [intros url; not_among|by left].
Qed.

Lemma invalid_years_end_main_witness :
  Rt.final (YearToYear.main "2023" "2013" (Samples.world_of [])) = Samples.world_of [].
Proof.
  apply (invalid_years_end_main "2023" "2013" (Samples.world_of [])).
  right; right. exists 2023, 2013. by vm_compute.
Defined.

(* ===================================================================== *)
(** * The rookie contract scripts: what a run does *)
(* ===================================================================== *)

Module SpotracFacts.
Import Py Rt RtFacts Spotrac.

Lemma gets_app (a b : list event) : gets (a ++ b) = (gets a + gets b)%nat.
Proof. unfold gets. by rewrite filter_app, length_app. Qed.

Lemma sleeps_app (a b : list event) : sleeps (a ++ b) = (sleeps a + sleeps b)%nat.
Proof. unfold sleeps. by rewrite filter_app, length_app. Qed.

Lemma same_disk_refl {page file} (w : world page file) : same_disk w w.
Proof. done. Qed.

Lemma same_disk_trans {page file} (w1 w2 w3 : world page file) :
  same_disk w1 w2 → same_disk w2 w3 → same_disk w1 w3.
Proof. intros [? ?] [? ?]. split; congruence. Qed.

Lemma quiet_app (n m : nat) (a b : list event) :
  quiet n a → quiet m b → quiet (n + m) (a ++ b).
Proof.
  intros [? ?] [? ?]. split; [rewrite gets_app|rewrite sleeps_app]; lia.
Qed.

Lemma quiet_mono (n m : nat) (t : list event) :
  (n ≤ m)%nat → quiet n t → quiet m t.
Proof. intros ? [? ?]. split; [lia|done]. Qed.

Lemma neutral_nil : neutral [].
Proof. done. Qed.

Lemma neutral_app (a b : list event) : neutral a → neutral b → neutral (a ++ b).
Proof. intros Ha Hb rest. by rewrite <- (assoc_L (++)), Ha, Hb. Qed.

Lemma gets_cons (e : event) (t : list event) :
  gets (e :: t) = ((if is_get e then 1 else 0) + gets t)%nat.
Proof. unfold gets. rewrite filter_cons. by destruct e. Qed.

Lemma sleeps_cons (e : event) (t : list event) :
  sleeps (e :: t) = ((if is_sleep e then 1 else 0) + sleeps t)%nat.
Proof. unfold sleeps. rewrite filter_cons. by destruct e. Qed.

Lemma quiet_cons_inv (n : nat) (e : event) (t : list event) :
  quiet n (e :: t) →
  is_sleep e = false ∧ quiet (n - if is_get e then 1 else 0) t
  ∧ (is_get e = true → (0 < n)%nat).
Proof.
  intros [Hg Hs]. rewrite gets_cons in Hg. rewrite sleeps_cons in Hs.
  destruct (is_sleep e); [lia|]. split; [done|].
  destruct (is_get e); (split; [split; lia|]); [lia|done].
Qed.

Lemma separated_quiet_0 (pre : list event) (b : bool) (rest : list event) :
  quiet 0 pre → separated b (pre ++ rest) = separated b rest.
Proof.
  induction pre as [|e pre IH]; intros Hq; [done|].
  apply quiet_cons_inv in Hq as (Hs & Hq & Hg).
  destruct e; cbn in Hs, Hq, Hg; try done; try (by apply IH).
  specialize (Hg eq_refl). lia.
Qed.

Lemma neutral_silent (e : event) (t : list event) :
  is_get e = false → is_sleep e = false → neutral t → neutral (e :: t).
Proof. intros Hg Hs Ht rest. destruct e; try done; cbn; apply Ht. Qed.

Lemma neutral_quiet_0 (pre : list event) : quiet 0 pre → neutral pre.
Proof. intros H rest. by apply separated_quiet_0. Qed.

(** At most one request, then a sleep. *)
Lemma neutral_then_sleep (pre : list event) (d : delay) :
  quiet 1 pre → neutral (pre ++ [Sleep d]).
Proof.
  intros Hq rest. rewrite <- (assoc_L (++)). cbn [app].
  induction pre as [|e pre IH]; [done|].
  apply quiet_cons_inv in Hq as (Hs & Hq & _).
  destruct e; cbn in Hs, Hq; try done; try (by apply IH).
  cbn [app separated negb andb].
  by apply (separated_quiet_0 pre true (Sleep d :: rest)).
Qed.

(** One step of a run: the rule for the construct at the head. *)
Ltac sat_step :=
  lazymatch goal with
  | |- sat (ret _) _ _ => apply sat_ret
  | |- sat (raise _) _ _ => apply sat_raise
  | |- sat (emit _) _ _ => apply sat_emit
  | |- sat (print _) _ _ => apply sat_emit
  | |- sat (sleep _) _ _ => apply sat_emit
  | |- sat (input _ _) _ _ => unfold input
  | |- sat (requests_get _) _ _ => apply sat_requests_get
  | |- sat (read_file _) _ _ => apply sat_read_file
  | |- sat (write_file _ _) _ _ => apply sat_write_file
  | |- sat (_ ≫= _) _ _ => apply sat_mbind
  | |- sat (bind _ _) _ _ => apply sat_bind
  | |- sat (try_except _ _) _ _ => apply sat_try_except
  end.

Ltac sat_steps := repeat (sat_step; cbn beta iota).

Lemma sat_raise_for_status {page file} (st : Z) (w : world page file)
    (Q : list event → world page file → outcome unit → Prop) :
  (if (400 <=? st) && (st <? 600)
   then Q [] w (Raise (HTTPError st))
   else Q [] w (Ret tt)) →
  sat (raise_for_status st) w Q.
Proof. unfold raise_for_status. by destruct ((400 <=? st) && (st <? 600)). Qed.

Lemma same_disk_asked {page file} (w : world page file) : same_disk w (asked w).
Proof. done. Qed.

(** [scrape_draft_year_from_spotrac] makes one request, catches what it
    raises, and always returns. *)
Lemma scrape_draft_year_spec (url : string) (w : world page string) :
  sat (scrape_draft_year_from_spotrac url) w (λ t w' o,
    same_disk w w' ∧ quiet 1 t ∧ ∃ y, o = Ret y).
Proof.
  unfold scrape_draft_year_from_spotrac.
  apply sat_try_except, sat_mbind, sat_requests_get.
  destruct (net w (sent w) url) as [e|st body]; cbn beta iota.
  - unfold print. sat_steps. by repeat split; eauto.
  - apply sat_mbind, sat_raise_for_status. cbn [fst snd].
    destruct ((400 <=? st) && (st <? 600)); cbn beta iota.
    + unfold print. sat_steps. by repeat split; eauto.
    + sat_steps. by repeat split; eauto.
Qed.

Lemma row_data_spec (row : tr) (w : world page string) :
  sat (row_data row) w (λ t w' o,
    same_disk w w' ∧ quiet 1 t
    ∧ match o with
      | Ret data =>
          match player_link row with
          | None => data = columns row
          | Some _ => ∃ y, y ≠ "" ∧ data = y :: columns row
          end
      | Raise e => e = KeyError "href" ∧ t = []
      end).
Proof.
  unfold row_data. destruct (player_link row) as [[href|]|].
  - apply sat_mbind. eapply sat_mono; [apply scrape_draft_year_spec|].
    intros t w' o (Hd & Hq & y & ->). cbn beta iota. sat_steps.
    rewrite app_nil_r. split; [exact Hd|split; [exact Hq|]].
    eexists. split; [|reflexivity]. by destruct y as [[|c y]|].
  - sat_steps. repeat split; (done || (cbn; lia)).
  - sat_steps. repeat split; (done || (cbn; lia)).
Qed.

Lemma print_contract_with_color_spec (data : list string) (ct : string)
    (w : world page string) :
  ∃ color, print_contract_with_color data ct w
           = {| events := [PrintRow color data]; final := w; out := Ret tt |}.
Proof.
  unfold print_contract_with_color. repeat case_match; eauto.
Qed.

Lemma sat_print_contract_with_color (data : list string) (ct : string)
    (w : world page string) Q :
  (∀ color, Q [PrintRow color data] w (Ret tt)) →
  sat (print_contract_with_color data ct) w Q.
Proof.
  intros HQ. destruct (print_contract_with_color_spec data ct w) as [c Hc].
  unfold sat. rewrite Hc. apply HQ.
Qed.

Ltac side := repeat split; (done || (vm_compute; lia) || eauto).

End SpotracFacts.

Module YearToYearFacts.
Import Py Rt RtFacts Spotrac SpotracFacts YearToYear.

Lemma y2y_process_row_spec (row : tr) (cd : list (list string))
    (w : world page string) :
  sat (process_row row cd) w (λ t w' o,
    same_disk w w' ∧ quiet 1 t
    ∧ match o with
      | Ret cd' => cd' = cd ∨ ∃ data, record_of row data ∧ cd' = cd ++ [data]
      | Raise e => e = KeyError "href"
      end).
Proof.
  unfold process_row. destruct (rookie_row row) as [text|] eqn:Hr.
  - apply sat_mbind. eapply sat_mono; [apply row_data_spec|].
    intros t w' [data|e] (Hd & Hq & Hdata); [|by destruct Hdata].
    apply sat_mbind, sat_print_contract_with_color. intros color.
    sat_steps. split; [done|]. split.
    + apply (quiet_app 1 0); [done|]. by split; vm_compute.
    + right. exists data. split; [|done]. split; [by rewrite Hr|done].
  - sat_steps. side.
Qed.

Lemma y2y_rows_loop_spec (rows : list tr) (w : world page string) :
  sat (for_each rows process_row []) w (λ t w' o,
    same_disk w w' ∧ quiet (length rows) t
    ∧ match o with
      | Ret cd => Forall (λ d, ∃ row, row ∈ rows ∧ record_of row d) cd
      | Raise e => e = KeyError "href"
      end).
Proof.
  eapply sat_mono.
  - apply (sat_for_each process_row
             (λ done t w' cd,
                same_disk w w' ∧ quiet (length done) t
                ∧ Forall (λ d, ∃ row, row ∈ rows ∧ record_of row d) cd)
             (λ t w' e,
                same_disk w w' ∧ quiet (length rows) t ∧ e = KeyError "href")
             rows) with (t := []).
    + intros done x rest cd t w1 Hrows (Hd & Hq & Hcd).
      eapply sat_mono; [apply y2y_process_row_spec|].
      intros t' w2 [cd'|e] (Hd' & Hq' & Ho).
      * split; [by eapply same_disk_trans|]. split.
        { rewrite length_app. by apply quiet_app. }
        destruct Ho as [->|(data & Hdata & ->)]; [done|].
        apply Forall_app. split; [done|]. constructor; [|done].
        exists x. split; [|done]. rewrite Hrows. set_solver.
      * split; [by eapply same_disk_trans|]. split; [|done].
        rewrite Hrows, length_app. cbn [length].
        apply (quiet_mono (length done + 1)); [lia|by apply quiet_app].
    + side.
  - intros t w' [cd|e]; cbn beta iota; rewrite ?app_nil_l; tauto.
Qed.

Lemma fetch_extension_data_spec (year delay : Z) (w : world page string) :
  sat (fetch_extension_data year delay) w (λ t w' o,
    same_disk w w'
    ∧ ∃ rest,
        t = Get (listing_url year) :: rest
        ∧ match o with
          | Ret data =>
              (refused (net w (sent w) (listing_url year)) = true
               ∧ data = []
               ∧ ∃ e, rest = [PrintExn "Error fetching data from URL: " e])
              ∨ (∃ pre st body,
                    net w (sent w) (listing_url year) = Reply st body
                    ∧ refused (Reply st body) = false
                    ∧ rest = pre ++ [Sleep (Seconds delay)]
                    ∧ quiet (length (rows_of body)) pre
                    ∧ Forall (λ d, ∃ row, row ∈ rows_of body ∧ record_of row d)
                             data)
          | Raise e => e = KeyError "href" ∧ sleeps rest = 0%nat
          end).
Proof.
  unfold fetch_extension_data.
  apply sat_try_except, sat_mbind, sat_requests_get.
  destruct (net w (sent w) (listing_url year)) as [e|st body] eqn:Hnet;
    cbn beta iota.
  { unfold print. sat_steps. split; [done|]. eexists. split; [done|].
    left. eauto. }
  apply sat_mbind, sat_raise_for_status. cbn [fst snd].
  destruct ((400 <=? st) && (st <? 600)) eqn:Hst; cbn beta iota.
  { unfold print. sat_steps. split; [done|]. eexists. split; [done|].
    left. eauto. }
  unfold print, sleep. apply sat_mbind, sat_emit. cbn beta iota.
  apply sat_mbind, sat_emit. cbn beta iota.
  apply sat_mbind.
  assert (Hloop : sat
    match rows_of body with
    | [] =>
        emit (Print ("No rookie contract extensions for " +:+ season year
                     +:+ " season."));;
        ret []
    | _ :: _ => for_each (rows_of body) process_row []
    end (asked w) (λ t w' o,
      same_disk w w' ∧ quiet (length (rows_of body)) t
      ∧ match o with
        | Ret cd => Forall (λ d, ∃ row, row ∈ rows_of body ∧ record_of row d) cd
        | Raise e => e = KeyError "href"
        end)).
  { destruct (rows_of body) as [|r rs] eqn:Hrows.
    - sat_steps. side.
    - eapply sat_mono; [apply y2y_rows_loop_spec|].
      intros t w' o (Hd & Hq & Ho). split; [|done].
      eapply same_disk_trans; [apply same_disk_asked|done]. }
  eapply sat_mono; [apply Hloop|]. clear Hloop.
  intros t w' [cd|e] (Hd & Hq & Ho); cbn beta iota.
  - sat_steps. split; [done|]. eexists. split; [done|]. right.
    exists ([Print ("--- Rookie Contract Extensions for " +:+ season year
                    +:+ " Season ---"); PrintRow "" headers] ++ t ++ [Print ""]),
           st, body.
    split; [done|]. split; [done|]. split.
    { cbn. by rewrite <- !(assoc_L (++)). }
    split; [|done].
    apply (quiet_app 0 (length (rows_of body)) [_; _]); [by split; vm_compute|].
    apply (quiet_mono (length (rows_of body) + 0)); [lia|].
    apply quiet_app; [done|by split; vm_compute].
  - subst e. split; [done|]. eexists. split; [done|]. split; [done|].
    destruct Hq as [_ Hq]. by rewrite !sleeps_app, Hq.
Qed.

Lemma fetch_year_spec (year : Z) (all_data : list (list string))
    (w0 w : world page string) :
  same_disk w0 w →
  Forall (λ d, ∃ row, served w0 row ∧ record_of row d) all_data →
  sat (fetch_year year all_data) w (λ t w' o,
    same_disk w0 w'
    ∧ match o with
      | Ret all_data' =>
          year_segment year t
          ∧ Forall (λ d, ∃ row, served w0 row ∧ record_of row d) all_data'
      | Raise e => e = KeyError "href"
      end).
Proof.
  intros Hw Hall. unfold fetch_year. apply sat_mbind.
  eapply sat_mono; [apply fetch_extension_data_spec|].
  intros t w' [data|e] (Hd & rest & -> & Ho); cbn beta iota.
  - sat_steps. split; [by eapply same_disk_trans|]. rewrite app_nil_r.
    destruct Ho as [(_ & -> & msg & ->)|(pre & st & body & Hnet & _ & -> & Hq & Hdata)].
    + split; [|done]. eexists. split; [done|]. left. eauto.
    + split.
      * eexists. split; [done|]. right. exists pre. split; [done|apply Hq].
      * assert (Forall (λ d, ∃ row, served w0 row ∧ record_of row d) data) as Hs.
        { eapply Forall_impl; [exact Hdata|]. intros d (row & Hrow & Hrec).
          exists row. split; [|done]. exists (sent w), (listing_url year), st, body.
          split; [|done]. destruct Hw as [<- _]. exact Hnet. }
        destruct data; [done|]. apply Forall_app. by split.
  - destruct Ho as [-> _]. split; [by eapply same_disk_trans|done].
Qed.

Lemma years_loop_spec (years : list Z) (w : world page string) :
  sat (for_each years fetch_year []) w (λ t w' o,
    same_disk w w'
    ∧ match o with
      | Ret all_data =>
          (∃ segs, t = concat segs ∧ Forall2 year_segment years segs)
          ∧ Forall (λ d, ∃ row, served w row ∧ record_of row d) all_data
      | Raise e => e = KeyError "href"
      end).
Proof.
  eapply sat_mono.
  - apply (sat_for_each fetch_year
             (λ done t w' all_data,
                same_disk w w'
                ∧ (∃ segs, t = concat segs ∧ Forall2 year_segment done segs)
                ∧ Forall (λ d, ∃ row, served w row ∧ record_of row d) all_data)
             (λ t w' e, same_disk w w' ∧ e = KeyError "href")
             years) with (t := []).
    + intros done year rest all_data t w1 _ (Hd & (segs & -> & Hsegs) & Hall).
      eapply sat_mono; [by apply (fetch_year_spec year all_data w)|].
      intros t' w2 [all_data'|e] (Hd' & Ho); [|done].
      destruct Ho as [Hseg Hall']. split; [done|]. split; [|done].
      exists (segs ++ [t']). split.
      * rewrite concat_app. cbn [concat]. by rewrite app_nil_r.
      * apply Forall2_app; [done|]. by constructor.
    + split; [done|]. split; [|done]. exists []. split; [done|constructor].
  - intros t w' [all_data|e]; cbn beta iota; rewrite ?app_nil_l; tauto.
Qed.

(** A run of [main] with a valid range of years. *)
Lemma y2y_main_spec (answer1 answer2 : string) (start_year end_year : Z)
    (w : world page string) :
  int answer1 = Some start_year → int answer2 = Some end_year →
  start_year <= end_year →
  sat (main answer1 answer2) w (λ t w' o,
    net w' = net w
    ∧ match o with
      | Ret _ =>
          ∃ segs data,
            t = [Prompt "Enter the start year (e.g., 2013): ";
                 Prompt "Enter the end year (e.g., 2023): "; Print ""]
                ++ concat segs
                ++ [Print ("Data has been written to "
                           +:+ csv_name start_year end_year)]
            ∧ Forall2 year_segment
                      (seqZ start_year (end_year + 1 - start_year)) segs
            ∧ files w'
              = <[csv_name start_year end_year :=
                    Csv.writerow headers +:+ Csv.writerows data]> (files w)
            ∧ Forall (λ d, ∃ row, served w row ∧ record_of row d) data
      | Raise e => e = KeyError "href" ∧ files w' = files w
      end).
Proof.
  intros H1 H2 Hle. unfold main, input, print.
  sat_steps. rewrite H1. sat_steps. rewrite H2.
  replace (start_year >? end_year) with false
    by (symmetry; rewrite Z.gtb_ltb; apply Z.ltb_ge; lia).
  sat_steps.
  eapply sat_mono; [apply years_loop_spec|].
  intros t w' [all_data|e] (Hd & Ho); cbn beta iota.
  - destruct Ho as [(segs & -> & Hsegs) Hall].
    unfold create_csv, write_csv, print. sat_steps.
    split; [apply Hd|]. exists segs, all_data.
    split; [by rewrite !app_nil_r|]. split; [done|]. split; [|done].
    destruct Hd as [_ Hf]. cbn [files]. by rewrite Hf.
  - destruct Hd as [? ?]. by subst.
Qed.

End YearToYearFacts.

Module AllTimeFacts.
Import Py Rt RtFacts Spotrac SpotracFacts AllTime.

Lemma alltime_process_row_spec (delay : Z) (row : tr) (cd : list (list string))
    (w : world page string) :
  sat (process_row delay row cd) w (λ t w' o,
    same_disk w w'
    ∧ match o with
      | Ret cd' =>
          (cd' = cd ∧ t = [])
          ∨ (∃ data pre,
                record_of row data ∧ cd' = cd ++ [data]
                ∧ t = pre ++ [Sleep (Seconds delay)] ∧ quiet 1 pre)
      | Raise e => e = KeyError "href" ∧ t = []
      end).
Proof.
  unfold process_row. destruct (rookie_row row) as [text|] eqn:Hr.
  - apply sat_mbind. eapply sat_mono; [apply row_data_spec|].
    intros t w' [data|e] (Hd & Hq & Hdata); [|done].
    apply sat_mbind, sat_print_contract_with_color. intros color.
    sat_steps. split; [done|]. right.
    exists data, (t ++ [PrintRow color data]).
    split; [split; [by rewrite Hr|done]|].
    split; [done|]. split; [by rewrite <- !(assoc_L (++))|].
    apply (quiet_app 1 0); [done|]. by split; vm_compute.
  - sat_steps. side.
Qed.

Lemma alltime_rows_loop_spec (delay : Z) (rows : list tr) (w : world page string) :
  sat (for_each rows (process_row delay) []) w (λ t w' o,
    same_disk w w' ∧ neutral t ∧ (gets t ≤ length rows)%nat
    ∧ match o with
      | Ret cd => Forall (λ d, ∃ row, row ∈ rows ∧ record_of row d) cd
      | Raise e => e = KeyError "href"
      end).
Proof.
  eapply sat_mono.
  - apply (sat_for_each (process_row delay)
             (λ done t w' cd,
                same_disk w w' ∧ neutral t ∧ (gets t ≤ length done)%nat
                ∧ Forall (λ d, ∃ row, row ∈ rows ∧ record_of row d) cd)
             (λ t w' e,
                same_disk w w' ∧ neutral t ∧ (gets t ≤ length rows)%nat
                ∧ e = KeyError "href")
             rows) with (t := []).
    + intros done x rest cd t w1 Hrows (Hd & Hn & Hg & Hcd).
      eapply sat_mono; [apply alltime_process_row_spec|].
      intros t' w2 [cd'|e] (Hd' & Ho).
      * split; [by eapply same_disk_trans|].
        destruct Ho as [[-> ->]|(data & pre & Hdata & -> & -> & Hq)].
        { rewrite app_nil_r, length_app. split; [done|]. split; [lia|done]. }
        split; [by apply neutral_app, neutral_then_sleep|]. split.
        { rewrite !gets_app, length_app. destruct Hq as [Hq _].
          cbn [length]. change (gets [Sleep (Seconds delay)]) with 0%nat. lia. }
        apply Forall_app. split; [done|]. constructor; [|done].
        exists x. split; [|done]. rewrite Hrows. set_solver.
      * destruct Ho as [-> ->]. rewrite app_nil_r.
        split; [by eapply same_disk_trans|]. split; [done|]. split; [|done].
        rewrite Hrows, length_app. lia.
    + split; [done|]. split; [apply neutral_nil|]. split; [|done].
      change (gets []) with 0%nat. lia.
  - intros t w' [cd|e]; cbn beta iota; rewrite ?app_nil_l; tauto.
Qed.

Lemma fetch_all_time_extension_data_spec (delay : Z) (w : world page string) :
  sat (fetch_all_time_extension_data delay) w (λ t w' o,
    same_disk w w'
    ∧ ∃ rest,
        t = Get url :: rest ∧ neutral rest
        ∧ match o with
          | Ret data => Forall (λ d, ∃ row, served w row ∧ record_of row d) data
          | Raise e => e = KeyError "href"
          end).
Proof.
  unfold fetch_all_time_extension_data.
  apply sat_try_except, sat_mbind, sat_requests_get.
  destruct (net w (sent w) url) as [e|st body] eqn:Hnet; cbn beta iota.
  { sat_steps. split; [done|]. eexists. split; [done|].
    split; [by apply neutral_silent|constructor]. }
  apply sat_mbind, sat_raise_for_status. cbn [fst snd].
  destruct ((400 <=? st) && (st <? 600)) eqn:Hst; cbn beta iota.
  { sat_steps. split; [done|]. eexists. split; [done|].
    split; [by apply neutral_silent|constructor]. }
  do 3 (sat_step; sat_step; cbn beta iota). sat_step.
  eapply sat_mono; [apply alltime_rows_loop_spec|].
  intros t w' [cd|e] (Hd & Hn & _ & Ho); cbn beta iota.
  - assert (Forall (λ d, ∃ row, served w row ∧ record_of row d) cd) as Hs.
    { eapply Forall_impl; [exact Ho|]. intros d (row & Hrow & Hrec).
      exists row. split; [|done]. by exists (sent w), url, st, body. }
    destruct cd as [|d cd]; sat_steps.
    + split; [apply Hd|]. eexists. split; [done|]. split; [|done].
      cbn [app]. repeat (apply neutral_silent; [done..|]).
      apply neutral_app; [done|]. by apply neutral_silent.
    + split; [apply Hd|]. eexists. split; [done|]. split; [|done].
      cbn [app]. repeat (apply neutral_silent; [done..|]).
      by apply neutral_app.
  - subst e. split; [apply Hd|]. eexists. split; [done|]. split; [|done].
    cbn [app]. by repeat (apply neutral_silent; [done..|]).
Qed.

(** A run of [main]. *)
Lemma alltime_main_spec (w : world page string) :
  sat main w (λ t w' o,
    net w' = net w
    ∧ ∃ rest,
        t = Get url :: rest ∧ neutral rest
        ∧ match o with
          | Ret _ =>
              ∃ data,
                files w'
                = <["rooks_all_time.csv" :=
                      Csv.writerow headers +:+ Csv.writerows data]> (files w)
                ∧ Forall (λ d, ∃ row, served w row ∧ record_of row d) data
          | Raise e => e = KeyError "href" ∧ files w' = files w
          end).
Proof.
  unfold main. apply sat_mbind.
  eapply sat_mono; [apply fetch_all_time_extension_data_spec|].
  intros t w' [data|e] (Hd & rest & -> & Hn & Ho); cbn beta iota.
  - unfold create_csv, write_csv. sat_steps. split; [apply Hd|].
    exists (rest ++ [Print ("Data has been written to " +:+ "rooks_all_time.csv")]).
    split; [by rewrite ?app_nil_r|]. split.
    { apply neutral_app; [done|]. apply neutral_silent; [done..|apply neutral_nil]. }
    exists data. split; [|done]. destruct Hd as [_ Hf]. cbn [files]. by rewrite Hf.
  - destruct Hd as [? ?]. subst e. split; [done|]. by exists rest.
Qed.

End AllTimeFacts.





(* ===================================================================== *)
(** * [hw2-download.py]: the checkpoint file and the loop *)
(* ===================================================================== *)

Module Hw2Loop.
Import Py PyFacts Rt RtFacts SpotracFacts Hw2.

Lemma one_line_cons (c : ascii) (url : string) :
  one_line (String c url) = true → is_linebreak c = false ∧ one_line url = true.
Proof.
  cbn [one_line]. intros [H1 H2]%andb_true_iff. split; [|done].
  by destruct (is_linebreak c).
Qed.

Lemma linebreak_CR : is_linebreak CR = true.
Proof. done. Qed.
Lemma linebreak_LF : is_linebreak LF = true.
Proof. done. Qed.

Lemma not_linebreak (c : ascii) :
  is_linebreak c = false → Ascii.eqb c CR = false ∧ Ascii.eqb c LF = false.
Proof.
  intros H. split.
  - destruct (Ascii.eqb_spec c CR) as [->|]; [by rewrite linebreak_CR in H|done].
  - destruct (Ascii.eqb_spec c LF) as [->|]; [by rewrite linebreak_LF in H|done].
Qed.

(** A URL of one line is read as it was written. *)
Lemma translate_one_line (url : string) (rest : string) :
  one_line url = true →
  translate false (url +:+ rest) = url +:+ translate false rest.
Proof.
  induction url as [|c url IH]; intros H; [done|].
  apply one_line_cons in H as [Hc H]. apply not_linebreak in Hc as [Hcr Hlf].
  cbn [String.append translate]. rewrite Hcr, Hlf. cbn [andb]. by rewrite IH.
Qed.

Lemma translate_app_lf (t : string) :
  ∀ (b : bool) (x : string),
    translate b (t +:+ String LF x)
    = translate b (t +:+ String LF "") +:+ translate false x.
Proof.
  induction t as [|c t IH]; intros b x.
  - cbn. by destruct b.
  - cbn [String.append translate]. rewrite (IH true x), (IH false x).
    destruct (Ascii.eqb c CR); [by cbn|].
    destruct (Ascii.eqb c LF && b); by cbn.
Qed.

(** The translation of a terminated text ends with a line feed, unless
    it is the line feed after a carriage return, already translated. *)
Lemma translate_terminated (t : string) :
  ∀ b, (∃ u, translate b (t +:+ String LF "") = u +:+ String LF "")
       ∨ (b = true ∧ translate b (t +:+ String LF "") = "").
Proof.
  induction t as [|c t IH]; intros b.
  - destruct b; [by right|]. left. by exists "".
  - cbn [String.append translate].
    destruct (Ascii.eqb c CR).
    { left. destruct (IH true) as [[u ->]|[_ ->]].
      - by exists (String LF u).
      - by exists "". }
    destruct (Ascii.eqb c LF && b).
    { left. destruct (IH false) as [[u ->]|[? _]]; [by exists u|done]. }
    left. destruct (IH false) as [[u ->]|[? _]]; [|done].
    by exists (String c u).
Qed.

Lemma splitlines_go_app_lf (u : string) :
  ∀ (cur rest : string),
    splitlines_go cur (u +:+ String LF rest)
    = splitlines_go cur (u +:+ String LF "") ++ splitlines_go "" rest.
Proof.
  induction u as [|c u IH]; intros cur rest.
  - by cbn.
  - cbn [String.append splitlines_go].
    destruct (is_linebreak c); [by rewrite IH|apply IH].
Qed.

Lemma splitlines_go_one_line (url : string) :
  ∀ cur, one_line url = true →
         splitlines_go cur (url +:+ String LF "") = [cur +:+ url].
Proof.
  induction url as [|c url IH]; intros cur H.
  - cbn. by rewrite app_nil_r.
  - apply one_line_cons in H as [Hc H].
    cbn [String.append splitlines_go]. rewrite Hc, IH by done.
    by rewrite app_assoc.
Qed.



(** A URL that is marked is skipped: no request is made. *)
Lemma hw2_processed_is_skipped (i : Z) (url : string) (all : list play)
    (w : world page string) :
  out (is_url_processed url w) = Ret true →
  scrape_game (i, url) all w
  = {| events := [Print ("Skipping already processed game: " +:+ url)];
       final := w; out := Ret all |}.
Proof.
  unfold scrape_game. cbn [fst snd].
  cbv [mbind M_bind bind is_url_processed read_file ret out final events].
  destruct (files w !! processed_file) as [text|]; cbn beta iota; [|done].
  intros [= ->]. done.
Qed.

Lemma is_url_processed_run (url : string) (w : world page string) :
  ∃ b, is_url_processed url w = {| events := []; final := w; out := Ret b |}.
Proof.
  cbv [mbind M_bind bind is_url_processed read_file ret out final events].
  destruct (files w !! processed_file); eauto.
Qed.

Lemma mark_url_run (url : string) (w : world page string) :
  ∃ fs, mark_url_as_processed url w
        = {| events := [];
             final := {| net := net w; sent := sent w; files := fs |};
             out := Ret tt |}.
Proof.
  cbv [mbind M_bind bind mark_url_as_processed append_file read_file write_file
       ret out final events]. eauto.
Qed.

Lemma sat_mark_url (url : string) (w : world page string)
    (Q : list event → world page string → outcome unit → Prop) :
  (∀ w', net w' = net w → Q [] w' (Ret tt)) →
  sat (mark_url_as_processed url) w Q.
Proof.
  intros HQ. destruct (mark_url_run url w) as [fs Hm].
  unfold sat. rewrite Hm. by apply HQ.
Qed.

(** One game: skipped, or requested once and followed by the sleep, or
    the run is aborted by the request. *)
Lemma scrape_game_spec (game : Z * string) (all : list play)
    (w : world page string) :
  sat (scrape_game game all) w (λ t w' o,
    net w' = net w
    ∧ match o with
      | Ret _ =>
          t = [Print ("Skipping already processed game: " +:+ game.2)]
          ∨ ∃ pre, t = pre ++ [Sleep (Seconds 5)] ∧ quiet 1 pre
      | Raise e =>
          (∃ msg, e = RequestException msg)
          ∧ t = [Print (str_int game.1 +:+ ". Scraping play-by-play data from "
                        +:+ game.2);
                 Get game.2]
      end).
Proof.
  unfold scrape_game. apply sat_mbind.
  destruct (is_url_processed_run game.2 w) as [b Hb].
  unfold sat at 1. rewrite Hb. cbn [events final out].
  destruct b; [sat_steps; by eauto|].
  sat_step. sat_step. cbn beta iota. sat_step.
  unfold scrape_single_game. sat_step. sat_step.
  destruct (net w (sent w) game.2) as [e|st body]; cbn beta iota.
  { split; [done|]. eauto. }
  sat_step. cbn beta iota. cbn [fst snd]. sat_step.
  destruct (play_by_play body) as [table|].
  - destruct (extract_inning_info table) as [|p ps].
    + sat_steps. split; [done|]. right. cbn [app]. eexists [_; _; _].
      split; [done|]. by split; vm_compute.
    + sat_step. apply sat_mark_url. intros w' Hn. cbn beta iota.
      cbn [net] in Hn. sat_steps. split; [done|]. right. cbn [app]. eexists [_; _].
      split; [done|]. by split; vm_compute.
  - sat_steps. split; [done|]. right. cbn [app]. eexists [_; _; _].
    split; [done|]. by split; vm_compute.
Qed.

Lemma write_rows_silent (filename : string) (data : list play) :
  ∀ idx (w : world page string), events (write_rows filename idx data w) = [].
Proof.
  induction data as [|p data IH]; intros idx w; [done|].
  cbn [write_rows]. destruct (dict_to_list (row_with_index idx p)); [|done].
  unfold mbind, M_bind, bind at 1, append_file.
  unfold mbind, M_bind, bind at 2. cbn [read_file write_file out final events].
  cbn [app]. unfold bind. cbn [out final events].
  match goal with
  | |- context [write_rows filename ?i data ?w'] =>
      pose proof (IH i w') as Hev;
      destruct (write_rows filename i data w') as [ev fin [[]|e]]
  end; cbn [events out final] in *; by subst.
Qed.

Lemma write_to_csv_silent (data : list play) (filename : string)
    (w : world page string) :
  events (write_to_csv data filename w) = [].
Proof.
  unfold write_to_csv, mbind, M_bind, bind. cbn [write_file out final events].
  match goal with
  | |- context [write_rows filename ?i data ?w'] =>
      pose proof (write_rows_silent filename data i w') as Hev;
      destruct (write_rows filename i data w') as [ev fin [[]|e]]
  end; cbn [events out final] in *; by subst.
Qed.




End Hw2Loop.

(* ===================================================================== *)
(** * [cbb_stat_scraper.py]: the checkpoint and the loop *)
(* ===================================================================== *)

Module CbbFacts.
Import Py Rt RtFacts SpotracFacts Pandas Cbb.

(** A part of a run that makes no request, sleeps not and prints
    nothing: it can only touch the files. *)
Definition silent {A} (m : M A) : Prop :=
  ∀ w, events (m w) = [] ∧ net (final (m w)) = net w.

Lemma sat_silent {A} (m : M A) (w : world page table)
    (Q : list event → world page table → outcome A → Prop) :
  silent m → (∀ w' o, net w' = net w → Q [] w' o) → sat m w Q.
Proof.
  intros Hm HQ. unfold sat. destruct (Hm w) as [-> Hn]. by apply HQ.
Qed.

Lemma silent_ret {A} (a : A) : silent (ret a : M A).
Proof. done. Qed.

Lemma silent_raise {A} (e : exn) : silent (raise e : M A).
Proof. done. Qed.

Lemma silent_bind {A B} (m : M A) (k : A → M B) :
  silent m → (∀ a, silent (k a)) → silent (m ≫= k).
Proof.
  intros Hm Hk w. cbv [mbind M_bind bind].
  destruct (Hm w) as [Hev Hn]. destruct (out (m w)) as [a|e].
  - destruct (Hk a (final (m w))) as [Hev' Hn']. cbn [events final].
    rewrite Hev, Hev'. split; [done|congruence].
  - done.
Qed.

Lemma silent_read_file (path : string) : silent (read_file path : M _).
Proof. done. Qed.

Lemma silent_write_file (path : string) (t : table) :
  silent (write_file path t : M _).
Proof. done. Qed.

Lemma silent_path_exists (path : string) : silent (path_exists path : M _).
Proof. done. Qed.

Lemma silent_append_record (path : string) (record : list string) :
  silent (append_record path record).
Proof.
  unfold append_record. apply silent_bind; [apply silent_read_file|].
  intros old. apply silent_write_file.
Qed.

Lemma silent_save_player_data (name : string) (seasons : Z) (position : string)
    (stats : list string) (path : string) (first : bool) :
  silent (save_player_data name seasons position stats path first).
Proof.
  unfold save_player_data. apply silent_bind.
  - destruct first; [apply silent_write_file|apply silent_ret].
  - intros _. apply silent_append_record.
Qed.

Section Inference.
Context (inf : inference).

Lemma silent_is_player_processed (name path : string) :
  silent (is_player_processed inf name path).
Proof.
  unfold is_player_processed. apply silent_bind; [apply silent_read_file|].
  intros [t|]; [|apply silent_ret].
  destruct (read_csv t) as [df|]; [|apply silent_raise].
  destruct (column inf df "Player"); [apply silent_ret|].
  apply silent_bind; [apply silent_write_file|]. intros _. apply silent_ret.
Qed.

Lemma silent_mark_player_processed (name path : string) :
  silent (mark_player_processed name path).
Proof.
  unfold mark_player_processed.
  apply silent_bind; [apply silent_path_exists|]. intros present.
  apply silent_bind; [|intros _; apply silent_append_record].
  destruct present; [apply silent_ret|apply silent_write_file].
Qed.

Lemma silent_row_value (df : DataFrame) (name : string) (i : nat) :
  silent (row_value inf df name i).
Proof.
  unfold row_value. destruct (column inf df name);
    [apply silent_ret|apply silent_raise].
Qed.

(** ** The checkpoint *)







Lemma row_value_run (df : DataFrame) (name : string) (i : nat)
    (values : list cell) (w : world page table) :
  column inf df name = Some values →
  row_value inf df name i w
  = {| events := []; final := w; out := Ret (default NaN (values !! i)) |}.
Proof. intros H. unfold row_value. by rewrite H. Qed.


(** ** The loop *)

Lemma extract_position_and_seasons_spec (soup : page) (w : world page table) :
  sat (extract_position_and_seasons soup) w (λ t w' o,
    w' = w ∧ quiet 0 t ∧ ∃ r, o = Ret r).
Proof.
  unfold extract_position_and_seasons.
  destruct (players_per_game_div soup) as [[|row0 rows]|]; sat_steps;
    (split; [done|]); (split; [by split; [vm_compute; lia|vm_compute]|eauto]).
Qed.

Lemma extract_career_stats_spec (soup : page) (w : world page table) :
  sat (extract_career_stats soup) w (λ t w' o, w' = w ∧ quiet 0 t).
Proof.
  unfold extract_career_stats.
  destruct (players_per_game soup) as [tbl|];
    [|sat_steps; split; [done|by split; [vm_compute; lia|vm_compute]]].
  destruct (thead tbl); [|sat_steps; split; [done|by split; [vm_compute; lia|vm_compute]]].
  destruct (career_row tbl); sat_steps; split; [done|by split; [vm_compute; lia|vm_compute]
                                                |done|by split; [vm_compute; lia|vm_compute]].
Qed.

Lemma search_player_profile_spec (soup : page) (first last : string)
    (w : world page table) :
  sat (search_player_profile soup first last) w (λ t w' o,
    w' = w ∧ quiet 0 t ∧ ∃ r, o = Ret r).
Proof.
  unfold search_player_profile.
  destruct (find_profile _ _ _); sat_steps;
    (split; [done|]); (split; [by split; [vm_compute; lia|vm_compute]|eauto]).
Qed.

Lemma quiet_one_get (url : string) : quiet 1 [Get url].
Proof. by split; [vm_compute; lia|vm_compute]. Qed.

Lemma quiet_print (s : string) : quiet 0 [Print s].
Proof. by split; [vm_compute; lia|vm_compute]. Qed.

Lemma quiet_nil (n : nat) : quiet n [].
Proof. split; [apply Nat.le_0_l|done]. Qed.

(** One profile: one request. *)
Lemma scrape_profile_spec (player_name profile_url no_stats : string)
    (v : vars) (w : world page table) :
  sat (scrape_profile player_name profile_url no_stats v) w (λ t w' o,
    net w' = net w ∧ quiet 1 t).
Proof.
  unfold scrape_profile. sat_step. sat_step.
  destruct (net w (sent w) profile_url) as [e|st body]; cbn beta iota.
  { split; [done|apply quiet_one_get]. }
  cbn [fst snd]. destruct (st =? 200).
  - sat_step. eapply sat_mono; [apply extract_position_and_seasons_spec|].
    intros t1 w1 o1 (-> & Hq1 & ps & ->). cbn beta iota.
    sat_step. eapply sat_mono; [apply extract_career_stats_spec|].
    assert (Hpre : ∀ t2 t3, quiet 0 t2 → quiet 0 t3 →
                           quiet 1 ([Get profile_url] ++ t1 ++ t2 ++ t3)).
    { intros t2 t3 H2 H3. apply (quiet_app 1 0); [apply quiet_one_get|].
      apply (quiet_app 0 0); [done|]. by apply (quiet_app 0 0). }
    intros t2 w2 [[stats|]|e] (-> & Hq2); cbn beta iota.
    + sat_step. apply sat_silent; [apply silent_save_player_data|].
      intros w3 [[]|e] Hn3; cbn beta iota.
      * sat_step. apply sat_silent; [apply silent_mark_player_processed|].
        intros w4 [[]|e] Hn4; cbn beta iota.
        -- sat_steps. split; [cbn [net asked] in *; congruence|].
           apply Hpre; [done|apply quiet_nil].
        -- split; [cbn [net asked] in *; congruence|].
           apply Hpre; [done|apply quiet_nil].
      * split; [cbn [net asked] in *; congruence|].
        apply Hpre; [done|apply quiet_nil].
    + sat_steps. split; [done|]. apply Hpre; [done|].
      apply (quiet_app 0 0 [_]); [apply quiet_print|apply quiet_nil].
    + split; [done|]. rewrite <- (app_nil_r t2). by apply Hpre, quiet_nil.
  - sat_steps. split; [done|]. by split; [vm_compute; lia|vm_compute].
Qed.

(** The index page: at most one request. *)
Lemma open_index_spec (first_letter : string) (v : vars) (w : world page table) :
  sat (open_index first_letter v) w (λ t w' o, net w' = net w ∧ quiet 1 t).
Proof.
  unfold open_index. destruct (String.eqb first_letter (current_letter v)).
  { sat_steps. split; [done|apply quiet_nil]. }
  sat_step. sat_step.
  destruct (net w (sent w) _) as [e|st body]; cbn beta iota.
  { split; [done|apply quiet_one_get]. }
  cbn [fst snd]. destruct (st =? 200); sat_steps;
    (split; [done|]); by split; [vm_compute; lia|vm_compute].
Qed.

(** One row of the input. *)
Lemma cbb_process_row_spec (df : DataFrame) (i : nat) (v : vars)
    (w : world page table) :
  sat (process_row inf df i v) w (λ t w' o,
    net w' = net w
    ∧ match o with
      | Ret _ => row_segment t
      | Raise _ => quiet 2 t
      end).
Proof.
  unfold process_row.
  sat_step. apply sat_silent; [apply silent_row_value|].
  intros w1 [first_name|e] Hn1; cbn beta iota; [|split; [done|apply quiet_nil]].
  sat_step. apply sat_silent; [apply silent_row_value|].
  intros w2 [last_name|e] Hn2; cbn beta iota;
    [|split; [congruence|apply quiet_nil]].
  destruct (String.eqb _ "Larry Nance").
  { sat_step. sat_step. cbn beta iota.
    eapply sat_mono; [apply scrape_profile_spec|].
    intros t w3 o [Hn3 Hq]. split; [congruence|].
    assert (quiet 1 ([] ++ [] ++ [Print (green ("Found special case for Larry Nance: "
                                               +:+ larry_nance_url))] ++ t)) as Hq'.
    { cbn [app]. apply (quiet_app 0 1 [_]); [apply quiet_print|done]. }
    destruct o; [by right|]. by apply (quiet_mono 1 2); [lia|]. }
  sat_step. apply sat_silent; [apply silent_is_player_processed|].
  intros w3 [processed|e] Hn3; cbn beta iota;
    [|split; [congruence|apply quiet_nil]].
  destruct processed.
  { sat_steps. split; [congruence|]. right. by split; [vm_compute; lia|vm_compute]. }
  destruct last_name as [[|c last]| |s];
    try (sat_steps; split; [congruence|apply quiet_nil]).
  sat_step. eapply sat_mono; [apply open_index_spec|].
  intros t1 w4 [[v'|]|e] [Hn4 Hq1]; cbn beta iota.
  - assert (Hraise : ∀ e : exn,
              sat (raise e : M vars) w4 (λ t' w'' o',
                net w'' = net w
                ∧ match o' with
                  | Ret _ => row_segment ([] ++ [] ++ [] ++ t1 ++ t')
                  | Raise _ => quiet 2 ([] ++ [] ++ [] ++ t1 ++ t')
                  end)).
    { intros e. sat_steps. split; [congruence|]. cbn [app].
      rewrite List.app_nil_r. by apply (quiet_mono 1 2); [lia|]. }
    destruct (soup v') as [index_soup|]; [|apply Hraise].
    destruct first_name as [first| |s]; [|apply Hraise..].
    sat_step. eapply sat_mono; [apply search_player_profile_spec|].
    intros t2 w5 o2 (-> & Hq2 & url & ->). cbn beta iota.
    sat_step.
    assert (Hrow : ∀ t3 (w6 : world page table) (o3 : outcome vars),
              net w6 = net w4 → quiet 1 t3 →
              match o3 with
              | Ret a =>
                  sat (sleep (Uniform 5 10) ≫= λ _, ret a) w6
                    (λ t' w'' o',
                       net w'' = net w
                       ∧ match o' with
                         | Ret _ =>
                             row_segment
                               ([] ++ [] ++ [] ++ t1 ++ t2 ++ t3 ++ t')
                         | Raise _ =>
                             quiet 2 ([] ++ [] ++ [] ++ t1 ++ t2 ++ t3 ++ t')
                         end)
              | Raise _ =>
                  net w6 = net w
                  ∧ quiet 2 ([] ++ [] ++ [] ++ t1 ++ t2 ++ t3)
              end).
    { intros t3 w6 o3 Hn6 Hq3.
      assert (quiet 2 (t1 ++ t2 ++ t3)) as Hq.
      { apply (quiet_app 1 1); [done|]. by apply (quiet_app 0 1). }
      destruct o3 as [a|e].
      - sat_steps. split; [congruence|]. left. exists (t1 ++ t2 ++ t3).
        split; [|done]. cbn [app]. by rewrite <- !(assoc_L (++)).
      - split; [congruence|]. done. }
    destruct url as [url|].
    + eapply sat_mono; [apply scrape_profile_spec|].
      intros t3 w6 o3 [Hn6 Hq3]. by apply Hrow.
    + sat_steps.
      apply (Hrow [Print (red ("Profile for " +:+ _ +:+ " not found."))]
                  w4 (Ret v')); [done|].
      apply (quiet_mono 0 1); [lia|apply quiet_print].
  - sat_steps. split; [congruence|]. right. by rewrite !List.app_nil_r.
  - split; [congruence|]. cbn [app]. by apply (quiet_mono 1 2); [lia|].
Qed.



(** Without its input file, [main] reports it and returns. *)
Lemma main_missing_input (w : world page table) :
  files w !! input_csv = None →
  main inf w
  = {| events := [Print ("Error: The input CSV file '" +:+ input_csv
                         +:+ "' was not found.")];
       final := w; out := Ret tt |}.
Proof.
  intros Hin. unfold main.
  cbv [mbind M_bind bind path_exists out final events]. rewrite Hin.
  rewrite bool_decide_eq_false_2 by (by intros [? ?]). done.
Qed.

End Inference.

End CbbFacts.

(* ===================================================================== *)
(** * [createCSV.py]: the winner column *)
(* ===================================================================== *)

Module CreateCSVFacts.
Import CreateCSV.

(** Plays in the order of their numbers. *)
Fixpoint ordered (l : list play) : Prop :=
  match l with
  | [] => True
  | p :: l' => (∀ q, q ∈ l' → play_id p <= play_id q) ∧ ordered l'
  end.

Lemma insert_play_perm (p : play) (l : list play) : insert_play p l ≡ₚ p :: l.
Proof.
  induction l as [|q l IH]; [done|]. cbn [insert_play].
  destruct (play_id q <=? play_id p); [|done].
  rewrite IH. apply Permutation_swap.
Qed.

Lemma insert_play_ordered (p : play) (l : list play) :
  ordered l → ordered (insert_play p l).
Proof.
  induction l as [|q l IH]; intros Hl.
  - split; [|done]. intros q Hq. by apply elem_of_nil in Hq.
  - cbn [insert_play]. destruct Hl as [Hq Hl].
    destruct (play_id q <=? play_id p) eqn:E.
    + apply Z.leb_le in E. split; [|by apply IH].
      intros r Hr. rewrite insert_play_perm in Hr.
      apply elem_of_cons in Hr as [->|Hr]; [done|by apply Hq].
    + apply Z.leb_gt in E. split; [|by split].
      intros r Hr. apply elem_of_cons in Hr as [->|Hr]; [lia|].
      specialize (Hq r Hr). lia.
Qed.

Lemma foldr_insert_play_perm (l : list play) : foldr insert_play [] l ≡ₚ l.
Proof.
  induction l as [|p l IH]; [done|]. cbn [foldr].
  by rewrite insert_play_perm, IH.
Qed.

Lemma foldr_insert_play_ordered (l : list play) : ordered (foldr insert_play [] l).
Proof.
  induction l as [|p l IH]; [done|]. cbn [foldr]. by apply insert_play_ordered.
Qed.

(** [sort_values] rearranges the plays of the game, in the order of their
    numbers. *)
Lemma sort_values_perm (l : list play) : sort_values l ≡ₚ l.
Proof.
  unfold sort_values. by rewrite foldr_insert_play_perm, reverse_Permutation.
Qed.

Lemma sort_values_ordered (l : list play) : ordered (sort_values l).
Proof. apply foldr_insert_play_ordered. Qed.

(** The last of the plays in order has the largest number. *)
Lemma ordered_last (l : list play) (m : play) :
  ordered l → last l = Some m → ∀ q, q ∈ l → play_id q <= play_id m.
Proof.
  induction l as [|p l IH]; [done|]. intros [Hp Hl] Hm q Hq.
  destruct l as [|p' l].
  - cbn in Hm. injection Hm as <-. apply list_elem_of_singleton in Hq as ->. lia.
  - change (last (p :: p' :: l)) with (last (p' :: l)) in Hm.
    apply elem_of_cons in Hq as [->|Hq]; [|by apply IH].
    apply Hp. by apply last_Some_elem_of.
Qed.

Lemma select_winner (v : Z) (p : play) (row : out_row) :
  select v p = Some row → winner row = v.
Proof.
  unfold select. destruct (score_differential_post p); [|done].
  by intros [= <-].
Qed.

Lemma mapM_select_winner (v : Z) (l : list play) (rows : list out_row) :
  mapM (select v) l = Some rows →
  length rows = length l ∧ ∀ row, row ∈ rows → winner row = v.
Proof.
  intros H. apply mapM_Some in H. split.
  - symmetry. by eapply Forall2_length.
  - intros row Hrow. apply list_elem_of_lookup in Hrow as [i Hi].
    destruct (Forall2_lookup_r _ _ _ _ _ H Hi) as (p & _ & Hp).
    by eapply select_winner.
Qed.

(** What [game_file] writes for a game. *)
Lemma game_file_winner (game name : string) (game_data : list play)
    (rows : list out_row) :
  game_file game game_data = Some (name, rows) →
  ∃ last_play,
    last (sort_values game_data) = Some last_play
    ∧ last_play ∈ game_data
    ∧ (∀ p, p ∈ game_data → play_id p <= play_id last_play)
    ∧ length rows = length game_data
    ∧ ∀ row, row ∈ rows → winner row = winner_value last_play.
Proof.
  unfold game_file. intros H.
  destruct (last (sort_values game_data)) as [last_play|] eqn:Hlast; [|done].
  cbn [mbind option_bind] in H.
  destruct (mapM _ _) as [rows'|] eqn:Hrows; [|done].
  cbn [mbind option_bind] in H.
  destruct (head rows'); [|done]. cbn in H. injection H as _ <-.
  apply mapM_select_winner in Hrows as [Hlen Hw].
  exists last_play. split; [done|]. split; [|split; [|split]].
  - rewrite <- (sort_values_perm game_data). by apply last_Some_elem_of.
  - intros p Hp. apply (ordered_last (sort_values game_data));
      [apply sort_values_ordered|done|by rewrite sort_values_perm].
  - by rewrite Hlen, (sort_values_perm game_data).
  - done.
Qed.

End CreateCSVFacts.

(** Play-by-play data, for the examples. *)
Module NflSamples.
Import CreateCSV.

Definition mk (game : string) (n : Z) (pos def : string) (ps ds : Z) : play :=
  {| game_id := game; play_id := n; wp := "0.5"; posteam := pos;
     defteam := def; posteam_score := Some ps; defteam_score := Some ds;
     score_differential_post := Some "0";
     home_team := Some "KC"; away_team := Some "DET" |}.

Definition season : list play :=
  [ mk "2023_01_DET_KC" 55 "DET" "KC" 0 0;
    mk "2023_01_DET_KC" 4500 "KC" "DET" 20 21;
    mk "2023_01_DET_KC" 77 "KC" "DET" 0 0 ].

(** Two games whose plays alternate in the data.  On the last play of the
    first game the offense is ahead; on the last play of all, which is of
    the second game, it is behind. *)
Definition two_games : list play :=
  [ mk "2023_01_DET_KC" 55 "DET" "KC" 0 0;
    mk "2023_02_DET_KC" 9000 "KC" "DET" 20 38;
    mk "2023_01_DET_KC" 4500 "DET" "KC" 21 20;
    mk "2023_02_DET_KC" 60 "DET" "KC" 0 0 ].

(** The rows of the file of the first of the two games. *)
Definition first_game_rows : list out_row :=
  [ {| o_wp := "0.5"; o_posteam := "DET"; o_defteam := "KC";
       o_posteam_score := Some 0; o_defteam_score := Some 0;
       o_score_differential_post := "0"; winner := 1 |};
    {| o_wp := "0.5"; o_posteam := "DET"; o_defteam := "KC";
       o_posteam_score := Some 21; o_defteam_score := Some 20;
       o_score_differential_post := "0"; winner := 1 |} ].

End NflSamples.

(* ===================================================================== *)
(** * [cbb_stat_scraper.py] and [nba_names.py]: the files *)
(* ===================================================================== *)

Module CbbSamples.
Import Py Rt Pandas Cbb.

(** pandas' inference, for the examples: the texts [int] reads are
    numbers. *)
Definition numeric : inference :=
  {| scalar_like := λ s, bool_decide (is_Some (int s)); scalar_str := id |}.

Definition no_page : page :=
  {| anchors := []; players_per_game_div := None; players_per_game := None |}.

(** A site that answers 404 to every request. *)
Definition not_found (n : nat) (url : string) : response page :=
  Reply 404 no_page.

Definition no_files : world page table :=
  {| net := not_found; sent := 0; files := ∅ |}.

(** Larry Nance is in the input, and is marked as processed. *)
Definition nance_world : world page table :=
  {| net := not_found; sent := 0;
     files := {[ input_csv := [["First Name"; "Last Name"]; ["Larry"; "Nance"]];
                 processed_players_csv := [["Player"]; ["Larry Nance"]] ]} |}.

End CbbSamples.

Module FileFacts.
Import Py Rt RtFacts Pandas.

(** A run that is known event by event. *)
Lemma sat_run {page file A} (m : Rt.M A) (w w' : world page file)
    (t : list event) (o : outcome A) :
  sat m w (λ t1 w1 o1, t1 = t ∧ w1 = w' ∧ o1 = o) →
  m w = {| events := t; final := w'; out := o |}.
Proof. unfold sat. destruct (m w). cbn. by intros (-> & -> & ->). Qed.

Lemma index_of_None (name : string) (names : list string) :
  name ∉ names → index_of name names = None.
Proof.
  induction names as [|n names IH]; [done|]. intros Hn.
  apply not_elem_of_cons in Hn as [Hne Hn]. cbn [index_of].
  destruct (String.eqb_spec n name) as [->|_]; [done|]. by rewrite IH.
Qed.

Lemma column_None (inf : inference) (df : DataFrame) (name : string) :
  name ∉ columns df → column inf df name = None.
Proof. intros H. unfold column. by rewrite index_of_None. Qed.


End FileFacts.



Import RtFacts SpotracFacts.

(** C5, as stated, fails: [nba_names.py] reads its input without looking
    whether it is there, and a missing file is an uncaught
    [FileNotFoundError]. *)
Lemma nba_names_missing_file_raises :
  NbaNames.main CbbSamples.numeric
    {| Rt.net := λ _ _, Rt.Unreachable ""; Rt.sent := 0; Rt.files := ∅ |}
  = {| Rt.events := [];
       Rt.final := {| Rt.net := λ _ _, Rt.Unreachable ""; Rt.sent := 0;
                      Rt.files := ∅ |};
       Rt.out := Rt.Raise (Rt.FileNotFoundError
         "/Users/christopherreid/My Drive (christopherreid@arizona.edu)/Classes/10. Fall 2024/496 Sports Analytics/496_Project/Code/Phase_1: Rookie Contracts/rooks_all_time.csv") |}.
Proof. done. Qed.

(** C5 (amended): each of the two scripts handles one of the two
    failures.  [cbb_stat_scraper.py] looks for its input file and, when it
    is missing, prints a message and returns; [nba_names.py] looks for the
    column [Player] and, when the file has no such column, prints a
    message and returns: in both cases nothing else is done.  But a
    missing file is an uncaught [FileNotFoundError] in [nba_names.py], and
    an input without the column [First Name] is an uncaught [KeyError] in
    [cbb_stat_scraper.py] as soon as the input has a record. *)
Theorem input_file_failures (inf : Pandas.inference) :
  (∀ w : Rt.world Cbb.page Pandas.table,
      Rt.files w !! Cbb.input_csv = None →
      Cbb.main inf w
      = {| Rt.events :=
             [Rt.Print "Error: The input CSV file 'player_names_sorted.csv' was not found."];
           Rt.final := w; Rt.out := Rt.Ret tt |})
  ∧ (∀ (input_csv output_csv : string) (header : list string)
       (records : Pandas.table) (w : Rt.world unit Pandas.table),
      Rt.files w !! input_csv = Some (header :: records) →
      "Player" ∉ header →
      NbaNames.extract_player_names inf input_csv output_csv w
      = {| Rt.events :=
             [Rt.Print ("Error: 'Player' column not found in " +:+ input_csv)];
           Rt.final := w; Rt.out := Rt.Ret tt |})
  ∧ (∀ (input_csv output_csv : string) (w : Rt.world unit Pandas.table),
      Rt.files w !! input_csv = None →
      NbaNames.extract_player_names inf input_csv output_csv w
      = {| Rt.events := []; Rt.final := w;
           Rt.out := Rt.Raise (Rt.FileNotFoundError input_csv) |})
  ∧ (∀ (header record : list string) (records : Pandas.table)
       (w : Rt.world Cbb.page Pandas.table),
      Rt.files w !! Cbb.input_csv = Some (header :: record :: records) →
      "First Name" ∉ header →
      Cbb.main inf w
      = {| Rt.events := []; Rt.final := w;
           Rt.out := Rt.Raise (Rt.KeyError "First Name") |}).
Proof.
  split; [|split; [|split]].
  - intros w Hin. unfold Cbb.main.
    cbv [mbind Rt.M_bind Rt.bind Rt.path_exists Rt.out Rt.final Rt.events].
    rewrite Hin. by rewrite bool_decide_eq_false_2 by (by intros [? ?]).
  - intros input_csv output_csv header records w Hin Hcol.
    unfold NbaNames.extract_player_names.
    cbv [mbind Rt.M_bind Rt.bind Rt.read_file Rt.out Rt.final Rt.events].
    rewrite Hin. cbn [Pandas.read_csv].
    by rewrite FileFacts.column_None.
  - intros input_csv output_csv w Hin.
    unfold NbaNames.extract_player_names.
    cbv [mbind Rt.M_bind Rt.bind Rt.read_file Rt.out Rt.final Rt.events].
    by rewrite Hin.
  - intros header record records w Hin Hcol.
    apply FileFacts.sat_run. unfold Cbb.main. sat_step.
    unfold sat at 1. cbv [Rt.path_exists Rt.out Rt.final Rt.events].
    rewrite Hin. rewrite bool_decide_eq_true_2 by eauto.
    sat_step. sat_step. rewrite Hin.
    cbn [default from_option id Pandas.read_csv].
    sat_step. unfold sat at 1. cbv [Rt.path_exists Rt.out Rt.final Rt.events].
    sat_step. cbn [Pandas.data length seq Rt.for_each]. sat_step.
    unfold Cbb.process_row. sat_step. unfold Cbb.row_value.
    rewrite FileFacts.column_None by done. by sat_step.
Qed.

Lemma input_file_failures_witness :
  Rt.out (Cbb.main CbbSamples.numeric CbbSamples.no_files) = Rt.Ret tt
  ∧ Rt.out (NbaNames.extract_player_names CbbSamples.numeric "rooks.csv"
              "player_names_sorted.csv"
              {| Rt.net := λ _ _, Rt.Unreachable ""; Rt.sent := 0;
                 Rt.files := {[ "rooks.csv" := [["Name"]; ["Luka Doncic"]] ]} |})
    = Rt.Ret tt
  ∧ Rt.out (Cbb.main CbbSamples.numeric
              {| Rt.net := CbbSamples.not_found; Rt.sent := 0;
                 Rt.files := {[ Cbb.input_csv := [["Player"]; ["Luka Doncic"]] ]} |})
    = Rt.Raise (Rt.KeyError "First Name").
Proof.
  destruct (input_file_failures CbbSamples.numeric) as (H1 & H2 & H3 & H4).
  split; [|split].
  - by rewrite H1.
  - rewrite (H2 "rooks.csv" "player_names_sorted.csv" ["Name"]
               [["Luka Doncic"]]); [done|done|].
    by intros H%list_elem_of_singleton.
  - rewrite (H4 ["Player"] ["Luka Doncic"] []); [done|done|].
    by intros H%list_elem_of_singleton.
Defined.

(* ===================================================================== *)
(** * The checkpoints *)
(* ===================================================================== *)

Module Hw2Samples.
Import Rt Hw2.

Definition no_page : page := {| boxscore_links := []; play_by_play := None |}.

(** A site that answers 404 to every request, and a checkpoint file with
    the given text. *)
Definition checkpoint (text : string) : world page string :=
  {| net := λ _ _, Reply 404 no_page; sent := 0;
     files := {[ processed_file := text ]} |}.

Definition game_url : string :=
  "https://www.baseball-reference.com/boxes/KCA/KCA202303300.shtml".

End Hw2Samples.




(* ===================================================================== *)
(** * Requests that fail *)
(* ===================================================================== *)

Module LoopFacts.
Import Rt RtFacts.

Section Loop.
Context {page file A S : Type} (body : A → S → @Rt.M page file S).

Lemma bind_ext {B C} (m : @Rt.M page file B) (k k' : B → @Rt.M page file C)
    (w : world page file) :
  (∀ b w', k b w' = k' b w') → bind m k w = bind m k' w.
Proof. intros H. unfold bind. destruct (out (m w)); by rewrite ?H. Qed.

Lemma bind_assoc {B C D} (m : @Rt.M page file B) (k : B → @Rt.M page file C)
    (k' : C → @Rt.M page file D) (w : world page file) :
  bind (bind m k) k' w = bind m (λ b, bind (k b) k') w.
Proof.
  unfold bind. destruct (out (m w)) as [b|e]; cbn [out final events]; [|done].
  destruct (out (k b (final (m w)))); cbn [out final events]; [|done].
  by rewrite (assoc_L (++)).
Qed.

Lemma bind_ret_l {B C} (b : B) (k : B → @Rt.M page file C)
    (w : world page file) :
  bind (ret b) k w = k b w.
Proof. unfold bind, ret. cbn [out final events app]. by destruct (k b w). Qed.

(** The loop over [xs ++ ys] is the loop over [xs] followed by the loop
    over [ys]. *)
Lemma for_each_app (xs ys : list A) (s : S) (w : world page file) :
  for_each (xs ++ ys) body s w
  = bind (for_each xs body s) (for_each ys body) w.
Proof.
  revert s w. induction xs as [|x xs IH]; intros s w.
  - change (for_each [] body s) with (ret s : @Rt.M page file S).
    by rewrite bind_ret_l.
  - change (for_each ((x :: xs) ++ ys) body s w)
      with (bind (body x s) (for_each (xs ++ ys) body) w).
    change (for_each (x :: xs) body s)
      with (bind (body x s) (for_each xs body)).
    rewrite bind_assoc. by apply bind_ext.
Qed.

(** An exception in the body ends the loop: the items that follow are
    not run. *)
Lemma for_each_raise (xs ys : list A) (x : A) (s s' : S) (e : exn)
    (w : world page file) :
  out (for_each xs body s w) = Ret s' →
  out (body x s' (final (for_each xs body s w))) = Raise e →
  for_each (xs ++ x :: ys) body s w
  = {| events := events (for_each xs body s w)
                 ++ events (body x s' (final (for_each xs body s w)));
       final := final (body x s' (final (for_each xs body s w)));
       out := Raise e |}.
Proof.
  intros Hxs Hx. rewrite for_each_app. unfold bind at 1. rewrite Hxs.
  cbn [for_each]. unfold bind. by rewrite Hx.
Qed.

End Loop.

End LoopFacts.

Module FailureFacts.
Import Py Rt RtFacts SpotracFacts.

(** The exception that a request which fails raises: the one
    [requests.get] meets, or the [HTTPError] of [raise_for_status]. *)
Definition failure {page} (r : response page) : exn :=
  match r with
  | Unreachable e => RequestException e
  | Reply st _ => HTTPError st
  end.

(** ** The rookie contract scripts catch *)

Lemma scrape_draft_year_refused (url : string)
    (w : world Spotrac.page string) :
  refused (net w (sent w) url) = true →
  Spotrac.scrape_draft_year_from_spotrac url w
  = {| events := [Get url;
                  PrintExn "Error fetching player data from URL: "
                  (failure (net w (sent w) url))];
       final := asked w; out := Ret None |}.
Proof.
  intros Hr. apply FileFacts.sat_run.
  unfold Spotrac.scrape_draft_year_from_spotrac.
  apply sat_try_except, sat_mbind, sat_requests_get.
  destruct (net w (sent w) url) as [e|st body]; cbn beta iota.
  - by sat_steps.
  - apply sat_mbind, sat_raise_for_status. cbn [fst snd refused] in *.
    rewrite Hr. cbn beta iota. by sat_steps.
Qed.

Lemma fetch_extension_data_refused (year delay : Z)
    (w : world Spotrac.page string) :
  refused (net w (sent w) (YearToYear.listing_url year)) = true →
  YearToYear.fetch_extension_data year delay w
  = {| events := [Get (YearToYear.listing_url year);
                  PrintExn "Error fetching data from URL: "
                  (failure (net w (sent w) (YearToYear.listing_url year)))];
       final := asked w; out := Ret [] |}.
Proof.
  intros Hr. apply FileFacts.sat_run. unfold YearToYear.fetch_extension_data.
  apply sat_try_except, sat_mbind, sat_requests_get.
  destruct (net w (sent w) _) as [e|st body]; cbn beta iota.
  - by sat_steps.
  - apply sat_mbind, sat_raise_for_status. cbn [fst snd refused] in *.
    rewrite Hr. cbn beta iota. by sat_steps.
Qed.

Lemma fetch_all_time_refused (delay : Z) (w : world Spotrac.page string) :
  refused (net w (sent w) AllTime.url) = true →
  AllTime.fetch_all_time_extension_data delay w
  = {| events := [Get AllTime.url;
                  PrintExn "Error fetching data from URL: "
                  (failure (net w (sent w) AllTime.url))];
       final := asked w; out := Ret [] |}.
Proof.
  intros Hr. apply FileFacts.sat_run.
  unfold AllTime.fetch_all_time_extension_data.
  apply sat_try_except, sat_mbind, sat_requests_get.
  destruct (net w (sent w) _) as [e|st body]; cbn beta iota.
  - by sat_steps.
  - apply sat_mbind, sat_raise_for_status. cbn [fst snd refused] in *.
    rewrite Hr. cbn beta iota. by sat_steps.
Qed.

(** The only exception that leaves [main] is the [KeyError] of a link
    without [href]. *)
Lemma y2y_main_raises (answer1 answer2 : string) (e : exn)
    (w : world Spotrac.page string) :
  out (YearToYear.main answer1 answer2 w) = Raise e → e = KeyError "href".
Proof.
  destruct (int answer1) as [start_year|] eqn:E1;
    [destruct (int answer2) as [end_year|] eqn:E2;
     [destruct (Z.gtb_spec start_year end_year) as [Hgt|Hle]|]|].
  - unfold YearToYear.main.
    cbv [mbind M_bind bind input emit ret print out final events].
    rewrite E1, E2. by rewrite (proj2 (Z.gtb_gt _ _)) by lia.
  - pose proof (YearToYearFacts.y2y_main_spec answer1 answer2 start_year
                  end_year w E1 E2 Hle) as [_ H].
    intros Ho. rewrite Ho in H. tauto.
  - unfold YearToYear.main.
    cbv [mbind M_bind bind input emit ret print out final events].
    by rewrite E1, E2.
  - unfold YearToYear.main.
    cbv [mbind M_bind bind input emit ret print out final events].
    by rewrite E1.
Qed.

Lemma alltime_main_raises (e : exn) (w : world Spotrac.page string) :
  out (AllTime.main w) = Raise e → e = KeyError "href".
Proof.
  pose proof (AllTimeFacts.alltime_main_spec w) as (_ & rest & _ & _ & H).
  intros Ho. rewrite Ho in H. tauto.
Qed.

(** ** [cbb_stat_scraper.py] reports a status that is not 200 *)

Lemma open_index_failed (first_letter : string) (v : Cbb.vars) (st : Z)
    (body : Cbb.page) (w : world Cbb.page Pandas.table) :
  let url := "https://www.sports-reference.com/cbb/players/"
             +:+ first_letter +:+ "-index.html" in
  first_letter ≠ Cbb.current_letter v →
  net w (sent w) url = Reply st body → st ≠ 200 →
  Cbb.open_index first_letter v w
  = {| events := [Get url;
                  Print ("Failed to navigate to " +:+ url
                         +:+ ". Status code: " +:+ str_int st)];
       final := asked w; out := Ret None |}.
Proof.
  intros url Hl Hnet Hst. apply FileFacts.sat_run. unfold Cbb.open_index.
  destruct (String.eqb_spec first_letter (Cbb.current_letter v)); [done|].
  sat_step. sat_step. fold url. rewrite Hnet. cbn beta iota. cbn [fst snd].
  destruct (Z.eqb_spec st 200); [done|]. by sat_steps.
Qed.

Lemma scrape_profile_failed (player_name profile_url no_stats : string)
    (v : Cbb.vars) (st : Z) (body : Cbb.page)
    (w : world Cbb.page Pandas.table) :
  net w (sent w) profile_url = Reply st body → st ≠ 200 →
  Cbb.scrape_profile player_name profile_url no_stats v w
  = {| events := [Get profile_url;
                  Print ("Failed to retrieve profile page for " +:+ player_name
                         +:+ ". Status code: " +:+ str_int st)];
       final := asked w; out := Ret v |}.
Proof.
  intros Hnet Hst. apply FileFacts.sat_run. unfold Cbb.scrape_profile.
  sat_step. sat_step. rewrite Hnet. cbn beta iota. cbn [fst snd].
  destruct (Z.eqb_spec st 200); [done|]. by sat_steps.
Qed.

(** ** [cbb_stat_scraper.py] does not catch *)

(** No request is answered. *)
Definition offline {page file} (w : world page file) : Prop :=
  ∀ n url, ∃ e, net w n url = Unreachable e.

(** What a part of a run does off line: it makes no request, or its
    first request ends it. *)
Definition aborted {A} (t : list event) (o : outcome A) : Prop :=
  match o with
  | Ret _ => gets t = 0%nat
  | Raise e => (gets t ≤ 1)%nat
               ∧ (gets t = 1%nat → ∃ msg, e = RequestException msg)
  end.

Lemma aborted_quiet_0 {A} (t t' : list event) (o : outcome A) :
  quiet 0 t → aborted t' o → aborted (t ++ t') o.
Proof.
  intros [Hg _]. unfold aborted. rewrite gets_app.
  replace (gets t) with 0%nat by lia. done.
Qed.

Lemma scrape_profile_offline (player_name profile_url no_stats : string)
    (v : Cbb.vars) (w : world Cbb.page Pandas.table) :
  offline w →
  sat (Cbb.scrape_profile player_name profile_url no_stats v) w (λ t w' o,
    net w' = net w ∧ t = [Get profile_url]
    ∧ ∃ msg, o = Raise (RequestException msg)).
Proof.
  intros Hw. unfold Cbb.scrape_profile. sat_step. sat_step.
  destruct (Hw (sent w) profile_url) as [e ->]. cbn beta iota. eauto.
Qed.

Lemma open_index_offline (first_letter : string) (v : Cbb.vars)
    (w : world Cbb.page Pandas.table) :
  offline w →
  sat (Cbb.open_index first_letter v) w (λ t w' o,
    net w' = net w ∧ aborted t o).
Proof.
  intros Hw. unfold Cbb.open_index.
  destruct (String.eqb first_letter (Cbb.current_letter v)); [by sat_steps|].
  sat_step. sat_step. destruct (Hw (sent w) ("https://www.sports-reference.com/cbb/players/"
             +:+ first_letter +:+ "-index.html")) as [e ->]. cbn beta iota.
  split; [done|]. split; [done|]. eauto.
Qed.

Lemma gets_nil : gets [] = 0%nat.
Proof. done. Qed.

(** Counting the requests of a run that is known piece by piece. *)
Ltac count :=
  unfold aborted, quiet in *;
  repeat first [rewrite gets_app in * | rewrite gets_cons in *
               | rewrite gets_nil in *];
  cbn [is_get] in *.

Lemma process_row_offline (inf : Pandas.inference) (df : Pandas.DataFrame)
    (i : nat) (v : Cbb.vars) (w : world Cbb.page Pandas.table) :
  offline w →
  sat (Cbb.process_row inf df i v) w (λ t w' o,
    net w' = net w ∧ aborted t o).
Proof.
  intros Hw. unfold Cbb.process_row.
  assert (Hoff : ∀ w' : world Cbb.page Pandas.table,
            net w' = net w → offline w').
  { intros w' Hn n url. rewrite Hn. apply Hw. }
  sat_step. apply CbbFacts.sat_silent; [apply CbbFacts.silent_row_value|].
  intros w1 [first_name|e] Hn1; cbn beta iota; [|split; [done|count; lia]].
  sat_step. apply CbbFacts.sat_silent; [apply CbbFacts.silent_row_value|].
  intros w2 [last_name|e] Hn2; cbn beta iota;
    [|split; [congruence|count; lia]].
  destruct (String.eqb _ "Larry Nance").
  { sat_step. sat_step. cbn beta iota.
    eapply sat_mono; [apply scrape_profile_offline, Hoff; congruence|].
    intros t w3 o (Hn3 & -> & msg & ->). split; [congruence|].
    count. cbn [app]. count. split; [lia|eauto]. }
  sat_step.
  apply CbbFacts.sat_silent; [apply CbbFacts.silent_is_player_processed|].
  intros w3 [processed|e] Hn3; cbn beta iota;
    [|split; [congruence|count; lia]].
  destruct processed.
  { sat_steps. split; [congruence|]. cbn [app]. count. lia. }
  destruct last_name as [[|c last]| |s];
    try (sat_steps; split; [congruence|count; lia]).
  sat_step. eapply sat_mono; [apply open_index_offline, Hoff; congruence|].
  intros t1 w4 [[v'|]|e] [Hn4 Hq1]; cbn beta iota.
  - assert (Hraise : ∀ e : exn,
              sat (raise e : Cbb.M Cbb.vars) w4 (λ t' w'' o',
                net w'' = net w
                ∧ aborted ([] ++ [] ++ [] ++ t1 ++ t') o')).
    { intros e. sat_steps. split; [congruence|]. cbn [app]. count. lia. }
    destruct (Cbb.soup v') as [index_soup|]; [|apply Hraise].
    destruct first_name as [first| |s]; [|apply Hraise..].
    sat_step. eapply sat_mono; [apply CbbFacts.search_player_profile_spec|].
    intros t2 w5 o2 (-> & Hq2 & url & ->). cbn beta iota.
    sat_step. destruct url as [url|].
    + eapply sat_mono; [apply scrape_profile_offline, Hoff; congruence|].
      intros t3 w6 o3 (Hn6 & -> & msg & ->). split; [congruence|].
      cbn [app]. count. split; [lia|eauto].
    + sat_steps. split; [congruence|]. cbn [app]. count. lia.
  - sat_steps. split; [congruence|]. cbn [app]. count. lia.
  - split; [congruence|]. cbn [app]. count. done.
Qed.

(** Off line, [main] makes at most one request, and the request ends the
    run with its exception. *)
Lemma cbb_main_offline (inf : Pandas.inference)
    (w : world Cbb.page Pandas.table) :
  offline w → aborted (events (Cbb.main inf w)) (out (Cbb.main inf w)).
Proof.
  intros Hw.
  assert (sat (Cbb.main inf) w (λ t w' o, aborted t o)) as H; [|exact H].
  unfold Cbb.main. sat_step.
  unfold sat at 1. cbv [path_exists out final events].
  destruct (bool_decide _); [|by sat_steps].
  sat_step. sat_step.
  destruct (Pandas.read_csv _) as [df|]; [|sat_steps; cbn [app]; count; lia].
  sat_step. unfold sat at 1. cbv [path_exists out final events].
  sat_step.
  eapply sat_mono.
  - apply (sat_for_each (Cbb.process_row inf df)
             (λ done t w' _, net w' = net w ∧ gets t = 0%nat)
             (λ t w' e, aborted t (Raise (A := unit) e))) with (t := []).
    + intros done x rest v1 t w1 _ [Hn Hg].
      eapply sat_mono; [apply process_row_offline|].
      * intros n url. rewrite Hn. apply Hw.
      * intros t' w2 [v2|e] [Hn2 Ho]; count; [split; [congruence|lia]|].
        rewrite Hg. done.
    + done.
  - intros t w' [v'|e]; cbn beta iota; rewrite ?app_nil_l.
    + intros [_ Hg]. sat_steps. count. lia.
    + done.
Qed.

End FailureFacts.

Module Hw2Failures.
Import Py Rt RtFacts SpotracFacts Hw2.

(** [hw2-download.py] does not catch either: without the schedule, the
    run ends at its first request. *)
Lemma hw2_main_unreachable (e : string) (w : world page string) :
  net w (sent w) league_schedule_url = Unreachable e →
  main w = {| events := [Get league_schedule_url]; final := asked w;
              out := Raise (RequestException e) |}.
Proof.
  intros Hnet. apply FileFacts.sat_run.
  unfold main, scrape_all_games, get_game_urls.
  sat_step. sat_step. sat_step. rewrite Hnet. done.
Qed.

(** A game that cannot be reached ends the run as well. *)
Lemma scrape_game_unreachable (i : Z) (url e : string) (all : list play)
    (w : world page string) :
  out (is_url_processed url w) = Ret false →
  net w (sent w) url = Unreachable e →
  scrape_game (i, url) all w
  = {| events := [Print (str_int i +:+ ". Scraping play-by-play data from "
                         +:+ url);
                  Get url];
       final := asked w; out := Raise (RequestException e) |}.
Proof.
  intros Hp Hnet. apply FileFacts.sat_run. unfold scrape_game. cbn [fst snd].
  sat_step. destruct (Hw2Loop.is_url_processed_run url w) as [b Hb].
  unfold sat at 1. rewrite Hb in *. cbn [events final out] in *.
  injection Hp as ->. sat_step. sat_step. cbn beta iota. sat_step.
  unfold scrape_single_game. sat_step. sat_step. rewrite Hnet. done.
Qed.

(** The status of a response is not looked at: whatever document comes
    is searched for the table. *)
Lemma scrape_single_game_reply (url : string) (st : Z) (body : page)
    (w : world page string) :
  net w (sent w) url = Reply st body →
  scrape_single_game url w
  = {| events := [Get url]; final := asked w; out := Ret (play_by_play body) |}.
Proof.
  intros Hnet. apply FileFacts.sat_run. unfold scrape_single_game.
  sat_step. sat_step. rewrite Hnet. by sat_steps.
Qed.

End Hw2Failures.

Module OfflineSamples.
Import Rt.

(** No connection; two players wait in the input of
    [cbb_stat_scraper.py]. *)
Definition cbb_world : world Cbb.page Pandas.table :=
  {| net := λ _ _, Unreachable "Connection refused"; sent := 0;
     files := {[ Cbb.input_csv := [["First Name"; "Last Name"];
                                   ["Zion"; "Williamson"];
                                   ["Trae"; "Young"]] ]} |}.

Definition hw2_world : world Hw2.page string :=
  {| net := λ _ _, Unreachable "Connection refused"; sent := 0; files := ∅ |}.

(** A rookie row whose link to the player has no [href]. *)
Definition broken_row : Spotrac.tr :=
  {| Spotrac.contract_type_cell := Some "Rookie Extension";
     Spotrac.columns := ["3"; "Ja Morant"];
     Spotrac.player_link := Some None |}.

End OfflineSamples.

(** C2, as stated, fails: [cbb_stat_scraper.py] has no handler, and a
    request that raises ends the run at the first player, without a
    message; the second player is never looked at. *)
Lemma unreachable_site_ends_cbb_run :
  Cbb.main CbbSamples.numeric OfflineSamples.cbb_world
  = {| Rt.events :=
         [Rt.Get "https://www.sports-reference.com/cbb/players/w-index.html"];
       Rt.final := Rt.asked OfflineSamples.cbb_world;
       Rt.out := Rt.Raise (Rt.RequestException "Connection refused") |}.
Proof. by vm_compute. Qed.

(** C2 (amended).  The rookie contract scripts catch the failure of a
    request (no answer, or a status from 400 to 599): for the listing of
    a year, [fetch_extension_data] prints [Error fetching data from URL]
    and returns no data, and the loop over the years goes on; for a
    player's page, [scrape_draft_year_from_spotrac] prints [Error
    fetching player data from URL] and returns [None]; no request
    exception leaves their [main].  [cbb_stat_scraper.py] only looks at
    the status: an index page whose status is not 200 is reported and
    the row is left; a request that raises is not caught, so that off
    line the run makes one request at most and ends with its exception.
    [hw2-download.py] does not catch either: when the schedule cannot be
    reached the run ends with the exception of its first request. *)
Theorem request_failures :
  (∀ (year delay : Z) (w : Rt.world Spotrac.page string),
      Rt.refused (Rt.net w (Rt.sent w) (YearToYear.listing_url year)) = true →
      YearToYear.fetch_extension_data year delay w
      = {| Rt.events :=
             [Rt.Get (YearToYear.listing_url year);
              Rt.PrintExn "Error fetching data from URL: "
                  (FailureFacts.failure (Rt.net w (Rt.sent w) (YearToYear.listing_url year)))];
           Rt.final := Rt.asked w; Rt.out := Rt.Ret [] |})
  ∧ (∀ (url : string) (w : Rt.world Spotrac.page string),
      Rt.refused (Rt.net w (Rt.sent w) url) = true →
      Spotrac.scrape_draft_year_from_spotrac url w
      = {| Rt.events :=
             [Rt.Get url;
              Rt.PrintExn "Error fetching player data from URL: "
                  (FailureFacts.failure (Rt.net w (Rt.sent w) url))];
           Rt.final := Rt.asked w; Rt.out := Rt.Ret None |})
  ∧ (∀ (answer1 answer2 : string) (e : Rt.exn)
       (w : Rt.world Spotrac.page string),
      Rt.out (YearToYear.main answer1 answer2 w) = Rt.Raise e
      ∨ Rt.out (AllTime.main w) = Rt.Raise e →
      e = Rt.KeyError "href")
  ∧ (∀ (first_letter : string) (v : Cbb.vars) (st : Z) (body : Cbb.page)
       (w : Rt.world Cbb.page Pandas.table),
      let url := "https://www.sports-reference.com/cbb/players/"
                 +:+ first_letter +:+ "-index.html" in
      first_letter ≠ Cbb.current_letter v →
      Rt.net w (Rt.sent w) url = Rt.Reply st body → st ≠ 200 →
      Cbb.open_index first_letter v w
      = {| Rt.events :=
             [Rt.Get url;
              Rt.Print ("Failed to navigate to " +:+ url
                        +:+ ". Status code: " +:+ Py.str_int st)];
           Rt.final := Rt.asked w; Rt.out := Rt.Ret None |})
  ∧ (∀ (inf : Pandas.inference) (w : Rt.world Cbb.page Pandas.table),
      (∀ n url, ∃ e, Rt.net w n url = Rt.Unreachable e) →
      (Rt.gets (Rt.events (Cbb.main inf w)) ≤ 1)%nat
      ∧ (Rt.gets (Rt.events (Cbb.main inf w)) = 1%nat →
         ∃ msg, Rt.out (Cbb.main inf w)
                = Rt.Raise (Rt.RequestException msg)))
  ∧ (∀ (e : string) (w : Rt.world Hw2.page string),
      Rt.net w (Rt.sent w) Hw2.league_schedule_url = Rt.Unreachable e →
      Hw2.main w
      = {| Rt.events := [Rt.Get Hw2.league_schedule_url];
           Rt.final := Rt.asked w;
           Rt.out := Rt.Raise (Rt.RequestException e) |}).
Proof.
  split; [|split; [|split; [|split; [|split]]]].
  - apply FailureFacts.fetch_extension_data_refused.
  - apply FailureFacts.scrape_draft_year_refused.
  - intros answer1 answer2 e w [H|H].
    + by eapply FailureFacts.y2y_main_raises.
    + by eapply FailureFacts.alltime_main_raises.
  - apply FailureFacts.open_index_failed.
  - intros inf w Hw.
    pose proof (FailureFacts.cbb_main_offline inf w Hw) as H.
    unfold FailureFacts.aborted in H.
    destruct (Rt.out (Cbb.main inf w)) as [[]|e].
    + rewrite H. split; [lia|done].
    + destruct H as [Hle Hmsg]. split; [done|].
      intros Hg. destruct (Hmsg Hg) as [msg ->]. by exists msg.
  - apply Hw2Failures.hw2_main_unreachable.
Qed.

Lemma request_failures_witness :
  Rt.out (YearToYear.fetch_extension_data 1999 2 (Samples.world_of []))
  = Rt.Ret []
  ∧ Rt.out (Spotrac.scrape_draft_year_from_spotrac
              "https://www.spotrac.com/nba/player/_/id/0/nobody"
              (Samples.world_of []))
    = Rt.Ret None
  ∧ (∃ e, Rt.out (YearToYear.main "2021" "2021"
                    (Samples.world_of [OfflineSamples.broken_row]))
          = Rt.Raise e
          ∧ e = Rt.KeyError "href")
  ∧ Rt.out (Cbb.open_index "w" {| Cbb.first_player := true;
                                  Cbb.current_letter := "";
                                  Cbb.soup := None |} CbbSamples.no_files)
    = Rt.Ret None
  ∧ (Rt.gets (Rt.events (Cbb.main CbbSamples.numeric OfflineSamples.cbb_world))
     ≤ 1)%nat
  ∧ Rt.out (Hw2.main OfflineSamples.hw2_world)
    = Rt.Raise (Rt.RequestException "Connection refused").
Proof.
  destruct request_failures as (H1 & H2 & H3 & H4 & H5 & H6).
  split; [|split; [|split; [|split; [|split]]]].
  - by rewrite H1.
  - by rewrite H2.
  - assert (Rt.out (YearToYear.main "2021" "2021"
                      (Samples.world_of [OfflineSamples.broken_row]))
            = Rt.Raise (Rt.KeyError "href")) as Ho by by vm_compute.
    eexists. split; [exact Ho|].
    exact (H3 "2021" "2021" _ (Samples.world_of [OfflineSamples.broken_row])
              (or_introl Ho)).
  - by rewrite (H4 "w" _ 404 CbbSamples.no_page).
  - apply H5. intros n url. by exists "Connection refused".
  - by rewrite (H6 "Connection refused").
Defined.

(* ===================================================================== *)
(** * How many requests a run makes *)
(* ===================================================================== *)

Module BoundFacts.
Import Py Rt RtFacts SpotracFacts FailureFacts.

(** The rows of the table of the document a request is answered with. *)
Definition served_rows (r : response Spotrac.page) : nat :=
  match r with
  | Reply _ body => length (Spotrac.rows_of body)
  | Unreachable _ => 0
  end.

Definition served_links (r : response Hw2.page) : nat :=
  match r with
  | Reply _ body => length (Hw2.boxscore_links body)
  | Unreachable _ => 0
  end.

(** [year_to_year_download.py]: one request for the listing of the year,
    and one at most for each of its rows. *)
Lemma fetch_extension_data_gets (year delay : Z)
    (w : world Spotrac.page string) :
  (gets (events (YearToYear.fetch_extension_data year delay w))
   ≤ 1 + served_rows (net w (sent w) (YearToYear.listing_url year)))%nat.
Proof.
  assert (sat (YearToYear.fetch_extension_data year delay) w (λ t _ _,
            (gets t ≤ 1 + served_rows
                            (net w (sent w) (YearToYear.listing_url year)))%nat))
    as H; [|exact H].
  unfold YearToYear.fetch_extension_data.
  apply sat_try_except, sat_mbind, sat_requests_get.
  destruct (net w (sent w) (YearToYear.listing_url year)) as [e|st body];
    cbn beta iota.
  { unfold print. sat_steps. cbn [app]. count. cbn [served_rows]. lia. }
  apply sat_mbind, sat_raise_for_status. cbn [fst snd served_rows].
  destruct ((400 <=? st) && (st <? 600)); cbn beta iota.
  { unfold print. sat_steps. cbn [app]. count. lia. }
  unfold print, sleep. apply sat_mbind, sat_emit. cbn beta iota.
  apply sat_mbind, sat_emit. cbn beta iota. apply sat_mbind.
  assert (Hloop : sat
    match Spotrac.rows_of body with
    | [] =>
        emit (Print ("No rookie contract extensions for "
                     +:+ YearToYear.season year +:+ " season."));;
        ret []
    | _ :: _ => for_each (Spotrac.rows_of body) YearToYear.process_row []
    end (asked w) (λ t w' o,
      (gets t ≤ length (Spotrac.rows_of body))%nat
      ∧ match o with Ret _ => True | Raise e => e = KeyError "href" end)).
  { destruct (Spotrac.rows_of body) as [|r rs] eqn:Hrows.
    - sat_steps. cbn [app]. count. split; [lia|done].
    - eapply sat_mono; [apply YearToYearFacts.y2y_rows_loop_spec|].
      intros t w' o (_ & [Hq _] & Ho). split; [done|]. by destruct o. }
  eapply sat_mono; [apply Hloop|]. clear Hloop.
  intros t w' [cd|e] [Hg He]; cbn beta iota.
  - sat_steps. cbn [app]. count. lia.
  - subst e. cbn [app]. count. lia.
Qed.

(** [alltime_rookie_contracts.py]: the same. *)
Lemma fetch_all_time_gets (delay : Z) (w : world Spotrac.page string) :
  (gets (events (AllTime.fetch_all_time_extension_data delay w))
   ≤ 1 + served_rows (net w (sent w) AllTime.url))%nat.
Proof.
  pose proof (AllTimeFacts.fetch_all_time_extension_data_spec delay w) as H.
  assert (sat (AllTime.fetch_all_time_extension_data delay) w (λ t _ _,
            (gets t ≤ 1 + served_rows (net w (sent w) AllTime.url))%nat))
    as H'; [|exact H'].
  unfold AllTime.fetch_all_time_extension_data.
  apply sat_try_except, sat_mbind, sat_requests_get.
  destruct (net w (sent w) AllTime.url) as [e|st body]; cbn beta iota.
  { sat_steps. cbn [app]. count. cbn [served_rows]. lia. }
  apply sat_mbind, sat_raise_for_status. cbn [fst snd served_rows].
  destruct ((400 <=? st) && (st <? 600)); cbn beta iota.
  { sat_steps. cbn [app]. count. lia. }
  do 3 (sat_step; sat_step; cbn beta iota). sat_step.
  eapply sat_mono; [apply AllTimeFacts.alltime_rows_loop_spec|].
  intros t w' [cd|e] (_ & _ & Hg & He); cbn beta iota.
  - destruct cd; sat_steps; cbn [app]; count; lia.
  - subst e. cbn [app]. count. lia.
Qed.

(** [hw2-download.py]: one request for a game at most. *)
Lemma scrape_game_gets (game : Z * string) (all : list Hw2.play)
    (w : world Hw2.page string) :
  (gets (events (Hw2.scrape_game game all w)) ≤ 1)%nat.
Proof.
  pose proof (Hw2Loop.scrape_game_spec game all w) as [_ H].
  destruct (out (Hw2.scrape_game game all w)) as [a|e].
  - destruct H as [->|(pre & -> & [Hq _])]; count; lia.
  - destruct H as [_ ->]. count. lia.
Qed.

Lemma games_loop_gets (games : list (Z * string)) (all : list Hw2.play)
    (w : world Hw2.page string) :
  (gets (events (for_each games Hw2.scrape_game all w)) ≤ length games)%nat.
Proof.
  revert all w. induction games as [|g games IH]; intros all w; [done|].
  cbn [for_each length]. unfold bind.
  pose proof (scrape_game_gets g all w) as Hg.
  destruct (out (Hw2.scrape_game g all w)) as [all'|e]; cbn [events].
  - specialize (IH all' (final (Hw2.scrape_game g all w))). count. lia.
  - lia.
Qed.

Lemma hw2_main_gets (w : world Hw2.page string) :
  (gets (events (Hw2.main w))
   ≤ 1 + served_links (net w (sent w) Hw2.league_schedule_url))%nat.
Proof.
  assert (sat Hw2.main w (λ t _ _,
            (gets t ≤ 1 + served_links
                            (net w (sent w) Hw2.league_schedule_url))%nat))
    as H; [|exact H].
  unfold Hw2.main, Hw2.scrape_all_games, Hw2.get_game_urls.
  sat_step. sat_step. sat_step.
  destruct (net w (sent w) Hw2.league_schedule_url) as [e|st body];
    cbn beta iota.
  { count. cbn [served_links]. lia. }
  sat_step. cbn beta iota. sat_step. cbn [fst snd served_links].
  unfold sat at 1.
  pose proof (games_loop_gets
                (Hw2.enumerate 1 ((λ href, Hw2.base_url +:+ href)
                                    <$> Hw2.boxscore_links body)) [] (asked w))
    as Hg.
  unfold Hw2.enumerate in Hg at 2. unfold asked in Hg.
  rewrite length_zip, length_seqZ, length_fmap, Nat2Z.id in Hg.
  destruct (out (for_each _ _ _ _)) as [[|p ps]|e]; cbn beta iota.
  - sat_steps. cbn [app]. count. lia.
  - unfold sat. rewrite Hw2Loop.write_to_csv_silent. cbn [app]. count. lia.
  - cbn [app]. count. lia.
Qed.

(** [cbb_stat_scraper.py]: two requests for a row at most. *)
Lemma cbb_process_row_gets (inf : Pandas.inference) (df : Pandas.DataFrame)
    (i : nat) (v : Cbb.vars) (w : world Cbb.page Pandas.table) :
  (gets (events (Cbb.process_row inf df i v w)) ≤ 2)%nat.
Proof.
  pose proof (CbbFacts.cbb_process_row_spec inf df i v w) as [_ H].
  destruct (out (Cbb.process_row inf df i v w)) as [a|e].
  - destruct H as [(pre & -> & [Hq _])|[Hq _]]; count; lia.
  - destruct H as [Hq _]. lia.
Qed.

Lemma cbb_rows_loop_gets (inf : Pandas.inference) (df : Pandas.DataFrame)
    (rows : list nat) (v : Cbb.vars) (w : world Cbb.page Pandas.table) :
  (gets (events (for_each rows (Cbb.process_row inf df) v w))
   ≤ 2 * length rows)%nat.
Proof.
  revert v w. induction rows as [|i rows IH]; intros v w; [cbn; lia|].
  cbn [for_each length]. unfold bind.
  pose proof (cbb_process_row_gets inf df i v w) as Hg.
  destruct (out (Cbb.process_row inf df i v w)) as [v'|e]; cbn [events].
  - specialize (IH v' (final (Cbb.process_row inf df i v w))). count. lia.
  - lia.
Qed.

Lemma cbb_main_gets (inf : Pandas.inference)
    (w : world Cbb.page Pandas.table) :
  (gets (events (Cbb.main inf w))
   ≤ 2 * length (tail (default [] (files w !! Cbb.input_csv))))%nat.
Proof.
  assert (sat (Cbb.main inf) w (λ t _ _,
            (gets t ≤ 2 * length (tail (default [] (files w !! Cbb.input_csv))))%nat))
    as H; [|exact H].
  unfold Cbb.main. sat_step.
  unfold sat at 1. cbv [path_exists out final events].
  destruct (bool_decide _); [|sat_steps; cbn [app]; count; lia].
  sat_step. sat_step.
  destruct (default [] (files w !! Cbb.input_csv)) as [|header records];
    cbn [Pandas.read_csv]; [sat_steps; cbn [app]; count; lia|].
  sat_step. unfold sat at 1. cbv [path_exists out final events].
  sat_step. unfold sat at 1. cbn [Pandas.data tail].
  match goal with
  | |- context [for_each ?rows ?body ?v ?w'] =>
      pose proof (cbb_rows_loop_gets inf
                    {| Pandas.columns := header; Pandas.data := records |}
                    rows v w') as Hg;
      destruct (out (for_each rows body v w'))
  end; rewrite length_seq in Hg; cbn beta iota.
  - sat_steps. cbn [app]. count. lia.
  - cbn [app]. count. lia.
Qed.

End BoundFacts.

Module RetrySamples.
Import Rt.

(** A site that answers 500 to every request; two players whose names
    begin with the same letter wait in the input. *)
Definition failing_site : world Cbb.page Pandas.table :=
  {| net := λ _ _, Reply 500 CbbSamples.no_page; sent := 0;
     files := {[ Cbb.input_csv := [["First Name"; "Last Name"];
                                   ["Zion"; "Williamson"];
                                   ["Grant"; "Williams"]] ]} |}.

End RetrySamples.

(** C6, as stated, fails: in [cbb_stat_scraper.py] the index page of a
    letter is requested again for the next player of that letter when the
    request before did not succeed. *)
Lemma index_page_is_requested_twice :
  Rt.urls (Rt.events (Cbb.main CbbSamples.numeric RetrySamples.failing_site))
  = ["https://www.sports-reference.com/cbb/players/w-index.html";
     "https://www.sports-reference.com/cbb/players/w-index.html"]
  ∧ Rt.out (Cbb.main CbbSamples.numeric RetrySamples.failing_site)
    = Rt.Ret tt.
Proof. split; by vm_compute. Qed.

(** C6 (amended).  No script has a loop that repeats a request, so the
    requests of a run are bounded by its items: in the rookie contract
    scripts, one request for a listing and one at most for each row of
    the table it is answered with; in [hw2-download.py], one request for
    the schedule and one at most for each box score it links to; in
    [cbb_stat_scraper.py], two at most (index page, profile) for each
    record of the input.  The same URL can still be requested more than
    once, for different items.  An exception that the body of a loop
    raises ends the loop: the items that follow are not run. *)
Theorem requests_are_bounded :
  (∀ (year delay : Z) (w : Rt.world Spotrac.page string),
      (Rt.gets (Rt.events (YearToYear.fetch_extension_data year delay w))
       ≤ 1 + match Rt.net w (Rt.sent w) (YearToYear.listing_url year) with
             | Rt.Reply _ body => length (Spotrac.rows_of body)
             | Rt.Unreachable _ => 0
             end)%nat)
  ∧ (∀ (delay : Z) (w : Rt.world Spotrac.page string),
      (Rt.gets (Rt.events (AllTime.fetch_all_time_extension_data delay w))
       ≤ 1 + match Rt.net w (Rt.sent w) AllTime.url with
             | Rt.Reply _ body => length (Spotrac.rows_of body)
             | Rt.Unreachable _ => 0
             end)%nat)
  ∧ (∀ w : Rt.world Hw2.page string,
      (Rt.gets (Rt.events (Hw2.main w))
       ≤ 1 + match Rt.net w (Rt.sent w) Hw2.league_schedule_url with
             | Rt.Reply _ body => length (Hw2.boxscore_links body)
             | Rt.Unreachable _ => 0
             end)%nat)
  ∧ (∀ (inf : Pandas.inference) (w : Rt.world Cbb.page Pandas.table),
      (Rt.gets (Rt.events (Cbb.main inf w))
       ≤ 2 * length (tail (default [] (Rt.files w !! Cbb.input_csv))))%nat)
  ∧ (∀ (page file A S : Type) (body : A → S → @Rt.M page file S)
       (xs ys : list A) (x : A) (s s' : S) (e : Rt.exn)
       (w : Rt.world page file),
      Rt.out (Rt.for_each xs body s w) = Rt.Ret s' →
      Rt.out (body x s' (Rt.final (Rt.for_each xs body s w))) = Rt.Raise e →
      Rt.for_each (xs ++ x :: ys) body s w
      = {| Rt.events :=
             Rt.events (Rt.for_each xs body s w)
             ++ Rt.events (body x s' (Rt.final (Rt.for_each xs body s w)));
           Rt.final := Rt.final (body x s' (Rt.final (Rt.for_each xs body s w)));
           Rt.out := Rt.Raise e |}).
Proof.
  split; [|split; [|split; [|split]]].
  - apply BoundFacts.fetch_extension_data_gets.
  - apply BoundFacts.fetch_all_time_gets.
  - apply BoundFacts.hw2_main_gets.
  - apply BoundFacts.cbb_main_gets.
  - intros page file A S body. apply LoopFacts.for_each_raise.
Qed.

Lemma requests_are_bounded_witness :
  Rt.events (Rt.for_each [(1, "https://x/a.shtml"); (2, "https://x/b.shtml")]
               Hw2.scrape_game [] OfflineSamples.hw2_world)
  = [Rt.Print "1. Scraping play-by-play data from https://x/a.shtml";
     Rt.Get "https://x/a.shtml"].
Proof.
  destruct requests_are_bounded as (_ & _ & _ & _ & H).
  pose proof (H _ _ _ _ Hw2.scrape_game [] [(2, "https://x/b.shtml")]
                (1, "https://x/a.shtml") [] []
                (Rt.RequestException "Connection refused")
                OfflineSamples.hw2_world eq_refl eq_refl) as Hrun.
  cbn [app] in Hrun. by rewrite Hrun.
Defined.

(* ===================================================================== *)
(** * Where the runs sleep *)
(* ===================================================================== *)




(* ===================================================================== *)
(** * [hw2-download.py]: cleaning and extraction *)
(* ===================================================================== *)

Module CleanFacts.
Import Py Hw2.







End CleanFacts.



Module ExtractFacts.
Import Py Hw2.

(** A text of characters below 128. *)
Fixpoint is_ascii (s : string) : bool :=
  match s with
  | EmptyString => true
  | String c s' => (N_of_ascii c <=? 127)%N && is_ascii s'
  end.

Lemma ascii_only_is_ascii (s : string) : is_ascii (ascii_only s) = true.
Proof.
  induction s as [|c s IH]; [done|]. cbn [ascii_only].
  destruct (N_of_ascii c <=? 127)%N eqn:E; [|done]. cbn [is_ascii].
  by rewrite E, IH.
Qed.

Lemma clean_go_is_ascii (s : string) :
  ∀ b, is_ascii s = true → is_ascii (clean_pitch_code_go b s) = true.
Proof.
  induction s as [|c s IH]; intros b; [done|].
  cbn [is_ascii clean_pitch_code_go]. intros [Hc Hs]%andb_true_iff.
  destruct (Ascii.eqb c LF); [cbn [is_ascii]; by rewrite Hc, IH|].
  destruct b; [by apply IH|]. cbn [is_ascii]. by rewrite Hc, IH.
Qed.

Lemma col_is_ascii (cols : list string) (i : nat) :
  Forall (λ s, is_ascii s = true) cols → is_ascii (col cols i) = true.
Proof.
  intros H. unfold col. destruct (cols !! i) as [s|] eqn:E.
  - rewrite (list_lookup_total_correct _ _ _ E).
    by eapply (Forall_lookup_1 _ _ _ _ H).
  - by rewrite list_lookup_total_alt, E.
Qed.

(** The values of a play come from the cleaned cells, but for the
    inning. *)
Lemma make_play_is_ascii (inning : string) (cols : list string)
    (k v : string) :
  Forall (λ s, is_ascii s = true) cols →
  make_play inning cols !! k = Some v → k ≠ "Inning" → is_ascii v = true.
Proof.
  intros Hcols Hk Hne. apply elem_of_list_to_map_2 in Hk.
  repeat (apply elem_of_cons in Hk as [Hk|Hk];
          [injection Hk as -> ->;
           first [done | by apply col_is_ascii
                 | by apply clean_go_is_ascii, col_is_ascii
                 | by destruct (10 <? length cols)%nat;
                   [apply col_is_ascii|] ]|]).
  by apply elem_of_nil in Hk.
Qed.

Lemma make_play_has_key (inning : string) (cols : list string) (k : string) :
  k ∈ tail headers → is_Some (make_play inning cols !! k).
Proof.
  unfold headers. cbn [tail]. intros Hk.
  repeat (apply elem_of_cons in Hk as [->|Hk]; [by eexists|]).
  by apply elem_of_nil in Hk.
Qed.

(** The rows that give a play. *)
Definition is_play_row (row : tr) : bool := (10 <=? length (tds row))%nat.

Lemma extract_go_length (rows : list tr) :
  ∀ inning,
    length (extract_inning_info_go inning rows)
    = length (filter (λ row, is_play_row row = true) rows).
Proof.
  induction rows as [|row rows IH]; intros inning; [done|].
  cbn [extract_inning_info_go].
  destruct (10 <=? length (tds row))%nat eqn:E.
  - rewrite filter_cons_True by exact E. cbn [length]. by rewrite IH.
  - rewrite filter_cons_False by (unfold is_play_row; by rewrite E). apply IH.
Qed.

Lemma extract_go_plays (rows : list tr) :
  ∀ inning,
    Forall (λ p, (∀ k, is_Some (p !! k) ↔ k ∈ tail headers)
                 ∧ ∀ k v, p !! k = Some v → k ≠ "Inning" → is_ascii v = true)
           (extract_inning_info_go inning rows).
Proof.
  induction rows as [|row rows IH]; intros inning;
    cbn [extract_inning_info_go]; [by constructor|].
  destruct (10 <=? length (tds row))%nat; [|apply IH].
  constructor; [|apply IH]. split.
  - intros k. split; [apply Hw2Facts.make_play_keys|apply make_play_has_key].
  - intros k v. apply make_play_is_ascii.
    apply Forall_fmap, Forall_forall. intros s _. apply ascii_only_is_ascii.
Qed.

(** Without an inning cell above them, the plays have no inning. *)
Lemma extract_go_no_inning (rows : list tr) (inning : string) :
  Forall (λ row, inning_cell row = None) rows →
  Forall (λ p, p !! "Inning" = Some inning)
         (extract_inning_info_go inning rows).
Proof.
  induction rows as [|row rows IH]; intros H;
    cbn [extract_inning_info_go]; [by constructor|].
  apply Forall_cons in H as [Hrow H]. rewrite Hrow.
  destruct (10 <=? length (tds row))%nat; [|by apply IH].
  constructor; [done|by apply IH].
Qed.

End ExtractFacts.

(** X2: [extract_inning_info] gives one play for each row of the table
    that has ten cells or more, and nothing for the other rows.  Every
    play has the twelve keys of the header after [Index], no other key,
    and all its values but the inning are free of characters above 127;
    a row of exactly ten cells gives an empty description, and the plays
    of a table without an inning cell have an empty inning. *)
Theorem extract_inning_info_plays (table : list Hw2.tr) :
  length (Hw2.extract_inning_info table)
  = length (filter (λ row, (10 ≤ length (Hw2.tds row))%nat) table)
  ∧ Forall (λ p, (∀ k, is_Some (p !! k) ↔ k ∈ tail Hw2.headers)
                 ∧ ∀ k v, p !! k = Some v → k ≠ "Inning" →
                          ExtractFacts.is_ascii v = true)
           (Hw2.extract_inning_info table)
  ∧ (∀ inning cols, length cols = 10%nat →
       Hw2.make_play inning cols !! "Description" = Some "")
  ∧ (Forall (λ row, Hw2.inning_cell row = None) table →
     Forall (λ p, p !! "Inning" = Some "") (Hw2.extract_inning_info table)).
Proof.
  split; [|split; [|split]]; [| | |apply ExtractFacts.extract_go_no_inning].
  - unfold Hw2.extract_inning_info. rewrite ExtractFacts.extract_go_length.
    f_equal. apply list_filter_iff. intros row. unfold ExtractFacts.is_play_row.
    by rewrite Nat.leb_le.
  - apply ExtractFacts.extract_go_plays.
  - intros inning cols Hlen. unfold Hw2.make_play.
    cbn. by rewrite Hlen.
Qed.

Lemma extract_inning_info_plays_witness :
  Hw2.make_play "t1" ["0-0"; "0"; "---"; "3,(1-1) CBX"; ""; "NYY"; "A. Judge";
                      "C. Sale"; "-2%"; "52%"] !! "Description"
  = Some ""
  ∧ Forall (λ p, p !! "Inning" = Some "")
           (Hw2.extract_inning_info
              [ {| Hw2.inning_cell := None;
                   Hw2.tds := ["0-0"; "0"; "---"; "3,(1-1) CBX"; ""; "NYY";
                               "A. Judge"; "C. Sale"; "-2%"; "52%"] |} ]).
Proof.
  split.
  - by apply (proj1 (proj2 (proj2 (extract_inning_info_plays [])))).
  - apply extract_inning_info_plays. by repeat constructor.
Defined.

Module CheckpointFacts.
Import Py PyFacts Rt Hw2 Hw2Loop.

(** The lines read back after a URL is appended to a terminated text:
    the lines of the text, and the URL. *)
Lemma lines_after_mark (text url : string) :
  terminated text → one_line url = true →
  splitlines (universal_newlines (text +:+ url +:+ String LF ""))
  = splitlines (universal_newlines text) ++ [url].
Proof.
  intros Ht Hu. unfold splitlines, universal_newlines.
  destruct Ht as [->|[t ->]].
  - cbn [String.append]. rewrite (translate_one_line url) by done.
    cbn [translate]. by rewrite splitlines_go_one_line.
  - rewrite app_assoc. cbn [String.append]. rewrite translate_app_lf.
    rewrite (translate_one_line url) by done. cbn [translate].
    destruct (translate_terminated t false) as [[u ->]|[? _]]; [|done].
    rewrite app_assoc. cbn [String.append].
    by rewrite splitlines_go_app_lf, (splitlines_go_one_line url).
Qed.

Lemma bool_decide_snoc (x y : string) (l : list string) :
  bool_decide (x ∈ l ++ [y]) = bool_decide (x ∈ l) || bool_decide (x = y).
Proof.
  rewrite <- bool_decide_or. apply bool_decide_ext.
  by rewrite elem_of_app, list_elem_of_singleton.
Qed.

End CheckpointFacts.

(** X3: in [hw2-download.py], on a checkpoint file that is absent, empty
    or ended by a line feed, marking a URL of one line adds that URL, and
    nothing else, to what the check finds: afterwards another URL is
    found when it was found before or is the URL that was marked.  What
    was processed stays processed. *)
Theorem marking_adds_one_url (url other : string) (b : bool)
    (w : Rt.world Hw2.page string) :
  Hw2.one_line url = true →
  match Rt.files w !! Hw2.processed_file with
  | Some text => Hw2.terminated text
  | None => True
  end →
  Rt.out (Hw2.is_url_processed other w) = Rt.Ret b →
  Rt.out ((Hw2.mark_url_as_processed url
           ≫= λ _, Hw2.is_url_processed other) w)
  = Rt.Ret (b || bool_decide (other = url)).
Proof.
  intros Hu Hw Hb. revert Hb.
  cbv [mbind Rt.M_bind Rt.bind Hw2.mark_url_as_processed Hw2.is_url_processed
       Hw2.append_file Rt.read_file Rt.write_file Rt.ret
       Rt.out Rt.final Rt.events Rt.files].
  destruct w as [n s fs]. cbn [Rt.files] in Hw. cbn beta iota.
  rewrite lookup_insert_eq.
  destruct (fs !! Hw2.processed_file) as [text|]; cbn [default].
  - intros [= <-]. f_equal.
    rewrite CheckpointFacts.lines_after_mark by done.
    apply CheckpointFacts.bool_decide_snoc.
  - intros [= <-]. f_equal.
    rewrite (CheckpointFacts.lines_after_mark "" url) by (done || by left).
    apply CheckpointFacts.bool_decide_snoc.
Qed.

Lemma marking_adds_one_url_witness :
  Rt.out ((Hw2.mark_url_as_processed "https://x/b.shtml"
           ≫= λ _, Hw2.is_url_processed "https://x/y.shtml")
            (Hw2Samples.checkpoint "https://x/y.shtml
"))
  = Rt.Ret true.
Proof.
  apply (marking_adds_one_url "https://x/b.shtml" "https://x/y.shtml" true).
  - by vm_compute.
  - vm_compute. right. by exists "https://x/y.shtml".
  - by vm_compute.
Defined.

Module GameFacts.
Import Py Rt RtFacts SpotracFacts Hw2.

(** The check looks at the files only. *)
Lemma is_url_processed_asked (url : string) (w : world page string) :
  out (is_url_processed url (asked w)) = out (is_url_processed url w).
Proof.
  unfold is_url_processed, asked.
  cbv [mbind M_bind bind read_file out final events]. cbn [files].
  by destruct (files w !! processed_file).
Qed.

(** The loop over games that are all marked. *)
Lemma skipped_games (urls : list string) (all : list play)
    (w : world page string) :
  Forall (λ url, out (is_url_processed url w) = Ret true) urls →
  ∀ start,
    for_each (enumerate start urls) scrape_game all w
    = {| events := (λ url, Print ("Skipping already processed game: " +:+ url))
                   <$> urls;
         final := w; out := Ret all |}.
Proof.
  induction urls as [|url urls IH]; intros H start; [done|].
  apply Forall_cons in H as [Hurl H].
  rewrite Hw2Facts.enumerate_cons. cbn [for_each]. unfold bind.
  rewrite (Hw2Loop.hw2_processed_is_skipped _ _ _ _ Hurl).
  cbn [out final events]. by rewrite IH.
Qed.

Lemma all_processed_run (st : Z) (body : page) (w : world page string) :
  net w (sent w) league_schedule_url = Reply st body →
  Forall (λ href, out (is_url_processed (base_url +:+ href) w) = Ret true)
         (boxscore_links body) →
  main w
  = {| events :=
         Get league_schedule_url
         :: ((λ href, Print ("Skipping already processed game: "
                             +:+ base_url +:+ href))
               <$> boxscore_links body)
         ++ [Print "No play-by-play data to write."];
       final := asked w; out := Ret tt |}.
Proof.
  intros Hnet Hall. apply FileFacts.sat_run.
  unfold main, scrape_all_games, get_game_urls.
  sat_step. sat_step. sat_step. rewrite Hnet. cbn beta iota.
  sat_step. cbn beta iota. sat_step. cbn [fst snd]. unfold sat at 1.
  rewrite (skipped_games _ [] (asked w)).
  - cbn [out final events]. sat_steps. split; [|done].
    cbn [app]. by rewrite <- list_fmap_compose.
  - apply Forall_fmap. eapply Forall_impl; [exact Hall|].
    intros href Hp. unfold compose. by rewrite is_url_processed_asked.
Qed.

End GameFacts.

(** X4: what [scrape_all_games] does with a game that is not marked and
    whose page is served.  When the page has no play-by-play table, or a
    table without a play, the game is reported, the run sleeps and goes
    on, and the checkpoint file is left as it is: the game is requested
    again by the next run.  When the table has plays, they are added to
    the plays of the run, the URL is appended to the checkpoint file as a
    line, and the run sleeps. *)
Theorem scrape_game_runs (i : Z) (url : string) (all : list Hw2.play)
    (st : Z) (body : Hw2.page) (w : Rt.world Hw2.page string) :
  Rt.out (Hw2.is_url_processed url w) = Rt.Ret false →
  Rt.net w (Rt.sent w) url = Rt.Reply st body →
  let plays := default [] (Hw2.extract_inning_info <$> Hw2.play_by_play body) in
  let scraping :=
    Rt.Print (Py.str_int i +:+ ". Scraping play-by-play data from " +:+ url) in
  Hw2.scrape_game (i, url) all w
  = match plays with
    | [] =>
        {| Rt.events :=
             [scraping; Rt.Get url;
              Rt.Print ("No play-by-play data found for " +:+ url);
              Rt.Sleep (Rt.Seconds 5)];
           Rt.final := Rt.asked w; Rt.out := Rt.Ret all |}
    | _ =>
        {| Rt.events := [scraping; Rt.Get url; Rt.Sleep (Rt.Seconds 5)];
           Rt.final :=
             {| Rt.net := Rt.net w; Rt.sent := S (Rt.sent w);
                Rt.files :=
                  <[Hw2.processed_file :=
                      default "" (Rt.files w !! Hw2.processed_file)
                      +:+ url +:+ String Py.LF ""]> (Rt.files w) |};
           Rt.out := Rt.Ret (all ++ plays) |}
    end.
Proof.
  intros Hp Hnet plays scraping. subst plays scraping.
  unfold Hw2.scrape_game. cbn [fst snd].
  destruct (Hw2Loop.is_url_processed_run url w) as [b Hb].
  rewrite Hb in Hp. cbn [Rt.out] in Hp. injection Hp as ->.
  cbv [mbind Rt.M_bind]. unfold Rt.bind at 1. rewrite Hb.
  cbn [Rt.out Rt.final Rt.events app].
  unfold Hw2.scrape_single_game.
  cbv [mbind Rt.M_bind Rt.bind Rt.requests_get Rt.print Rt.sleep Rt.emit
       Rt.ret Rt.out Rt.final Rt.events].
  rewrite Hnet. cbn [fst snd Rt.out Rt.final Rt.events app].
  destruct (Hw2.play_by_play body) as [t|]; cbn [fmap option_fmap option_map default].
  - destruct (Hw2.extract_inning_info t) as [|p ps]; [done|].
    cbv [Hw2.mark_url_as_processed Hw2.append_file mbind Rt.M_bind Rt.bind
         Rt.read_file Rt.write_file Rt.ret Rt.out Rt.final Rt.events
         Rt.files Rt.net Rt.sent].
    done.
  - done.
Qed.

Lemma scrape_game_runs_witness :
  Rt.out (Hw2.scrape_game (1, "https://x/a.shtml") []
            (Hw2Samples.checkpoint ""))
  = Rt.Ret [].
Proof.
  by rewrite (scrape_game_runs 1 "https://x/a.shtml" [] 404 Hw2Samples.no_page
                (Hw2Samples.checkpoint "")).
Defined.

(** X5: when every box score the schedule links to is marked in the
    checkpoint file, the run requests the schedule and nothing else:
    each game is reported as skipped, no file is written, and the run
    ends with the message that there is nothing to write. *)
Theorem processed_games_are_not_requested (st : Z) (body : Hw2.page)
    (w : Rt.world Hw2.page string) :
  Rt.net w (Rt.sent w) Hw2.league_schedule_url = Rt.Reply st body →
  Forall (λ href, Rt.out (Hw2.is_url_processed (Hw2.base_url +:+ href) w)
                  = Rt.Ret true)
         (Hw2.boxscore_links body) →
  Hw2.main w
  = {| Rt.events :=
         Rt.Get Hw2.league_schedule_url
         :: ((λ href, Rt.Print ("Skipping already processed game: "
                                +:+ Hw2.base_url +:+ href))
               <$> Hw2.boxscore_links body)
         ++ [Rt.Print "No play-by-play data to write."];
       Rt.final := Rt.asked w; Rt.out := Rt.Ret tt |}.
Proof.
  apply GameFacts.all_processed_run.
Qed.

Lemma processed_games_are_not_requested_witness :
  Rt.events (Hw2.main
               {| Rt.net := λ _ _,
                    Rt.Reply 200 {| Hw2.boxscore_links := ["/boxes/a.shtml"];
                                    Hw2.play_by_play := None |};
                  Rt.sent := 0;
                  Rt.files :=
                    {[ Hw2.processed_file :=
                         "https://www.baseball-reference.com/boxes/a.shtml
" ]} |})
  = [Rt.Get Hw2.league_schedule_url;
     Rt.Print "Skipping already processed game: https://www.baseball-reference.com/boxes/a.shtml";
     Rt.Print "No play-by-play data to write."].
Proof.
  rewrite (processed_games_are_not_requested 200
             {| Hw2.boxscore_links := ["/boxes/a.shtml"];
                Hw2.play_by_play := None |}); [done|done|].
  repeat constructor.
Defined.

(* ===================================================================== *)
(** * The rookie contract scripts: draft years, rows that are left, runs
      without an answer *)
(* ===================================================================== *)

Module StripFacts.
Import Py.

Lemma lstrip_idem (s : string) : lstrip (lstrip s) = lstrip s.
Proof.
  induction s as [|c s IH]; [done|]. cbn [lstrip].
  destruct (is_space c) eqn:E; [done|]. cbn [lstrip]. by rewrite E.
Qed.

Lemma rstrip_idem (s : string) : rstrip (rstrip s) = rstrip s.
Proof.
  induction s as [|c s IH]; [done|]. cbn [rstrip].
  destruct (rstrip s) as [|d r] eqn:E.
  - destruct (is_space c) eqn:Ec; [done|]. cbn [rstrip]. by rewrite Ec.
  - change (rstrip (String c (String d r)))
      with (match rstrip (String d r) with
            | EmptyString =>
                if is_space c then EmptyString else String c EmptyString
            | r' => String c r'
            end).
    by rewrite IH.
Qed.

(** What [rstrip] leaves unchanged, [lstrip] leaves so. *)
Lemma rstrip_lstrip (s : string) :
  rstrip s = s → rstrip (lstrip s) = lstrip s.
Proof.
  induction s as [|c s IH]; [done|]. intros H.
  assert (rstrip s = s) as Hs.
  { cbn [rstrip] in H. destruct (rstrip s) as [|d r] eqn:E.
    - destruct (is_space c); [done|]. by injection H as <-.
    - by injection H as <-. }
  cbn [lstrip]. destruct (is_space c); [by apply IH|done].
Qed.

Lemma strip_idem (s : string) : strip (strip s) = strip s.
Proof.
  unfold strip. rewrite (rstrip_lstrip (rstrip s)) by apply rstrip_idem.
  apply lstrip_idem.
Qed.

Lemma char_in_lstrip (c : ascii) (s : string) :
  char_in c s = false → char_in c (lstrip s) = false.
Proof.
  induction s as [|d s IH]; [done|]. cbn [lstrip char_in].
  intros [Hd Hs]%orb_false_iff.
  destruct (is_space d); [by apply IH|]. cbn [char_in]. by rewrite Hd, Hs.
Qed.

Lemma char_in_rstrip (c : ascii) (s : string) :
  char_in c s = false → char_in c (rstrip s) = false.
Proof.
  induction s as [|d s IH]; [done|]. cbn [rstrip char_in].
  intros [Hd Hs]%orb_false_iff. specialize (IH Hs).
  destruct (rstrip s) as [|e r].
  - destruct (is_space d); [done|]. cbn [char_in]. by rewrite Hd.
  - cbn [char_in] in *. by rewrite Hd, IH.
Qed.

Lemma char_in_strip (c : ascii) (s : string) :
  char_in c s = false → char_in c (strip s) = false.
Proof. intros H. by apply char_in_lstrip, char_in_rstrip. Qed.

Lemma char_in_app (c : ascii) (a b : string) :
  char_in c (a +:+ b) = char_in c a || char_in c b.
Proof.
  induction a as [|d a IH]; [done|]. cbn [String.append char_in].
  by rewrite IH, orb_assoc.
Qed.

Lemma char_in_last_segment_go (sep : ascii) (s : string) :
  ∀ cur, char_in sep cur = false →
         char_in sep (last_segment_go sep cur s) = false.
Proof.
  induction s as [|c s IH]; intros cur Hcur; [done|].
  cbn [last_segment_go]. destruct (Ascii.eqb_spec c sep) as [->|Hne].
  - by apply IH.
  - apply IH. rewrite char_in_app, Hcur. cbn [char_in orb].
    rewrite orb_false_r. by apply Ascii.eqb_neq.
Qed.

End StripFacts.

(** X6: the draft year [scrape_draft_year_from_spotrac] finds on a
    player's page is taken from the first block that mentions [Drafted:]
    and has the highlighted span: it is what follows the last comma of
    the span, without white space around it.  So it has no comma in it
    and stripping it again changes nothing. *)
Theorem draft_year_is_trimmed (ds : list Spotrac.div) (y : string) :
  Spotrac.find_draft_year ds = Some y →
  Py.strip y = y
  ∧ Py.char_in Py.COMMA y = false
  ∧ ∃ d info,
      d ∈ ds ∧ Py.contains "Drafted:" (Spotrac.div_text d) = true
      ∧ Spotrac.draft_span d = Some info
      ∧ y = Py.strip (Py.last_segment Py.COMMA info).
Proof.
  induction ds as [|d ds IH]; [done|]. cbn [Spotrac.find_draft_year].
  assert (Hrest : Spotrac.find_draft_year ds = Some y →
            Py.strip y = y ∧ Py.char_in Py.COMMA y = false
            ∧ ∃ d' info,
                d' ∈ d :: ds
                ∧ Py.contains "Drafted:" (Spotrac.div_text d') = true
                ∧ Spotrac.draft_span d' = Some info
                ∧ y = Py.strip (Py.last_segment Py.COMMA info)).
  { intros H. destruct (IH H) as (H1 & H2 & d' & info & Hin & H3).
    split; [done|]. split; [done|]. exists d', info.
    split; [by right|done]. }
  destruct (Py.contains "Drafted:" (Spotrac.div_text d)) eqn:Hd; [|done].
  destruct (Spotrac.draft_span d) as [info|] eqn:Hs; [|done].
  intros [= <-]. split; [apply StripFacts.strip_idem|]. split.
  - apply StripFacts.char_in_strip.
    by apply StripFacts.char_in_last_segment_go.
  - exists d, info. split; [left|done].
Qed.

Lemma draft_year_is_trimmed_witness :
  Py.strip "2018" = "2018".
Proof.
  by apply (draft_year_is_trimmed (Spotrac.divs Samples.profile) "2018").
Defined.

Module ListingFacts.
Import Py Rt RtFacts SpotracFacts Spotrac FailureFacts.





Lemma fetch_year_refused (year : Z) (all : list (list string))
    (w : world page string) :
  refused (net w (sent w) (YearToYear.listing_url year)) = true →
  YearToYear.fetch_year year all w
  = {| events := [Get (YearToYear.listing_url year);
                  PrintExn "Error fetching data from URL: "
                  (failure (net w (sent w) (YearToYear.listing_url year)))];
       final := asked w; out := Ret all |}.
Proof.
  intros Hr. unfold YearToYear.fetch_year. cbv [mbind M_bind]. unfold bind.
  by rewrite fetch_extension_data_refused.
Qed.

(** The years of a run in which every request fails. *)
Lemma refused_years (years : list Z) (all : list (list string))
    (w : world page string) :
  (∀ n url, refused (net w n url) = true) →
  let r := for_each years YearToYear.fetch_year all w in
  out r = Ret all
  ∧ urls (events r) = YearToYear.listing_url <$> years
  ∧ sleeps (events r) = 0%nat
  ∧ files (final r) = files w ∧ net (final r) = net w.
Proof.
  revert all w. induction years as [|year years IH]; intros all w Hw; [done|].
  cbn [for_each]. cbn zeta. unfold bind.
  rewrite fetch_year_refused by apply Hw. cbn [out final events].
  destruct (IH all (asked w) Hw) as (Ho & Hu & Hs & Hf & Hn).
  rewrite Ho. cbn [out final events].
  split; [done|]. split; [|split; [|done]].
  - unfold urls in *. cbn [app omap list_omap fmap list_fmap]. f_equal.
    exact Hu.
  - cbn [app]. rewrite !sleeps_cons. cbn [is_sleep]. exact Hs.
Qed.

Lemma urls_app (a b : list event) : urls (a ++ b) = urls a ++ urls b.
Proof. apply omap_app. Qed.

Lemma refused_main (answer1 answer2 : string) (start_year end_year : Z)
    (w : world page string) :
  int answer1 = Some start_year → int answer2 = Some end_year →
  start_year <= end_year →
  (∀ n url, refused (net w n url) = true) →
  let r := YearToYear.main answer1 answer2 w in
  out r = Ret tt
  ∧ urls (events r)
    = YearToYear.listing_url <$> seqZ start_year (end_year + 1 - start_year)
  ∧ sleeps (events r) = 0%nat
  ∧ files (final r)
    = <[YearToYear.csv_name start_year end_year := Csv.writerow headers]>
        (files w).
Proof.
  intros H1 H2 Hle Hw.
  assert (sat (YearToYear.main answer1 answer2) w (λ t w' o,
            o = Ret tt
            ∧ urls t = YearToYear.listing_url
                       <$> seqZ start_year (end_year + 1 - start_year)
            ∧ sleeps t = 0%nat
            ∧ files w'
              = <[YearToYear.csv_name start_year end_year :=
                    Csv.writerow headers]> (files w))) as H; [|exact H].
  unfold YearToYear.main, input, print.
  sat_steps. rewrite H1. sat_steps. rewrite H2.
  replace (start_year >? end_year) with false
    by (symmetry; rewrite Z.gtb_ltb; apply Z.ltb_ge; lia).
  sat_steps.
  destruct (refused_years (seqZ start_year (end_year + 1 - start_year)) [] w Hw)
    as (Ho & Hu & Hs & Hf & Hn).
  unfold sat at 1. rewrite Ho.
  unfold YearToYear.create_csv, Spotrac.write_csv, print. sat_steps.
  split; [done|]. split; [|split].
  - rewrite !urls_app, Hu. cbn. by rewrite app_nil_r.
  - rewrite !sleeps_app, Hs. done.
  - cbn [files]. rewrite Hf. cbn [Csv.writerows]. by rewrite PyFacts.app_nil_r.
Qed.

End ListingFacts.



(** X8: when every request fails, [year_to_year_download.py] with a valid
    range of years still comes to its end: it requests the listing of
    each year once, in order, never sleeps, and writes a file that holds
    the header row only. *)
Theorem refused_run_writes_header_only (answer1 answer2 : string)
    (start_year end_year : Z) (w : Rt.world Spotrac.page string) :
  Py.int answer1 = Some start_year → Py.int answer2 = Some end_year →
  start_year <= end_year →
  (∀ n url, Rt.refused (Rt.net w n url) = true) →
  let r := YearToYear.main answer1 answer2 w in
  Rt.out r = Rt.Ret tt
  ∧ Rt.urls (Rt.events r)
    = YearToYear.listing_url <$> seqZ start_year (end_year + 1 - start_year)
  ∧ Rt.sleeps (Rt.events r) = 0%nat
  ∧ Rt.files (Rt.final r)
    = <[YearToYear.csv_name start_year end_year :=
          Csv.writerow Spotrac.headers]> (Rt.files w).
Proof.
  apply ListingFacts.refused_main.
Qed.

Lemma refused_run_writes_header_only_witness :
  Rt.files (Rt.final (YearToYear.main "1999" "2000"
                        {| Rt.net := λ _ _, Rt.Unreachable "Connection refused";
                           Rt.sent := 0; Rt.files := ∅ |}))
  = <["rooks1999-2000.csv" := Csv.writerow Spotrac.headers]> ∅.
Proof.
  by apply (refused_run_writes_header_only "1999" "2000" 1999 2000
              {| Rt.net := λ _ _, Rt.Unreachable "Connection refused";
                 Rt.sent := 0; Rt.files := ∅ |}).
Defined.

(** X9: when the request for the listing fails,
    [alltime_rookie_contracts.py] reports it and still writes its file,
    with the header row only. *)
Theorem alltime_refused_run (w : Rt.world Spotrac.page string) :
  Rt.refused (Rt.net w (Rt.sent w) AllTime.url) = true →
  AllTime.main w
  = {| Rt.events :=
         [Rt.Get AllTime.url;
          Rt.PrintExn "Error fetching data from URL: "
                  (FailureFacts.failure (Rt.net w (Rt.sent w) AllTime.url));
          Rt.Print "Data has been written to rooks_all_time.csv"];
       Rt.final :=
         {| Rt.net := Rt.net w; Rt.sent := S (Rt.sent w);
            Rt.files := <["rooks_all_time.csv" := Csv.writerow Spotrac.headers]>
                          (Rt.files w) |};
       Rt.out := Rt.Ret tt |}.
Proof.
  intros Hr. unfold AllTime.main. cbv [mbind Rt.M_bind]. unfold Rt.bind.
  rewrite FailureFacts.fetch_all_time_refused by done.
  cbn [Rt.out Rt.final Rt.events].
  unfold AllTime.create_csv, Spotrac.write_csv.
  cbv [mbind Rt.M_bind Rt.bind Rt.write_file Rt.print Rt.emit Rt.asked
       Rt.out Rt.final Rt.events Rt.files Rt.net Rt.sent].
  cbn [Csv.writerows app]. by rewrite PyFacts.app_nil_r.
Qed.

Lemma alltime_refused_run_witness :
  Rt.out (AllTime.main (Samples.world_of [])) = Rt.Ret tt.
Proof. by rewrite (alltime_refused_run (Samples.world_of [])). Defined.

(* ===================================================================== *)
(** * [cbb_stat_scraper.py]: the search, the stats, the files *)
(* ===================================================================== *)

Module SearchFacts.
Import Py Rt Cbb.

(** Does the link match the two names, by its address or by its text? *)
Definition matches (first_name last_name : string) (link : anchor) : bool :=
  let h := lower (default "" (href link)) in
  let t := strip (remove_char "." (lower (text link))) in
  (contains last_name h && contains first_name h)
  || (contains last_name t && contains first_name t).

Lemma find_profile_first (first_name last_name : string)
    (links : list anchor) :
  match find_profile first_name last_name links with
  | Some url =>
      ∃ before link after,
        links = before ++ link :: after
        ∧ Forall (λ a, matches first_name last_name a = false) before
        ∧ matches first_name last_name link = true
        ∧ url = "https://www.sports-reference.com"
                +:+ default "None" (href link)
  | None => Forall (λ a, matches first_name last_name a = false) links
  end.
Proof.
  induction links as [|link links IH]; [by constructor|].
  cbn [find_profile]. fold (matches first_name last_name link).
  destruct (matches first_name last_name link) eqn:E.
  - exists [], link, links. by repeat split.
  - destruct (find_profile first_name last_name links) as [url|].
    + destruct IH as (before & l & after & -> & Hb & Hl & ->).
      exists (link :: before), l, after. repeat split; [|done].
      by constructor.
    + by constructor.
Qed.

End SearchFacts.

(** X10: [search_player_profile] returns the address of the first link
    of the index page that has both names, lowered and without periods,
    in its address or in its text; the links before it have not.  The
    address is the site's followed by the link's [href], or by [None]
    when a link that matches by its text has no [href].  It returns
    [None] when no link matches.  Either way one message is printed, and
    nothing else happens. *)
Theorem search_finds_first_match (soup : Cbb.page) (first_name last_name : string)
    (w : Rt.world Cbb.page Pandas.table) :
  let r := Cbb.search_player_profile soup first_name last_name w in
  let found := SearchFacts.matches (Cbb.name_key first_name)
                                   (Cbb.name_key last_name) in
  Rt.final r = w
  ∧ (∃ message, Rt.events r = [Rt.Print message])
  ∧ match Rt.out r with
    | Rt.Ret (Some url) =>
        ∃ before link after,
          Cbb.anchors soup = before ++ link :: after
          ∧ Forall (λ a, found a = false) before
          ∧ found link = true
          ∧ url = "https://www.sports-reference.com"
                  +:+ default "None" (Cbb.href link)
    | Rt.Ret None => Forall (λ a, found a = false) (Cbb.anchors soup)
    | Rt.Raise _ => False
    end.
Proof.
  cbn zeta. unfold Cbb.search_player_profile.
  pose proof (SearchFacts.find_profile_first (Cbb.name_key first_name)
                (Cbb.name_key last_name) (Cbb.anchors soup)) as H.
  destruct (Cbb.find_profile _ _ _) as [url|];
    cbv [mbind Rt.M_bind Rt.bind Rt.print Rt.emit Rt.ret
         Rt.out Rt.final Rt.events];
    (split; [done|]); (split; [by eexists|done]).
Qed.

Module StatsFacts.
Import Py Rt Cbb.










End StatsFacts.



Module ProcessedFacts.
Import Py Rt Pandas Cbb.

Section Inference.
Context (inf : inference).



End Inference.

End ProcessedFacts.

(** X12: [is_player_processed] on the four states of the checkpoint
    file.  Without the file, the answer is no.  A file without a record,
    not even a header, raises [EmptyDataError].  A file whose header has
    no column [Player] is replaced by a file that holds that header
    alone, its records being lost, and the answer is no.  A file that has
    the column is left as it is, whatever the answer. *)
Theorem is_player_processed_cases (inf : Pandas.inference)
    (player_name path : string) (w : Rt.world Cbb.page Pandas.table) :
  let r := Cbb.is_player_processed inf player_name path w in
  Rt.events r = []
  ∧ match Rt.files w !! path with
    | None => Rt.final r = w ∧ Rt.out r = Rt.Ret false
    | Some [] => Rt.final r = w ∧ Rt.out r = Rt.Raise Rt.EmptyDataError
    | Some (header :: records) =>
        if bool_decide ("Player" ∈ header)
        then Rt.final r = w ∧ ∃ b, Rt.out r = Rt.Ret b
        else Rt.files (Rt.final r) = <[path := [["Player"]]]> (Rt.files w)
             ∧ Rt.out r = Rt.Ret false
    end.
Proof.
  cbn zeta. unfold Cbb.is_player_processed.
  cbv [mbind Rt.M_bind Rt.bind Rt.read_file Rt.out Rt.final Rt.events].
  destruct (Rt.files w !! path) as [[|header records]|]; [done| |done].
  cbn [Pandas.read_csv]. unfold Pandas.column. cbn [Pandas.columns].
  destruct (decide ("Player" ∈ header)) as [Hin|Hin].
  - rewrite bool_decide_eq_true_2 by done.
    destruct (Pandas.index_of "Player" header) as [i|] eqn:Hi.
    + cbn. split; [done|]. split; [done|by eexists].
    + exfalso. clear -Hin Hi. induction header as [|h header IH].
      * by apply elem_of_nil in Hin.
      * cbn [Pandas.index_of] in Hi.
        destruct (String.eqb_spec h "Player") as [->|Hne]; [done|].
        apply elem_of_cons in Hin as [Heq|Hin]; [congruence|].
        destruct (Pandas.index_of "Player" header); [done|]. by apply IH.
  - rewrite bool_decide_eq_false_2 by done.
    rewrite FileFacts.index_of_None by done. by cbn.
Qed.



(** X14: once the request for the index page of a letter has succeeded,
    the page is kept: asking for the same letter again makes no request.
    Players that follow one another with the same initial share one
    request for their index page. *)
Theorem index_page_is_kept (first_letter : string) (v : Cbb.vars)
    (body : Cbb.page) (w : Rt.world Cbb.page Pandas.table) :
  let url := "https://www.sports-reference.com/cbb/players/"
             +:+ first_letter +:+ "-index.html" in
  first_letter ≠ Cbb.current_letter v →
  Rt.net w (Rt.sent w) url = Rt.Reply 200 body →
  ∃ v',
    Cbb.open_index first_letter v w
    = {| Rt.events := [Rt.Get url;
                       Rt.Print ("Successfully navigated to " +:+ url)];
         Rt.final := Rt.asked w; Rt.out := Rt.Ret (Some v') |}
    ∧ Cbb.soup v' = Some body
    ∧ Cbb.current_letter v' = first_letter
    ∧ Cbb.first_player v' = Cbb.first_player v
    ∧ ∀ w', Cbb.open_index first_letter v' w'
            = {| Rt.events := []; Rt.final := w'; Rt.out := Rt.Ret (Some v') |}.
Proof.
  intros url Hl Hnet.
  exists {| Cbb.first_player := Cbb.first_player v;
            Cbb.current_letter := first_letter;
            Cbb.soup := Some body |}.
  split; [|split; [done|split; [done|split; [done|]]]].
  - unfold Cbb.open_index.
    destruct (String.eqb_spec first_letter (Cbb.current_letter v)); [done|].
    cbv [mbind Rt.M_bind Rt.bind Rt.requests_get Rt.print Rt.emit Rt.ret
         Rt.out Rt.final Rt.events].
    fold url. rewrite Hnet. done.
  - intros w'. unfold Cbb.open_index. cbn [Cbb.current_letter].
    by rewrite String.eqb_refl.
Qed.

Lemma index_page_is_kept_witness :
  ∃ v', Rt.out (Cbb.open_index "w"
                  {| Cbb.first_player := true; Cbb.current_letter := "";
                     Cbb.soup := None |}
                  {| Rt.net := λ _ _, Rt.Reply 200 CbbSamples.no_page;
                     Rt.sent := 0; Rt.files := ∅ |})
        = Rt.Ret (Some v')
        ∧ Cbb.current_letter v' = "w".
Proof.
  destruct (index_page_is_kept "w"
              {| Cbb.first_player := true; Cbb.current_letter := "";
                 Cbb.soup := None |} CbbSamples.no_page
              {| Rt.net := λ _ _, Rt.Reply 200 CbbSamples.no_page;
                 Rt.sent := 0; Rt.files := ∅ |})
    as (v' & Hrun & _ & Hl & _); [done|done|].
  exists v'. by rewrite Hrun.
Defined.

Module OutputFacts.
Import Py Rt Pandas Cbb.

Section Safe.
Context (P : gmap string table → Prop).

(** [safe I m]: the run of [m] keeps [P] of the files, and what it
    returns has [I]. *)
Definition safe {A} (I : A → Prop) (m : M A) : Prop :=
  ∀ w, P (files w) →
       P (files (final (m w)))
       ∧ match out (m w) with Ret a => I a | Raise _ => True end.





Lemma safe_mono {A} (I J : A → Prop) (m : M A) :
  safe I m → (∀ a, I a → J a) → safe J m.
Proof.
  intros Hm HIJ w Hw. destruct (Hm w Hw) as [Hf Ho]. split; [done|].
  destruct (out (m w)); [by apply HIJ|done].
Qed.






End Safe.





Section Inference.
Context (inf : inference) (old : table).












End Inference.

End OutputFacts.



(* ===================================================================== *)
(** * [nba_names.py]: the names *)
(* ===================================================================== *)

Module NamesFacts.
Import Py Rt Pandas NbaNames.




Lemma insert_row_perm (r : name_row) (l : list name_row) :
  insert_row r l ≡ₚ r :: l.
Proof.
  induction l as [|r' l IH]; [done|]. cbn [insert_row].
  destruct (last_le r' r); [|done]. rewrite IH. apply Permutation_swap.
Qed.


Lemma sort_rows_perm (rows : list name_row) : sort_rows rows ≡ₚ rows.
Proof.
  unfold sort_rows. rewrite <- (reverse_Permutation rows) at 2.
  induction (reverse rows) as [|r l IH]; [done|]. cbn [foldr].
  by rewrite insert_row_perm, IH.
Qed.



End NamesFacts.



Module NamesFileFacts.
Import Py Rt RtFacts SpotracFacts Pandas NbaNames.

Lemma index_of_is_Some (name : string) (names : list string) :
  name ∈ names → is_Some (index_of name names).
Proof.
  induction names as [|n names IH]; [by intros ?%elem_of_nil|].
  intros Hin. cbn [index_of].
  destruct (String.eqb_spec n name) as [->|Hne]; [by eexists|].
  apply elem_of_cons in Hin as [Heq|Hin]; [congruence|].
  destruct (IH Hin) as [i ->]. by eexists.
Qed.

Lemma extract_player_names_run (inf : inference)
    (input_csv output_csv : string) (header : list string)
    (records : table) (w : world unit table) :
  files w !! input_csv = Some (header :: records) →
  "Player" ∈ header →
  sat (extract_player_names inf input_csv output_csv) w (λ t w' o,
    match o with
    | Ret _ =>
        ∃ rows,
          files w'
          = <[output_csv := ["First Name"; "Last Name"] :: rows]> (files w)
          ∧ length rows = length records
          ∧ Forall (λ row, length row = 2%nat) rows
          ∧ (∀ name, name ∈ ["First Name"; "Last Name"] →
               is_Some (column inf
                          {| columns := ["First Name"; "Last Name"];
                             data := rows |} name))
          ∧ t = [Print ("First and last names have been extracted, sorted, and saved to "
                        +:+ output_csv)]
    | Raise e =>
        w' = w ∧ t = []
        ∧ (e = AttributeError ∨ e = ValueError "Length mismatch")
    end).
Proof.
  intros Hin Hp. unfold extract_player_names. sat_step. sat_step.
  rewrite Hin. cbn [read_csv]. unfold column at 1. cbn [columns].
  destruct (index_of_is_Some "Player" header Hp) as [i ->].
  cbn [mbind option_bind data].
  set (values := infer_column inf _).
  assert (length values = length records) as Hlen.
  { subst values. unfold infer_column.
    destruct (forallb _ _); by rewrite !length_fmap. }
  destruct (match values with [] => true | _ => existsb is_text values end);
    [|sat_steps; auto].
  match goal with
  | |- context [existsb ?f (split_cell <$> values)] =>
      destruct (existsb f (split_cell <$> values))
  end; [|sat_steps; auto].
  sat_steps. eexists. split; [reflexivity|]. split; [|split; [|split; [|done]]].
  - rewrite length_fmap, (Permutation_length (NamesFacts.sort_rows_perm _)).
    by rewrite length_fmap.
  - apply Forall_fmap, Forall_forall. by intros row _.
  - intros name Hname. unfold column. cbn [columns].
    by destruct (index_of_is_Some name _ Hname) as [j ->].
Qed.

End NamesFileFacts.

(** X17: a run of [extract_player_names] on a file that has the column
    [Player].  When it returns, it has written the output file and
    nothing else: the header [First Name, Last Name] and then one record
    of two fields for each record of the input; these are the two columns
    [cbb_stat_scraper.py] reads from the file of that name.  Otherwise it
    leaves the files as they are, prints nothing and raises an
    [AttributeError] (the column holds no text) or a [ValueError] (no name
    has a blank). *)
Theorem names_file_has_both_columns (inf : Pandas.inference)
    (input_csv output_csv : string) (header : list string)
    (records : Pandas.table) (w : Rt.world unit Pandas.table) :
  Rt.files w !! input_csv = Some (header :: records) →
  "Player" ∈ header →
  let r := NbaNames.extract_player_names inf input_csv output_csv w in
  match Rt.out r with
  | Rt.Ret _ =>
      ∃ rows,
        Rt.files (Rt.final r)
        = <[output_csv := ["First Name"; "Last Name"] :: rows]> (Rt.files w)
        ∧ length rows = length records
        ∧ Forall (λ row, length row = 2%nat) rows
        ∧ (∀ name, name ∈ ["First Name"; "Last Name"] →
             is_Some (Pandas.column inf
                        {| Pandas.columns := ["First Name"; "Last Name"];
                           Pandas.data := rows |} name))
        ∧ Rt.events r
          = [Rt.Print ("First and last names have been extracted, sorted, and saved to "
                       +:+ output_csv)]
  | Rt.Raise e =>
      Rt.final r = w ∧ Rt.events r = []
      ∧ (e = Rt.AttributeError ∨ e = Rt.ValueError "Length mismatch")
  end.
Proof.
  apply NamesFileFacts.extract_player_names_run.
Qed.

Lemma names_file_has_both_columns_witness :
  ∃ rows,
    Rt.files (Rt.final (NbaNames.extract_player_names CbbSamples.numeric
                          "rooks.csv" "player_names_sorted.csv"
                          {| Rt.net := λ _ _, Rt.Unreachable ""; Rt.sent := 0;
                             Rt.files :=
                               {[ "rooks.csv" := [["Player"]; ["Trae Young"];
                                                  ["Luka Doncic"]] ]} |}))
      !! "player_names_sorted.csv"
    = Some (["First Name"; "Last Name"] :: rows)
    ∧ length rows = 2%nat.
Proof.
  pose proof (names_file_has_both_columns CbbSamples.numeric "rooks.csv"
                "player_names_sorted.csv" ["Player"]
                [["Trae Young"]; ["Luka Doncic"]]
                {| Rt.net := λ _ _, Rt.Unreachable ""; Rt.sent := 0;
                   Rt.files := {[ "rooks.csv" := [["Player"]; ["Trae Young"];
                                                  ["Luka Doncic"]] ]} |}
                eq_refl ltac:(by left)) as H.
  cbv zeta in H.
  change (Rt.out (NbaNames.extract_player_names _ _ _ _))
    with (@Rt.Ret unit tt) in H.
  destruct H as (rows & Hf & Hlen & _). exists rows.
  split; [|exact Hlen]. rewrite Hf. by rewrite lookup_insert_eq.
Defined.
(* ===================================================================== *)
(** * [createCSV.py]: the game files *)
(* ===================================================================== *)

Module GameFileFacts.
Import Py CreateCSV CreateCSVFacts.

(** The row of a play in its game file. *)
Definition row_of (p : play) (row : out_row) : Prop :=
  o_wp row = wp p ∧ o_posteam row = posteam p ∧ o_defteam row = defteam p
  ∧ o_posteam_score row = posteam_score p
  ∧ o_defteam_score row = defteam_score p
  ∧ score_differential_post p = Some (o_score_differential_post row).

Lemma select_row_of (v : Z) (p : play) (row : out_row) :
  select v p = Some row → row_of p row.
Proof.
  unfold select, row_of.
  destruct (score_differential_post p) as [sdp|]; [|done].
  intros [= <-]. by repeat split.
Qed.

Lemma ordered_lookup (l : list play) (i : nat) (p q : play) :
  ordered l → l !! i = Some p → l !! S i = Some q → play_id p <= play_id q.
Proof.
  revert i. induction l as [|x l IH]; intros i Hl Hp Hq; [done|].
  destruct Hl as [Hx Hl]. destruct i as [|i].
  - cbn in Hp, Hq. injection Hp as ->. apply Hx.
    by eapply list_elem_of_lookup_2.
  - by apply (IH i).
Qed.

Lemma insert_key_elem (k x : string) (l : list string) :
  x ∈ insert_key k l ↔ x = k ∨ x ∈ l.
Proof.
  induction l as [|k' l IH]; cbn [insert_key].
  - rewrite list_elem_of_singleton, elem_of_nil. tauto.
  - destruct (String.eqb_spec k k') as [->|Hne].
    + rewrite elem_of_cons. tauto.
    + destruct (String.leb k' k).
      * rewrite !elem_of_cons, IH. tauto.
      * rewrite !elem_of_cons. tauto.
Qed.

Lemma game_ids_elem (g : string) (data : list play) :
  g ∈ game_ids data ↔ ∃ p, p ∈ data ∧ game_id p = g.
Proof.
  unfold game_ids. induction data as [|p data IH].
  - cbn. split; [by intros ?%elem_of_nil|]. by intros (p & ?%elem_of_nil & _).
  - cbn [fmap list_fmap foldr]. rewrite insert_key_elem, IH. split.
    + intros [->|(q & Hq & <-)]; [exists p; by split; [left|]|].
      exists q. by split; [right|].
    + intros (q & [->|Hq]%elem_of_cons & <-); [by left|]. right. by exists q.
Qed.

Lemma mapM_select_is_Some (v : Z) (l : list play) :
  Forall (λ p, is_Some (score_differential_post p)) l →
  is_Some (mapM (select v) l).
Proof.
  intros H. apply mapM_is_Some. eapply Forall_impl; [exact H|].
  intros p [sdp Hp]. unfold compose, select. rewrite Hp. by eexists.
Qed.

Lemma game_file_is_Some (g : string) (plays : list play) :
  plays ≠ [] →
  Forall (λ p, is_Some (score_differential_post p)) plays →
  is_Some (game_file g plays).
Proof.
  intros Hne Hall. unfold game_file.
  assert (sort_values plays ≠ []) as Hs.
  { intros E. apply Hne. apply Permutation_nil_r.
    rewrite <- E. by rewrite sort_values_perm. }
  destruct (last (sort_values plays)) as [last_play|] eqn:Hlast;
    [|by apply last_None in Hlast].
  cbn [mbind option_bind].
  destruct (mapM_select_is_Some (winner_value last_play) (sort_values plays))
    as [rows Hrows].
  { by rewrite sort_values_perm. }
  rewrite Hrows. cbn [mbind option_bind].
  destruct rows as [|row rows]; [|by eexists].
  apply mapM_Some in Hrows. apply Forall2_nil_inv_r in Hrows. done.
Qed.

Lemma game_file_None (g : string) (plays : list play) :
  Forall (λ p, score_differential_post p = None) plays →
  game_file g plays = None.
Proof.
  intros Hall. unfold game_file.
  destruct (last (sort_values plays)) as [last_play|] eqn:Hlast; [|done].
  cbn [mbind option_bind].
  destruct (mapM _ _) as [rows|] eqn:Hrows; [|done]. exfalso.
  apply mapM_Some in Hrows.
  apply last_Some_elem_of in Hlast.
  apply list_elem_of_lookup in Hlast as [i Hi].
  destruct (Forall2_lookup_l _ _ _ _ _ Hrows Hi) as (row & _ & Hsel).
  assert (last_play ∈ plays) as Hin.
  { rewrite <- (sort_values_perm plays). by eapply list_elem_of_lookup_2. }
  pose proof (proj1 (Forall_forall _ _) Hall _ Hin) as Hnone.
  unfold select in Hsel. by rewrite Hnone in Hsel.
Qed.

Lemma omap_length_le {A B} (f : A → option B) (l : list A) :
  (length (omap f l) ≤ length l)%nat.
Proof.
  induction l as [|x l IH]; [done|]. cbn [omap list_omap].
  destruct (f x); cbn [length]; lia.
Qed.

Lemma Forall_plays_of (P : play → Prop) (g : string) (data : list play) :
  Forall P data → Forall P (plays_of g data).
Proof.
  rewrite !Forall_forall. intros H p Hp.
  apply list_elem_of_filter in Hp as [_ Hp]. by apply H.
Qed.

End GameFileFacts.

(** X19: [create_csv_files] writes one file for each game of the data
    when the data has the column [score_differential_post]; without it
    the exception is caught for every game and no file is written.  The
    games are the values of [game_id] in the data. *)
Theorem one_file_for_each_game (pbp_data : list CreateCSV.play) :
  (∀ g, g ∈ CreateCSV.game_ids pbp_data
        ↔ ∃ p, p ∈ pbp_data ∧ CreateCSV.game_id p = g)
  ∧ (length (CreateCSV.create_csv_files pbp_data)
     ≤ length (CreateCSV.game_ids pbp_data))%nat
  ∧ (Forall (λ p, is_Some (CreateCSV.score_differential_post p)) pbp_data →
     length (CreateCSV.create_csv_files pbp_data)
     = length (CreateCSV.game_ids pbp_data))
  ∧ (Forall (λ p, CreateCSV.score_differential_post p = None) pbp_data →
     CreateCSV.create_csv_files pbp_data = []).
Proof.
  split; [intros g; apply GameFileFacts.game_ids_elem|].
  unfold CreateCSV.create_csv_files, CreateCSV.groupby.
  split; [|split].
  - etrans; [apply GameFileFacts.omap_length_le|]. by rewrite length_fmap.
  - intros Hall.
    assert (Hfiles : Forall (λ g, is_Some (CreateCSV.game_file g
                                    (CreateCSV.plays_of g pbp_data)))
                            (CreateCSV.game_ids pbp_data)).
    { apply Forall_forall. intros g Hg.
      apply GameFileFacts.game_ids_elem in Hg as (p & Hp & Hgp).
      apply GameFileFacts.game_file_is_Some.
      - intros E. assert (p ∈ CreateCSV.plays_of g pbp_data) as Hin
          by (by apply list_elem_of_filter).
        rewrite E in Hin. by apply elem_of_nil in Hin.
      - by apply GameFileFacts.Forall_plays_of. }
    induction (CreateCSV.game_ids pbp_data) as [|g gs IH]; [done|].
    apply Forall_cons in Hfiles as [[file Hg] Hgs].
    cbn [fmap list_fmap omap list_omap fst snd]. rewrite Hg. cbn [length].
    f_equal. by apply IH.
  - intros Hall.
    induction (CreateCSV.game_ids pbp_data) as [|g gs IH]; [done|].
    cbn [fmap list_fmap omap list_omap fst snd].
    rewrite GameFileFacts.game_file_None; [exact IH|].
    by apply GameFileFacts.Forall_plays_of.
Qed.

Lemma one_file_for_each_game_witness :
  length (CreateCSV.create_csv_files NflSamples.season) = 1%nat.
Proof.
  rewrite (proj1 (proj2 (proj2 (one_file_for_each_game NflSamples.season)))).
  - by vm_compute.
  - repeat constructor; by eexists.
Defined.

(* ===================================================================== *)
(** * The rookie contract scripts: one record for each rookie row *)
(* ===================================================================== *)

Module OrderFacts.
Import Py Rt RtFacts Spotrac SpotracFacts.









End OrderFacts.


(* ===================================================================== *)
(** * [cbb_stat_scraper.py]: Larry Nance, and profiles that fail *)
(* ===================================================================== *)

Module NanceFacts.
Import Py Rt RtFacts SpotracFacts Pandas Cbb CbbFacts.

Lemma urls_quiet_0 (t : list event) : quiet 0 t → urls t = [].
Proof.
  intros [Hg _]. induction t as [|e t IH]; [done|].
  rewrite gets_cons in Hg. unfold urls in *. cbn [omap list_omap].
  destruct e; cbn [is_get] in Hg; try (apply IH; lia). lia.
Qed.

Lemma sleeps_quiet (n : nat) (t : list event) : quiet n t → sleeps t = 0%nat.
Proof. by intros [_ ?]. Qed.

(** A profile is one request, and no sleep. *)
Lemma scrape_profile_urls (player_name profile_url no_stats : string)
    (v : vars) (w : world page table) :
  sat (scrape_profile player_name profile_url no_stats v) w (λ t w' o,
    urls t = [profile_url] ∧ sleeps t = 0%nat).
Proof.
  unfold scrape_profile. sat_step. sat_step.
  destruct (net w (sent w) profile_url) as [e|st body]; cbn beta iota; [done|].
  cbn [fst snd]. destruct (st =? 200).
  - sat_step. eapply sat_mono; [apply extract_position_and_seasons_spec|].
    intros t1 w1 o1 (-> & Hq1 & ps & ->). cbn beta iota.
    sat_step. eapply sat_mono; [apply extract_career_stats_spec|].
    assert (Hpre : ∀ t2 t3, quiet 0 t2 → quiet 0 t3 →
              urls ([Get profile_url] ++ t1 ++ t2 ++ t3) = [profile_url]
              ∧ sleeps ([Get profile_url] ++ t1 ++ t2 ++ t3) = 0%nat).
    { intros t2 t3 H2 H3. rewrite !ListingFacts.urls_app, !sleeps_app.
      rewrite (urls_quiet_0 t1), (urls_quiet_0 t2), (urls_quiet_0 t3) by done.
      by rewrite (sleeps_quiet 0 t1), (sleeps_quiet 0 t2),
                 (sleeps_quiet 0 t3). }
    intros t2 w2 [[stats|]|e] (-> & Hq2); cbn beta iota.
    + sat_step. apply sat_silent; [apply silent_save_player_data|].
      intros w3 [[]|e] Hn3; cbn beta iota.
      * sat_step. apply sat_silent; [apply silent_mark_player_processed|].
        intros w4 [[]|e] Hn4; cbn beta iota.
        -- sat_steps. apply Hpre; [done|apply quiet_nil].
        -- apply Hpre; [done|apply quiet_nil].
      * apply Hpre; [done|apply quiet_nil].
    + sat_steps. apply Hpre; [done|].
      apply (quiet_app 0 0 [_]); [apply quiet_print|apply quiet_nil].
    + rewrite <- (List.app_nil_r t2). by apply Hpre, quiet_nil.
  - by sat_steps.
Qed.

Section Inference.
Context (inf : inference).

Lemma larry_nance_run (df : DataFrame) (i : nat) (v : vars)
    (firsts lasts : list cell) (w : world page table) :
  column inf df "First Name" = Some firsts →
  column inf df "Last Name" = Some lasts →
  str inf (default NaN (firsts !! i)) +:+ " "
  +:+ str inf (default NaN (lasts !! i)) = "Larry Nance" →
  sat (process_row inf df i v) w (λ t w' o,
    urls t = [larry_nance_url] ∧ sleeps t = 0%nat
    ∧ head t = Some (Print (green ("Found special case for Larry Nance: "
                                   +:+ larry_nance_url)))).
Proof.
  intros Hf Hl Hname. unfold process_row. sat_step.
  unfold sat at 1. rewrite (row_value_run inf _ _ _ _ _ Hf).
  cbn [out final events]. sat_step.
  unfold sat at 1. rewrite (row_value_run inf _ _ _ _ _ Hl).
  cbn [out final events]. rewrite Hname. cbn [String.eqb Ascii.eqb Bool.eqb].
  sat_step. sat_step. cbn beta iota.
  eapply sat_mono; [apply scrape_profile_urls|].
  intros t w' o [Hu Hs]. cbn [app]. split; [|split; [|done]].
  - unfold urls in *. cbn [omap list_omap]. exact Hu.
  - rewrite sleeps_cons. cbn [is_sleep]. exact Hs.
Qed.

End Inference.

End NanceFacts.

(** X21: the row of Larry Nance is handled apart: whatever the
    checkpoint file and the index pages hold, the run prints that it found
    the special case and makes one request, for the address
    [cbb/players/larry-nance-2.html]; it requests no index page and does
    not sleep before going on with the next row. *)
Theorem larry_nance_row (inf : Pandas.inference) (df : Pandas.DataFrame)
    (i : nat) (v : Cbb.vars) (firsts lasts : list Pandas.cell)
    (w : Rt.world Cbb.page Pandas.table) :
  Pandas.column inf df "First Name" = Some firsts →
  Pandas.column inf df "Last Name" = Some lasts →
  Pandas.str inf (default Pandas.NaN (firsts !! i)) +:+ " "
  +:+ Pandas.str inf (default Pandas.NaN (lasts !! i)) = "Larry Nance" →
  let r := Cbb.process_row inf df i v w in
  Rt.urls (Rt.events r)
  = ["https://www.sports-reference.com/cbb/players/larry-nance-2.html"]
  ∧ Rt.sleeps (Rt.events r) = 0%nat
  ∧ head (Rt.events r)
    = Some (Rt.Print (Cbb.green ("Found special case for Larry Nance: "
                                 +:+ Cbb.larry_nance_url))).
Proof. apply NanceFacts.larry_nance_run. Qed.

Lemma larry_nance_row_witness :
  Rt.sleeps (Rt.events (Cbb.process_row CbbSamples.numeric
                          {| Pandas.columns := ["First Name"; "Last Name"];
                             Pandas.data := [["Larry"; "Nance"]] |}
                          0 {| Cbb.first_player := true;
                               Cbb.current_letter := ""; Cbb.soup := None |}
                          CbbSamples.nance_world))
  = 0%nat.
Proof.
  by apply (larry_nance_row CbbSamples.numeric _ 0 _
              [Pandas.Text "Larry"] [Pandas.Text "Nance"]).
Defined.

(** X22: a profile page whose status is not 200 is reported with its
    status code; nothing is saved, the player is not marked, and the
    loop variables are as they were. *)
Theorem failed_profile_is_reported (player_name profile_url no_stats : string)
    (v : Cbb.vars) (st : Z) (body : Cbb.page)
    (w : Rt.world Cbb.page Pandas.table) :
  Rt.net w (Rt.sent w) profile_url = Rt.Reply st body → st ≠ 200 →
  Cbb.scrape_profile player_name profile_url no_stats v w
  = {| Rt.events :=
         [Rt.Get profile_url;
          Rt.Print ("Failed to retrieve profile page for " +:+ player_name
                    +:+ ". Status code: " +:+ Py.str_int st)];
       Rt.final := Rt.asked w; Rt.out := Rt.Ret v |}.
Proof. apply FailureFacts.scrape_profile_failed. Qed.

Lemma failed_profile_is_reported_witness :
  Rt.files (Rt.final (Cbb.scrape_profile "Zion Williamson"
                        "https://www.sports-reference.com/cbb/players/zion-williamson-1.html"
                        "Could not extract career stats for Zion Williamson"
                        {| Cbb.first_player := true; Cbb.current_letter := "w";
                           Cbb.soup := None |}
                        CbbSamples.no_files))
  = ∅.
Proof.
  by rewrite (failed_profile_is_reported _ _ _ _ 404 CbbSamples.no_page).
Defined.

(** X23: in [hw2-download.py] the request for a game is not guarded and
    its status is not looked at.  A game that cannot be reached ends the
    run with the exception, after the message that it is being scraped;
    nothing is marked and nothing is written.  A response of any status
    is searched for the table. *)
Theorem unreachable_game_ends_run (i : Z) (url e : string)
    (all : list Hw2.play) (st : Z) (body : Hw2.page)
    (w : Rt.world Hw2.page string) :
  (Rt.out (Hw2.is_url_processed url w) = Rt.Ret false →
   Rt.net w (Rt.sent w) url = Rt.Unreachable e →
   Hw2.scrape_game (i, url) all w
   = {| Rt.events :=
          [Rt.Print (Py.str_int i +:+ ". Scraping play-by-play data from "
                     +:+ url);
           Rt.Get url];
        Rt.final := Rt.asked w;
        Rt.out := Rt.Raise (Rt.RequestException e) |})
  ∧ (Rt.net w (Rt.sent w) url = Rt.Reply st body →
     Hw2.scrape_single_game url w
     = {| Rt.events := [Rt.Get url]; Rt.final := Rt.asked w;
          Rt.out := Rt.Ret (Hw2.play_by_play body) |}).
Proof.
  split.
  - apply Hw2Failures.scrape_game_unreachable.
  - apply Hw2Failures.scrape_single_game_reply.
Qed.

Lemma unreachable_game_ends_run_witness :
  Rt.out (Hw2.scrape_game (1, "https://x/a.shtml") []
            OfflineSamples.hw2_world)
  = Rt.Raise (Rt.RequestException "Connection refused")
  ∧ Rt.out (Hw2.scrape_single_game "https://x/a.shtml"
              (Hw2Samples.checkpoint ""))
    = Rt.Ret None.
Proof.
  destruct (unreachable_game_ends_run 1 "https://x/a.shtml"
              "Connection refused" [] 404 Hw2Samples.no_page
              OfflineSamples.hw2_world) as [H1 _].
  destruct (unreachable_game_ends_run 1 "https://x/a.shtml"
              "Connection refused" [] 404 Hw2Samples.no_page
              (Hw2Samples.checkpoint "")) as [_ H2].
  split; [by rewrite H1|by rewrite H2].
Defined.

(** X24: [main] of [year_to_year_download.py] asks for the end year only
    after the start year was read as an integer: when the first answer is
    no integer the second question is not asked, and when the second is
    none the run ends after the two questions; in both cases with the
    same message. *)
Theorem end_year_is_asked_after_start_year (answer1 answer2 : string)
    (w : Rt.world Spotrac.page string) :
  (Py.int answer1 = None →
   YearToYear.main answer1 answer2 w
   = {| Rt.events := [Rt.Prompt "Enter the start year (e.g., 2013): ";
                      Rt.Print "Please enter valid years."];
        Rt.final := w; Rt.out := Rt.Ret tt |})
  ∧ (is_Some (Py.int answer1) → Py.int answer2 = None →
     YearToYear.main answer1 answer2 w
     = {| Rt.events := [Rt.Prompt "Enter the start year (e.g., 2013): ";
                        Rt.Prompt "Enter the end year (e.g., 2023): ";
                        Rt.Print "Please enter valid years."];
          Rt.final := w; Rt.out := Rt.Ret tt |}).
Proof.
  split.
  - intros H1. unfold YearToYear.main.
    cbv [mbind Rt.M_bind Rt.bind Rt.input Rt.emit Rt.ret Rt.print
         Rt.out Rt.final Rt.events].
    by rewrite H1.
  - intros [start_year H1] H2. unfold YearToYear.main.
    cbv [mbind Rt.M_bind Rt.bind Rt.input Rt.emit Rt.ret Rt.print
         Rt.out Rt.final Rt.events].
    by rewrite H1, H2.
Qed.

Lemma end_year_is_asked_after_start_year_witness :
  Rt.events (YearToYear.main "twenty" "2023" (Samples.world_of []))
  = [Rt.Prompt "Enter the start year (e.g., 2013): ";
     Rt.Print "Please enter valid years."]
  ∧ Rt.events (YearToYear.main " 2013 " "20.23" (Samples.world_of []))
    = [Rt.Prompt "Enter the start year (e.g., 2013): ";
       Rt.Prompt "Enter the end year (e.g., 2023): ";
       Rt.Print "Please enter valid years."].
Proof.
  split.
  - by rewrite (proj1 (end_year_is_asked_after_start_year "twenty" "2023"
                         (Samples.world_of []))).
  - rewrite (proj2 (end_year_is_asked_after_start_year " 2013 " "20.23"
                      (Samples.world_of []))); [done|by eexists|done].
Defined.

(* ===================================================================== *)
(** * [createCSV.py]: the file of a game *)
(* ===================================================================== *)

Module GroupFacts.
Import Py CreateCSV CreateCSVFacts GameFileFacts.

(** What [create_csv_files] writes is, for some game, the plays of the
    data that carry the game's identifier, sorted, each with the winner
    computed from the last of them. *)
Lemma create_csv_files_elem (pbp_data : list play) (name : string)
    (rows : list out_row) :
  (name, rows) ∈ create_csv_files pbp_data →
  ∃ game sorted first_play last_play,
    sorted ≡ₚ filter (λ p, game_id p = game) pbp_data
    ∧ ordered sorted
    ∧ Forall2 row_of sorted rows
    ∧ head sorted = Some first_play ∧ last sorted = Some last_play
    ∧ name = posteam first_play +:+ "_" +:+ game +:+ "_"
             +:+ default "UNK" (away_team last_play) +:+ "_"
             +:+ default "UNK" (home_team last_play) +:+ ".csv"
    ∧ ∀ row, row ∈ rows → winner row = winner_value last_play.
Proof.
  intros H. unfold create_csv_files in H.
  apply list_elem_of_omap in H as ([game plays] & Hg & Hfile).
  unfold groupby in Hg.
  apply list_elem_of_fmap in Hg as (g & [= -> ->] & _).
  cbn [fst snd] in Hfile. unfold game_file in Hfile.
  assert (sort_values (plays_of g pbp_data)
          ≡ₚ filter (λ p, game_id p = g) pbp_data) as Hperm
    by apply sort_values_perm.
  pose proof (sort_values_ordered (plays_of g pbp_data)) as Hord.
  set (sorted := sort_values (plays_of g pbp_data)) in *.
  destruct (last sorted) as [last_play|] eqn:Hlast; [|done].
  cbn [mbind option_bind] in Hfile.
  destruct (mapM _ sorted) as [rows'|] eqn:Hrows; [|done].
  cbn [mbind option_bind] in Hfile.
  destruct rows' as [|row0 rows']; [done|]. cbn in Hfile.
  injection Hfile as <- <-.
  pose proof (mapM_select_winner _ _ _ Hrows) as [_ Hwin].
  apply mapM_Some in Hrows.
  destruct sorted as [|first_play sorted'] eqn:Hsorted;
    [by apply Forall2_nil_inv_l in Hrows|].
  exists g, (first_play :: sorted'), first_play, last_play.
  split; [exact Hperm|]. split; [exact Hord|]. split.
  { eapply Forall2_impl; [exact Hrows|]. intros p row. apply select_row_of. }
  split; [done|]. split; [done|]. split; [|exact Hwin].
  apply Forall2_cons_1 in Hrows as [Hrow0 _].
  apply select_row_of in Hrow0 as (_ & -> & _). done.
Qed.

(** The last of the plays in order is one of them, with the largest
    number. *)
Lemma last_of_game (pbp_data sorted : list play) (game : string)
    (last_play : play) :
  sorted ≡ₚ filter (λ p, game_id p = game) pbp_data →
  ordered sorted → last sorted = Some last_play →
  last_play ∈ pbp_data ∧ game_id last_play = game
  ∧ ∀ p, p ∈ pbp_data → game_id p = game → play_id p <= play_id last_play.
Proof.
  intros Hperm Hord Hlast.
  assert (last_play ∈ filter (λ p, game_id p = game) pbp_data) as Hin.
  { rewrite <- Hperm. by apply last_Some_elem_of. }
  apply list_elem_of_filter in Hin as [Hg Hin]. split; [done|]. split; [done|].
  intros p Hp Hpg. apply (ordered_last sorted); [done..|].
  rewrite Hperm. by apply list_elem_of_filter.
Qed.

End GroupFacts.

(** C9: a file [create_csv_files] writes is the file of one game: its
    rows are the plays of the data that carry the game's identifier, one
    row for each of them, in the order of [play_id].  Every row has the
    same [winner]: it is 1 when, on the play of the last row, which is a
    play of the game with the largest [play_id], [posteam_score] is
    greater than [defteam_score], and 0 otherwise: when the scores are
    equal, and when one of them is missing. *)
Theorem winner_column (pbp_data : list CreateCSV.play) (name : string)
    (rows : list CreateCSV.out_row) :
  (name, rows) ∈ CreateCSV.create_csv_files pbp_data →
  ∃ game sorted last_play,
    sorted ≡ₚ filter (λ p, CreateCSV.game_id p = game) pbp_data
    ∧ Forall2 GameFileFacts.row_of sorted rows
    ∧ last sorted = Some last_play
    ∧ CreateCSV.game_id last_play = game
    ∧ (∀ p, p ∈ pbp_data → CreateCSV.game_id p = game →
            CreateCSV.play_id p <= CreateCSV.play_id last_play)
    ∧ ∀ row, row ∈ rows →
        (CreateCSV.winner row = 1
         ↔ ∃ x y, CreateCSV.posteam_score last_play = Some x
                  ∧ CreateCSV.defteam_score last_play = Some y ∧ x > y)
        ∧ (CreateCSV.winner row = 1 ∨ CreateCSV.winner row = 0)
        ∧ (CreateCSV.posteam_score last_play = CreateCSV.defteam_score last_play
           → CreateCSV.winner row = 0).
Proof.
  intros H.
  apply GroupFacts.create_csv_files_elem in H
    as (game & sorted & first_play & last_play & Hperm & Hord & Hrows
        & _ & Hlast & _ & Hw).
  destruct (GroupFacts.last_of_game _ _ _ _ Hperm Hord Hlast)
    as (_ & Hgame & Hmax).
  exists game, sorted, last_play. do 5 (split; [done|]).
  intros row Hrow. rewrite (Hw row Hrow).
  unfold CreateCSV.winner_value, CreateCSV.gt.
  destruct (CreateCSV.posteam_score last_play) as [x|],
           (CreateCSV.defteam_score last_play) as [y|].
  - destruct (Z.ltb_spec y x).
    + split; [|split; [by left|]].
      * split; [intros _; exists x, y; repeat split; lia|done].
      * intros [= ->]. lia.
    + split; [|split; [by right|done]].
      split; [done|]. intros (x' & y' & [= <-] & [= <-] & ?). lia.
  - split; [|split; [by right|done]].
    split; [done|]. by intros (x' & y' & _ & ? & _).
  - split; [|split; [by right|done]].
    split; [done|]. by intros (x' & y' & ? & _).
  - split; [|split; [by right|done]].
    split; [done|]. by intros (x' & y' & ? & _).
Qed.

(** The file of the first of two games whose plays alternate in the data:
    two rows, both with the winner of that game's own last play. *)
Lemma winner_column_witness :
  ∃ game sorted last_play,
    sorted ≡ₚ filter (λ p, CreateCSV.game_id p = game) NflSamples.two_games
    ∧ Forall2 GameFileFacts.row_of sorted NflSamples.first_game_rows
    ∧ last sorted = Some last_play
    ∧ CreateCSV.game_id last_play = game.
Proof.
  destruct (winner_column NflSamples.two_games "DET_2023_01_DET_KC_DET_KC.csv"
              NflSamples.first_game_rows)
    as (game & sorted & last_play & Hp & Hrows & Hlast & Hg & _).
  - vm_compute. apply list_elem_of_here.
  - by exists game, sorted, last_play.
Defined.

(** X18: the rows of a game file [create_csv_files] writes are the plays
    of the data that carry the identifier of one game, in the order of
    [play_id], one row for each play, with the play's own win
    probability, teams, scores and score differential.  The file is named
    after the offense of the first of these plays (the variable is called
    [season]), the game, and the away and home teams of the last play,
    [UNK] standing for a missing one. *)
Theorem game_file_rows (pbp_data : list CreateCSV.play) (name : string)
    (rows : list CreateCSV.out_row) :
  (name, rows) ∈ CreateCSV.create_csv_files pbp_data →
  ∃ game sorted first_play last_play,
    sorted ≡ₚ filter (λ p, CreateCSV.game_id p = game) pbp_data
    ∧ (∀ i p q, sorted !! i = Some p → sorted !! S i = Some q →
                CreateCSV.play_id p <= CreateCSV.play_id q)
    ∧ Forall2 GameFileFacts.row_of sorted rows
    ∧ head sorted = Some first_play ∧ last sorted = Some last_play
    ∧ name = CreateCSV.posteam first_play +:+ "_" +:+ game +:+ "_"
             +:+ default "UNK" (CreateCSV.away_team last_play) +:+ "_"
             +:+ default "UNK" (CreateCSV.home_team last_play) +:+ ".csv".
Proof.
  intros H.
  apply GroupFacts.create_csv_files_elem in H
    as (game & sorted & first_play & last_play & Hperm & Hord & Hrows
        & Hhead & Hlast & Hname & _).
  exists game, sorted, first_play, last_play. split; [done|]. split.
  { intros i p q. by apply GameFileFacts.ordered_lookup. }
  done.
Qed.

(** The second of two games whose plays alternate in the data: its file
    has the two plays of that game, not the four of the data. *)
Lemma game_file_rows_witness :
  ∃ game sorted rows,
    sorted ≡ₚ filter (λ p, CreateCSV.game_id p = game) NflSamples.two_games
    ∧ Forall2 GameFileFacts.row_of sorted rows
    ∧ length rows = 2%nat.
Proof.
  destruct (game_file_rows NflSamples.two_games "DET_2023_02_DET_KC_DET_KC.csv"
              (default [] (snd <$> last (CreateCSV.create_csv_files
                                           NflSamples.two_games))))
    as (game & sorted & first_play & last_play & Hp & _ & Hrows & _).
  - vm_compute. apply list_elem_of_further, list_elem_of_here.
  - eexists game, sorted, _. split; [done|]. split; [exact Hrows|].
    by vm_compute.
Defined.
